(** * synth: device behaviour and state transitions

    A shallow embedding of [src/synth/device.py] (the generic [device] class,
    the global device list and the external-event dispatcher) and of
    [src/synth/devices/battery.py] (the [Battery] device), with the
    properties of the specification stated and proved over it.

    Conventions of the embedding.
    - Python values stored in property maps are the inductive [value].
      The simulated clock and every duration are Python floats in the source;
      they are idealised here as exact rationals ([Q]), so statements about
      them are statements of exact arithmetic.
    - A property map (a Python [dict] keyed by strings) is a [gmap string value].
    - Device objects live in the global list [devices]; a method's [self] is
      the position of the object in that list.
    - Methods run in a state-and-exception monad over the [world]: an
      exception keeps every mutation made before it was raised, as in Python.
    - Text written to the log is kept structured ([msg]) instead of being
      rendered to characters. *)

From Stdlib Require Import ZArith QArith Qminmax Lqa Lia.
From stdpp Require Import gmap strings list fin_maps.

Local Open Scope Z_scope.
Local Open Scope string_scope.
Local Open Scope list_scope.

(** ** Values and Python 2 comparisons *)

Inductive value : Type :=
| VInt (z : Z)
| VFloat (q : Q)
| VStr (s : string)
| VNone.

(** [a == b] on the values above: numbers compare numerically across [int]
    and [float], strings by content, [None] only equals [None]. *)
Definition py_eq (a b : value) : bool :=
  match a, b with
  | VInt x, VInt y => Z.eqb x y
  | VInt x, VFloat y => Qeq_bool (inject_Z x) y
  | VFloat x, VInt y => Qeq_bool x (inject_Z y)
  | VFloat x, VFloat y => Qeq_bool x y
  | VStr x, VStr y => String.eqb x y
  | VNone, VNone => true
  | _, _ => false
  end.

(** [v <= 0] and [v > 0] against the integer literal 0.  The source is
    Python 2 ([basestring]), where values of different types are ordered:
    [None] is below every number and every number is below every string. *)
Definition py_le_zero (v : value) : bool :=
  match v with
  | VInt z => Z.leb z 0
  | VFloat q => Qle_bool q 0
  | VStr _ => false
  | VNone => true
  end.

Definition py_gt_zero (v : value) : bool :=
  match v with
  | VInt z => Z.ltb 0 z
  | VFloat q => negb (Qle_bool q 0)
  | VStr _ => true
  | VNone => false
  end.

(** ** Exceptions, log messages, scheduled events *)

Inductive exn : Type :=
| KeyError (key : string)
| TypeError
| NameError (name : string)
| SystemExit (code : Z)
| DanglingSelf.            (* [self] names no object: never raised by Python *)

Inductive result (A : Type) : Type :=
| Ok (a : A)
| Raise (e : exn).
Arguments Ok {A} a.
Arguments Raise {A} e.

Inductive msg : Type :=
| MsgExternalReceived                          (* "external Event received: ..." *)
| MsgProcessing (eventName : string) (id : value)
| MsgIgnoredBatteryFlat                        (* "...ignored because battery flat" *)
| MsgIgnoredCommsDown                          (* "...ignored because comms down" *)
| MsgNoSuchDevice                              (* "No such device ... for incoming event ..." *)
| MsgErrorProcessing                           (* "Error processing external event" *)
| MsgErrorDetail (e : exn)                     (* "Error processing externalEvent: ..." *)
| MsgTraceback
| MsgFatalDuplicate (id : value)               (* "FATAL: Attempt to create duplicate device ..." *)
| MsgAutoReplacing                             (* "Auto-replacing battery" *)
| MsgNoCallback.                               (* "No callback installed to update device properties" *)

Inductive level : Type := INFO | WARNING | ERROR.

(** A line group of the event log file: a row written by [logEntry] or a
    free-text line written by [logString]. *)
Inductive log_line : Type :=
| Row (time : Q) (props : gmap string value)
| Line (m : msg).

Inductive callback : Type :=
| TickBatteryDecay
| TickHourly
| TickProductUsage
| TickCommsUpDown.

Record event : Type := mkEvent {
  ev_time : Q;
  ev_callback : callback;
  ev_context : nat
}.

(** ** Devices and the world *)

Record device : Type := mkDevice {
  device_id : value;
  properties : gmap string value;
  commsUpDownPeriod : Q;
  batteryLife : Q;
  batteryAutoreplace : bool;
  commsOK : bool
}.

Record world : Type := mkWorld {
  devices : list device;                         (* the module-level [devices] *)
  updateCallback : bool;                         (* is a callback installed? *)
  sink : list (value * Q * gmap string value);   (* calls made to [updateCallback] *)
  logfile : list log_line;                       (* the open event log *)
  logging : list (level * msg);                  (* the [logging] module *)
  now : Q;                                       (* [engine.get_now()] *)
  queue : list event                             (* events registered with the engine *)
}.

Definition DEFAULT_BATTERY_LIFE_S : Q := inject_Z (5 * 60).
Definition GOOD_RSSI : Q := (-50)%Q.
Definition BAD_RSSI : Q := (-120)%Q.

Definition set_devices (ds : list device) (w : world) : world :=
  mkWorld ds (updateCallback w) (sink w) (logfile w) (logging w) (now w) (queue w).
Definition set_sink (s : list (value * Q * gmap string value)) (w : world) : world :=
  mkWorld (devices w) (updateCallback w) s (logfile w) (logging w) (now w) (queue w).
Definition set_logfile (l : list log_line) (w : world) : world :=
  mkWorld (devices w) (updateCallback w) (sink w) l (logging w) (now w) (queue w).
Definition set_logging (l : list (level * msg)) (w : world) : world :=
  mkWorld (devices w) (updateCallback w) (sink w) (logfile w) l (now w) (queue w).
Definition set_now (t : Q) (w : world) : world :=
  mkWorld (devices w) (updateCallback w) (sink w) (logfile w) (logging w) t (queue w).
Definition set_queue (q : list event) (w : world) : world :=
  mkWorld (devices w) (updateCallback w) (sink w) (logfile w) (logging w) (now w) q.

Definition set_properties (p : gmap string value) (d : device) : device :=
  mkDevice (device_id d) p (commsUpDownPeriod d) (batteryLife d)
           (batteryAutoreplace d) (commsOK d).

(** ** The monad of methods *)

Definition M (A : Type) : Type := world -> result A * world.

Definition ret {A} (a : A) : M A := fun w => (Ok a, w).
Definition raise {A} (e : exn) : M A := fun w => (Raise e, w).
Definition bind {A B} (m : M A) (k : A -> M B) : M B :=
  fun w => match m w with
           | (Ok a, w') => k a w'
           | (Raise e, w') => (Raise e, w')
           end.

Notation "'do' x <- m ; k" := (bind m (fun x => k))
  (at level 10, x name, m at level 100, k at level 200).
Notation "m ;; k" := (bind m (fun _ => k))
  (at level 100, k at level 200, right associativity).

(** [try: body except Exception as e: handler]: [SystemExit] is not an
    [Exception] and passes through. *)
Definition try_except {A} (body : M A) (handler : exn -> M A) : M A :=
  fun w => match body w with
           | (Ok a, w') => (Ok a, w')
           | (Raise (SystemExit c), w') => (Raise (SystemExit c), w')
           | (Raise e, w') => handler e w'
           end.

Definition when (b : bool) (m : M unit) : M unit := if b then m else ret tt.

Definition get_self (self : nat) : M device :=
  fun w => match devices w !! self with
           | Some d => (Ok d, w)
           | None => (Raise DanglingSelf, w)
           end.

Definition put_self (self : nat) (d : device) : M unit :=
  fun w => (Ok tt, set_devices (<[self := d]> (devices w)) w).

(** *** Logging *)

Definition logging_info (m : msg) : M unit :=
  fun w => (Ok tt, set_logging (logging w ++ [(INFO, m)]) w).
Definition logging_warning (m : msg) : M unit :=
  fun w => (Ok tt, set_logging (logging w ++ [(WARNING, m)]) w).
Definition logging_error (m : msg) : M unit :=
  fun w => (Ok tt, set_logging (logging w ++ [(ERROR, m)]) w).

Definition logEntry (time : Q) (props : gmap string value) : M unit :=
  fun w => (Ok tt, set_logfile (logfile w ++ [Row time props]) w).

Definition logString (m : msg) : M unit :=
  logging_info m ;;
  fun w => (Ok tt, set_logfile (logfile w ++ [Line m]) w).

(** *** The scheduling engine *)

(** Modelled from the spec: the scheduling engine is not in the source; it
    owns the simulated clock and the pending events.  [get_now] reads the
    clock. *)
Definition get_now : M Q := fun w => (Ok (now w), w).

(** Modelled from the spec: [engine.register_event_in] of the missing engine
    registers a callback at a delay from now. *)
Definition register_event_in (delay : Q) (cb : callback) (ctx : nat) : M unit :=
  fun w => (Ok tt, set_queue (queue w ++ [mkEvent (now w + delay)%Q cb ctx]) w).

(** ** Methods of [device] *)

Definition getProperty (self : nat) (propName : string) : M value :=
  do d <- get_self self;
  match properties d !! propName with
  | Some v => ret v
  | None => raise (KeyError propName)
  end.

Definition propertyExists (self : nat) (propName : string) : M bool :=
  do d <- get_self self;
  ret (match properties d !! propName with Some _ => true | None => false end).

Definition propertyAbsent (self : nat) (propName : string) : M bool :=
  do b <- propertyExists self propName;
  ret (negb b).

Definition getCommsOK (self : nat) : M bool :=
  do d <- get_self self; ret (commsOK d).

Definition doComms (self : nat) (time : Q) (props : gmap string value) : M unit :=
  do d <- get_self self;
  if commsOK d then
    (do w <- (fun w => (Ok w, w));
     if updateCallback w
     then (fun w => (Ok tt, set_sink (sink w ++ [(device_id d, time, props)]) w))
     else logging_warning MsgNoCallback) ;;
    logEntry time props
  else ret tt.

(** The dict literal [{ propName : value, "$id" : ..., "$ts" : time }]: later
    keys win over [propName]. *)
Definition newProps_of (d : device) (time : Q) (propName : string) (v : value)
  : gmap string value :=
  <["$ts" := VFloat time]> (<["$id" := device_id d]> (<[propName := v]> ∅)).

Definition setProperty (self : nat) (time : Q) (propName : string) (v : value) : M unit :=
  do d <- get_self self;
  let newProps := newProps_of d time propName v in
  put_self self (set_properties (newProps ∪ properties d) d) ;;
  doComms self time newProps.

Definition setProperties (self : nat) (time : Q) (newProps : gmap string value) : M unit :=
  do d <- get_self self;
  let newProps := <["$ts" := VFloat time]> (<["$id" := device_id d]> newProps) in
  put_self self (set_properties (newProps ∪ properties d) d) ;;
  doComms self time newProps.

Definition startTicks (self : nat) : M unit :=
  do hasBattery <- propertyExists self "battery";
  (if hasBattery
   then (do d <- get_self self;
         register_event_in (batteryLife d / 100)%Q TickBatteryDecay self)
   else ret tt) ;;
  register_event_in (inject_Z (1 * 60 * 60)) TickHourly self ;;
  register_event_in 0%Q TickProductUsage self.

(** [v - 1]; [None] stands for a [TypeError]. *)
Definition py_sub_one (v : value) : option value :=
  match v with
  | VInt z => Some (VInt (z - 1))
  | VFloat q => Some (VFloat (q - 1)%Q)
  | _ => None
  end.

Definition py_pred (v : value) : M value :=
  match py_sub_one v with
  | Some v' => ret v'
  | None => raise TypeError
  end.

Definition tickBatteryDecay (self : nat) : M unit :=
  do v <- getProperty self "battery";
  if py_gt_zero v then
    do t <- get_now;
    do v' <- py_pred v;
    setProperty self t "battery" v' ;;
    do d <- get_self self;
    register_event_in (batteryLife d / 100)%Q TickBatteryDecay self
  else
    do d <- get_self self;
    if batteryAutoreplace d then
      logging_info MsgAutoReplacing ;;
      do t <- get_now;
      setProperty self t "battery" (VInt 100) ;;
      do d <- get_self self;
      register_event_in (batteryLife d / 100)%Q TickBatteryDecay self
    else ret tt.

Definition device_externalEvent (self : nat) (eventName : string) (arg : value) : M unit :=
  do id <- getProperty self "$id";
  logString (MsgProcessing eventName id) ;;
  (if String.eqb eventName "replaceBattery"
   then (do t <- get_now;
         setProperty self t "battery" (VInt 100) ;;
         startTicks self)
   else ret tt) ;;
  (* All other commands require device to be functional! *)
  do b <- getProperty self "battery";
  if py_le_zero b then logString MsgIgnoredBatteryFlat
  else
    do ok <- getCommsOK self;
    if negb ok then logString MsgIgnoredCommsDown
    else
      (if String.eqb eventName "upgradeFirmware"
       then (do t <- get_now; setProperty self t "firmware" arg)
       else ret tt) ;;
      (if String.eqb eventName "factoryReset"
       then (do t <- get_now;
             do f <- getProperty self "factoryFirmware";
             setProperty self t "firmware" f)
       else ret tt).

(** [random.normalvariate(mu, sigma)] is an input: [sample] is the value drawn. *)
Definition clamp_two_sigma (mu sigma sample : Q) : Q :=
  let life := sample in
  let life := Qmin life (mu + 2 * sigma)%Q in
  let life := Qmax life (mu - 2 * sigma)%Q in
  life.

Definition setBatteryLife (self : nat) (mu sigma : Q) (autoreplace : bool) (sample : Q)
  : M unit :=
  do d <- get_self self;
  put_self self (mkDevice (device_id d) (properties d) (commsUpDownPeriod d)
                          (clamp_two_sigma mu sigma sample) autoreplace (commsOK d)).

(** The radio factor of [tickCommsUpDown]: the reading is mapped to 0..1 and
    skewed towards "good". *)
Definition radioGoodness (rssi : Q) : Q :=
  let radioGoodness := (1 - (rssi - GOOD_RSSI) / (BAD_RSSI - GOOD_RSSI))%Q in
  (1 - (1 - radioGoodness) ^ 4)%Q.

(** ** The device registry and the dispatcher of external events *)

Definition numDevices : M nat := fun w => (Ok (length (devices w)), w).

Fixpoint find_by_property (prop : string) (v : value) (ds : list device) (i : nat)
  : option nat :=
  match ds with
  | [] => None
  | d :: rest =>
      match properties d !! prop with
      | Some x => if py_eq x v then Some i else find_by_property prop v rest (S i)
      | None => find_by_property prop v rest (S i)
      end
  end.

Definition getDeviceByProperty (prop : string) (v : value) : M (option nat) :=
  fun w => (Ok (find_by_property prop v (devices w) 0), w).

(** [device.__init__]; the result is the new object. *)
Definition device_init (id : value) (time : Q) (props : gmap string value)
    (autoTick : bool) : M nat :=
  do found <- getDeviceByProperty "$id" id;
  match found with
  | Some _ =>
      logging_error (MsgFatalDuplicate id) ;;
      raise (SystemExit (-1))
  | None =>
      do self <- numDevices;
      (fun w => (Ok tt, set_devices
         (devices w ++ [mkDevice id props (inject_Z (1 * 60 * 60 * 24))
                                 DEFAULT_BATTERY_LIFE_S false true]) w)) ;;
      doComms self time props ;;
      when autoTick (startTicks self) ;;
      ret self
  end.

(** Reading a name that is neither a local nor a global of the module. *)
Definition unbound_name (name : string) : M value := raise (NameError name).

(** The [for d in devices] loop of [externalEvent]; [true] when the function
    returned from inside the loop.  Nothing is mutated before a device
    matches, so the loop reads the list as it was on entry. *)
Fixpoint externalEvent_loop (body : gmap string value) (ds : list device) (i : nat)
  : M bool :=
  match ds with
  | [] => ret false
  | d :: rest =>
      match properties d !! "$id" with
      | None => raise (KeyError "$id")
      | Some id =>
          match body !! "deviceId" with
          | None => raise (KeyError "deviceId")
          | Some target =>
              if py_eq id target then
                let arg := default VNone (body !! "arg") in
                match body !! "eventName" with
                | None => raise (KeyError "eventName")
                | Some (VStr eventName) =>
                    device_externalEvent i eventName arg ;; ret true
                | Some _ => raise TypeError   (* "..."+eventName at the first line *)
                end
              else externalEvent_loop body rest (S i)
          end
      end
  end.

Definition externalEvent (params : gmap string (gmap string value)) : M unit :=
  match params !! "body" with
  | None => raise (KeyError "body")
  | Some body =>
      try_except
        (logging_info MsgExternalReceived ;;
         do ds <- (fun w => (Ok (devices w), w));
         do returned <- externalEvent_loop body ds 0;
         if returned then ret tt
         else
           (* e = "No such device "+str(deviceID)+" for incoming event "+str(eventName) *)
           do _ <- unbound_name "deviceID";
           do _ <- unbound_name "eventName";
           logString MsgNoSuchDevice)
        (fun e =>
           logString MsgErrorProcessing ;;
           logging_error (MsgErrorDetail e) ;;
           logging_error MsgTraceback)
  end.

(** ** Dispatch of decay ticks by the engine *)

Definition is_decay_of (self : nat) (e : event) : bool :=
  match ev_callback e with
  | TickBatteryDecay => Nat.eqb (ev_context e) self
  | _ => false
  end.

Fixpoint take_decay (self : nat) (q : list event) : option (event * list event) :=
  match q with
  | [] => None
  | e :: rest =>
      if is_decay_of self e then Some (e, rest)
      else match take_decay self rest with
           | Some (e', rest') => Some (e', e :: rest')
           | None => None
           end
  end.

(** Modelled from the spec: the engine (not in the source) invokes a
    registered callback at its due time, after setting the clock to that
    time.  [fire_decay] does this for the first pending battery-decay event
    of a device, and answers [true] when there was one; the other callbacks
    never write [battery], [batteryLife] or [batteryAutoreplace] and are left
    pending. *)
Definition fire_decay (self : nat) : M bool :=
  fun w => match take_decay self (queue w) with
           | None => (Ok false, w)
           | Some (e, rest) =>
               (tickBatteryDecay self ;; ret true)
                 (set_now (ev_time e) (set_queue rest w))
           end.

Fixpoint fire_decays (n : nat) (self : nat) : M unit :=
  match n with
  | O => ret tt
  | S n' => fire_decay self ;; fire_decays n' self
  end.

(** ** The [Battery] device of [devices/battery.py]

    [Battery] extends a base class [Device] that is not in the source.  The
    object is modelled by the fields its own methods use, together with what
    the base class and the engine contribute: the flag returned by
    [super().comms_ok()], the clock and the due times of the registered
    decay ticks. *)
Module Battery.

Record t : Type := mk {
  instance_name : value;
  properties : gmap string value;
  battery_life : Q;
  battery_autoreplace : bool;
  base_comms_ok : bool;
  clock : Q;
  pending : list Q;
  log : list msg
}.

(** The life drawn in [__init__]; [sample] is the value returned by
    [random.normalvariate(mu, sigma)]. *)
Definition sample_life (mu sigma sample : Q) : Q :=
  let life := sample in
  let life := Qmin life (mu + 2 * sigma)%Q in
  let life := Qmax life (mu - 2 * sigma)%Q in
  let life := Qmax life 1 in
  life.

(** Modelled from the spec: [Device.get_property] of the missing base
    class, which fails when the property is absent. *)
Definition get_property (name : string) (b : t) : result value :=
  match properties b !! name with
  | Some v => Ok v
  | None => Raise (KeyError name)
  end.

(** Modelled from the spec: [Device.set_property] of the missing base
    class, which merges the property into the map and forces [$id] and
    [$ts]. *)
Definition set_property (name : string) (v : value) (b : t) : t :=
  mk (instance_name b)
     (<["$ts" := VFloat (clock b)]>
        (<["$id" := instance_name b]> (<[name := v]> (properties b))))
     (battery_life b) (battery_autoreplace b) (base_comms_ok b)
     (clock b) (pending b) (log b).

(** Modelled from the spec: [engine.register_event_in] for the decay tick. *)
Definition register_decay (delay : Q) (b : t) : t :=
  mk (instance_name b) (properties b) (battery_life b) (battery_autoreplace b)
     (base_comms_ok b) (clock b) (pending b ++ [(clock b + delay)%Q]) (log b).

Definition logging_info (m : msg) (b : t) : t :=
  mk (instance_name b) (properties b) (battery_life b) (battery_autoreplace b)
     (base_comms_ok b) (clock b) (pending b) (log b ++ [m]).

(** The part of [__init__] after the call of the base constructor. *)
Definition init (mu sigma : Q) (autoreplace : bool) (sample : Q) (b : t) : t :=
  let life := sample_life mu sigma sample in
  register_decay (life / 100)%Q
    (mk (instance_name b) (<["battery" := VInt 100]> (properties b))
        life autoreplace (base_comms_ok b) (clock b) (pending b) (log b)).

Definition comms_ok (b : t) : bool :=
  base_comms_ok b && py_gt_zero (default (VInt 100) (properties b !! "battery")).

Definition tick_battery_decay (b : t) : result unit * t :=
  match get_property "battery" b with
  | Raise e => (Raise e, b)
  | Ok v =>
      if py_gt_zero v then
        match py_sub_one v with
        | None => (Raise TypeError, b)
        | Some v' =>
            let b := set_property "battery" v' b in
            (Ok tt, register_decay (battery_life b / 100)%Q b)
        end
      else if battery_autoreplace b then
        (* "Auto-replacing battery on device " + self.properties["$id"] *)
        match properties b !! "$id" with
        | None => (Raise (KeyError "$id"), b)
        | Some (VStr _) =>
            let b := logging_info MsgAutoReplacing b in
            let b := set_property "battery" (VInt 100) b in
            (Ok tt, register_decay (battery_life b / 100)%Q b)
        | Some _ => (Raise TypeError, b)
        end
      else (Ok tt, b)   (* otherwise we stop ticking *)
  end.

(** Modelled from the spec: the engine runs the first pending decay tick
    at its due time. *)
Definition fire (b : t) : result unit * t :=
  match pending b with
  | [] => (Ok tt, b)
  | due :: rest =>
      tick_battery_decay
        (mk (instance_name b) (properties b) (battery_life b)
            (battery_autoreplace b) (base_comms_ok b) due rest (log b))
  end.

Fixpoint fires (n : nat) (b : t) : result unit * t :=
  match n with
  | O => (Ok tt, b)
  | S n' => match fire b with
            | (Ok _, b') => fires n' b'
            | (Raise e, b') => (Raise e, b')
            end
  end.

End Battery.


(** ** Auxiliary definitions used in the statements *)

(** What [doComms] leaves behind. *)
Definition comms_out (d : device) (time : Q) (props : gmap string value) (w : world)
  : world :=
  if commsOK d then
    set_logfile (logfile w ++ [Row time props])
      (if updateCallback w
       then set_sink (sink w ++ [(device_id d, time, props)]) w
       else set_logging (logging w ++ [(WARNING, MsgNoCallback)]) w)
  else w.

(** The object after [setProperty]. *)
Definition updated (d : device) (time : Q) (propName : string) (v : value) : device :=
  set_properties (newProps_of d time propName v ∪ properties d) d.

(** The events registered by [startTicks] at time [t]. *)
Definition startTicks_events (d : device) (self : nat) (t : Q) : list event :=
  (match properties d !! "battery" with
   | Some _ => [mkEvent (t + batteryLife d / 100)%Q TickBatteryDecay self]
   | None => []
   end) ++
  [mkEvent (t + inject_Z (1 * 60 * 60))%Q TickHourly self;
   mkEvent (t + 0)%Q TickProductUsage self].

(** An event other than [replaceBattery] skips the replacement and arrives at
    the gates with only the receipt logged. *)
Definition gates (self : nat) (eventName : string) (arg : value) : M unit :=
  do b <- getProperty self "battery";
  if py_le_zero b then logString MsgIgnoredBatteryFlat
  else
    do ok <- getCommsOK self;
    if negb ok then logString MsgIgnoredCommsDown
    else
      (if String.eqb eventName "upgradeFirmware"
       then (do t <- get_now; setProperty self t "firmware" arg)
       else ret tt) ;;
      (if String.eqb eventName "factoryReset"
       then (do t <- get_now;
             do f <- getProperty self "factoryFirmware";
             setProperty self t "firmware" f)
       else ret tt).

(** The dict handed to [doComms] by [setProperties]. *)
Definition forced (d : device) (time : Q) (newProps : gmap string value)
  : gmap string value :=
  <["$ts" := VFloat time]> (<["$id" := device_id d]> newProps).

(** ** Concrete devices and worlds for the examples *)

Definition example_device (battery : Z) (comms : bool) : device :=
  mkDevice (VStr "dev1")
           (<["battery" := VInt battery]>
              (<["firmware" := VStr "1.0"]> {["$id" := VStr "dev1"]}))
           (inject_Z (1 * 60 * 60 * 24)) DEFAULT_BATTERY_LIFE_S false comms.

Definition example_world (d : device) : world :=
  mkWorld [d] true [] [] [] 0%Q [].

(** A device that has no [battery] property. *)
Definition mains_device : device :=
  mkDevice (VStr "dev2")
           (<["firmware" := VStr "1.0"]> {["$id" := VStr "dev2"]})
           (inject_Z (1 * 60 * 60 * 24)) DEFAULT_BATTERY_LIFE_S false true.

Definition example_battery (battery : Z) (base : bool) : Battery.t :=
  Battery.mk (VStr "dev3") {["battery" := VInt battery]} 300%Q false base 0%Q [] [].

Definition empty_world : world := mkWorld [] true [] [] [] 0%Q [].

(** An event for a device that is not registered. *)
Definition ghost_event : gmap string (gmap string value) :=
  {["body" := <["deviceId" := VStr "ghost"]>
                (<["eventName" := VStr "upgradeFirmware"]> {["arg" := VStr "2.0"]})]}.

(** ** The decay chain

    [decaying self L a v t w]: in [w] the device [self] has battery level [v],
    life [L] and autoreplace flag [a], and exactly one decay tick is pending
    for it, due at [t]. *)
Definition decaying (self : nat) (L : Q) (a : bool) (v : Z) (t : Q) (w : world) : Prop :=
  exists d,
    devices w !! self = Some d /\
    properties d !! "battery" = Some (VInt v) /\
    batteryLife d = L /\
    batteryAutoreplace d = a /\
    List.filter (is_decay_of self) (queue w) = [mkEvent t TickBatteryDecay self].

(** The due time of the tick that follows [n] ticks spaced by [p]. *)
Fixpoint tick_time (t p : Q) (n : nat) : Q :=
  match n with
  | O => t
  | S n' => (tick_time t p n' + p)%Q
  end.

(** The battery property of a device of the world, if any. *)
Definition battery_of (self : nat) (w : world) : option value :=
  match devices w !! self with
  | Some d => properties d !! "battery"
  | None => None
  end.

(** The same for a [Battery]: level [v], life [L], autoreplace flag [a] and
    exactly one decay tick pending, due at [t]. *)
Definition battery_decaying (L : Q) (a : bool) (v : Z) (t : Q) (b : Battery.t) : Prop :=
  Battery.properties b !! "battery" = Some (VInt v) /\
  Battery.battery_life b = L /\
  Battery.battery_autoreplace b = a /\
  Battery.pending b = [t].

(** The message of the automatic replacement can be built: the instance name
    is a string and [self.properties["$id"]] is there and is a string. *)
Definition battery_named (b : Battery.t) : Prop :=
  (exists s, Battery.instance_name b = VStr s) /\
  (exists s, Battery.properties b !! "$id" = Some (VStr s)).

(** A [Battery] that carries its identifier, just constructed at time 0 with
    a life of 300 seconds and autoreplace. *)
Definition named_battery : Battery.t :=
  Battery.init 300 0 true 300
    (Battery.mk (VStr "dev3") {["$id" := VStr "dev3"]} 0 false true 0 [] []).

(** A device created at time 0 with a full battery, then given a life of 300
    seconds with autoreplace. *)
Definition cycle_world : world :=
  snd (setBatteryLife 0 300 0 true 300
         (snd (device_init (VStr "dev1") 0
                 (<["battery" := VInt 100]> {["$id" := VStr "dev1"]}) true empty_world))).

Definition battery_is_full (self : nat) (w : world) : bool :=
  match battery_of self w with
  | Some v => py_eq v (VInt 100)
  | None => false
  end.

(** A device created at time 0 with a full battery; autoreplace is off and the
    life is the default of 300 seconds. *)
Definition decay_world : world :=
  snd (device_init (VStr "dev1") 0
         (<["battery" := VInt 100]> {["$id" := VStr "dev1"]}) true empty_world).

(** * The rest of [device.py] and [battery.py] *)

(** ** Further methods of [device] *)

Definition set_commsOK (flag : bool) (d : device) : device :=
  mkDevice (device_id d) (properties d) (commsUpDownPeriod d) (batteryLife d)
           (batteryAutoreplace d) flag.

Definition setCommsOK (self : nat) (flag : bool) : M unit :=
  do d <- get_self self;
  put_self self (set_commsOK flag d).

(** Modelled from the spec: [engine.register_event_at] of the missing engine
    registers a callback at an absolute time. *)
Definition register_event_at (t : Q) (cb : callback) (ctx : nat) : M unit :=
  fun w => (Ok tt, set_queue (queue w ++ [mkEvent t cb ctx]) w).

(** [self.propertyAbsent("battery") or self.getProperty("battery") > 0]: the
    property is read only when it is there. *)
Definition powered (self : nat) : M bool :=
  do absent <- propertyAbsent self "battery";
  if absent then ret true
  else do b <- getProperty self "battery"; ret (py_gt_zero b).

(** [tickProductUsage].  The parameter [nextUsageTime] stands for
    [timewave.nextUsageTime(now, ["Mon",...,"Fri"], "06:00-09:00")]: the
    module [timewave] is not in the source. *)
Definition tickProductUsage (nextUsageTime : Q -> Q) (self : nat) : M unit :=
  do go <- powered self;
  if go then
    do t <- get_now;
    setProperty self t "buttonPress" (VInt 1) ;;
    do t' <- get_now;
    register_event_at (nextUsageTime t') TickProductUsage self
  else ret tt.

(** ** Registry invariants *)

(** Every registered device carries its identifier under [$id]. *)
Definition registry_wf (w : world) : Prop :=
  forall i d, devices w !! i = Some d ->
    exists x, properties d !! "$id" = Some x /\ py_eq x (device_id d) = true.

(** No two registered devices have equal identifiers. *)
Definition ids_unique (w : world) : Prop :=
  forall i j di dj,
    devices w !! i = Some di -> devices w !! j = Some dj ->
    py_eq (device_id di) (device_id dj) = true -> i = j.

(** The number a value stands for in a comparison, if it is one. *)
Definition py_num (v : value) : option Q :=
  match v with
  | VInt z => Some (inject_Z z)
  | VFloat q => Some q
  | _ => None
  end.

(** A method that neither exits the process nor changes the number of
    devices, whatever the world it runs in. *)
Definition tame {A} (m : M A) : Prop :=
  forall w,
    (forall c, fst (m w) <> Raise (SystemExit c)) /\
    length (devices (snd (m w))) = length (devices w).

(** The object built by [device.__init__]. *)
Definition new_device (id : value) (props : gmap string value) : device :=
  mkDevice id props (inject_Z (1 * 60 * 60 * 24)) DEFAULT_BATTERY_LIFE_S false true.

(** What [logString] leaves behind. *)
Definition logged (m : msg) (w : world) : world :=
  set_logfile (logfile w ++ [Line m]) (set_logging (logging w ++ [(INFO, m)]) w).

(** A [replaceBattery] event for the device of the examples. *)
Definition replace_event : gmap string (gmap string value) :=
  {["body" := <["deviceId" := VStr "dev1"]> {["eventName" := VStr "replaceBattery"]}]}.

(** ** Invariants of one device *)

(** [keeps self P m]: when the device [self] satisfies [P] before [m], it is
    still there and satisfies [P] after [m], however [m] ends. *)
Definition keeps {A} (self : nat) (P : device -> Prop) (m : M A) : Prop :=
  forall w d, devices w !! self = Some d -> P d ->
    exists d', devices (snd (m w)) !! self = Some d' /\ P d'.

(** The battery level is an integer percentage. *)
Definition battery_in_range (d : device) : Prop :=
  exists v, properties d !! "battery" = Some (VInt v) /\ 0 <= v <= 100.

(** The identifier is fixed and the map carries it under [$id]. *)
Definition identified_as (id : value) (d : device) : Prop :=
  device_id d = id /\ properties d !! "$id" = Some id.

(** ** The hourly tick and the comms tick

    These two methods can raise exceptions that the methods above never do
    ([ValueError] from [float], [ZeroDivisionError] from a division); they run
    in the same monad with a larger type of exceptions. *)

Inductive exn2 : Type :=
| Exn (e : exn)
| ValueError
| ZeroDivisionError.

Inductive outcome (A : Type) : Type :=
| Done (a : A)
| Failed (e : exn2).
Arguments Done {A} a.
Arguments Failed {A} e.

Definition M2 (A : Type) : Type := world -> outcome A * world.

Definition done {A} (a : A) : M2 A := fun w => (Done a, w).
Definition fail {A} (e : exn2) : M2 A := fun w => (Failed e, w).
Definition bind2 {A B} (m : M2 A) (k : A -> M2 B) : M2 B :=
  fun w => match m w with
           | (Done a, w') => k a w'
           | (Failed e, w') => (Failed e, w')
           end.

(** A method of the smaller monad, run in the larger one. *)
Definition lift {A} (m : M A) : M2 A :=
  fun w => match m w with
           | (Ok a, w') => (Done a, w')
           | (Raise e, w') => (Failed (Exn e), w')
           end.

Notation "'do2' x <- m ; k" := (bind2 m (fun x => k))
  (at level 10, x name, m at level 100, k at level 200).

(** [float(v)].  The parameter [parse] stands for the reading of a string as
    a number, [None] when Python raises [ValueError]. *)
Definition float_of (parse : string -> option Q) (v : value) : outcome Q :=
  match v with
  | VInt z => Done (inject_Z z)
  | VFloat q => Done q
  | VStr s => match parse s with
              | Some q => Done q
              | None => Failed ValueError
              end
  | VNone => Failed (Exn TypeError)
  end.

Definition py_float (parse : string -> option Q) (v : value) : M2 Q :=
  fun w => (float_of parse v, w).

(** [tickHourly].  The parameter [sunBright] stands for [solar.sunBright] of
    the module [solar], which is not in the source; [sim] is a name that
    neither the method nor the module binds. *)
Definition tickHourly (sunBright : Q -> Q * Q -> value) (parse : string -> option Q)
    (self : nat) : M2 unit :=
  do2 go <- lift (powered self);
  if go then
    do2 t <- lift get_now;
    do2 t' <- lift get_now;
    do2 lon <- lift (getProperty self "longitude");
    do2 longitude <- py_float parse lon;
    do2 lat <- lift (getProperty self "latitude");
    do2 latitude <- py_float parse lat;
    do2 _ <- lift (setProperty self t "light" (sunBright t' (longitude, latitude)));
    do2 _ <- lift (unbound_name "sim");          (* sim.hours(1) *)
    lift (register_event_in (inject_Z (1 * 60 * 60)) TickHourly self)
  else done tt.

(** The two forms of [commsReliability]: a number, or the specification of a
    trajectory to interpolate. *)
Inductive reliability : Type :=
| Fraction (p : Q)
| Trajectory (spec : string).

(** [rssi - GOOD_RSSI] and what follows need a number. *)
Definition py_number (v : value) : M2 Q :=
  match py_num v with
  | Some q => done q
  | None => fail (Exn TypeError)
  end.

(** [1.0 / self.commsUpDownPeriod] *)
Definition py_inverse (q : Q) : M2 Q :=
  if Qeq_bool q 0 then fail ZeroDivisionError else done (/ q)%Q.

(** [tickCommsUpDown].  The attribute [commsReliability], which the record
    [device] does not carry, is an argument.  [uniform] and [exponential] are
    the values drawn by [random.random()] and [random.expovariate(...)];
    [interp] stands for [timewave.interp] and [start_time] for
    [engine.get_start_time()], neither of which is in the source. *)
Definition tickCommsUpDown (interp : string -> Q -> Q) (start_time : Q)
    (commsReliability : reliability) (uniform exponential : Q) (self : nat) : M2 unit :=
  do2 _ <-
    (match commsReliability with
     | Fraction p =>
         lift (setCommsOK self (negb (Qle_bool p uniform)))
     | Trajectory spec =>
         do2 t <- lift get_now;
         let relTime := (t - start_time)%Q in
         let prob := interp spec relTime in
         do2 hasRssi <- lift (propertyExists self "rssi");
         do2 prob <-
           (if hasRssi then
              do2 rssi <- lift (getProperty self "rssi");
              do2 r <- py_number rssi;
              done (prob * radioGoodness r)%Q
            else done prob);
         lift (setCommsOK self (negb (Qle_bool prob uniform)))
     end);
  do2 d <- lift (get_self self);
  do2 rate <- py_inverse (commsUpDownPeriod d);
  let deltaTime := exponential in
  let deltaTime := Qmin deltaTime (commsUpDownPeriod d * 100)%Q in
  lift (register_event_in deltaTime TickCommsUpDown self).

(** An event without an [eventName], for the device of the examples. *)
Definition nameless_event : gmap string (gmap string value) :=
  {["body" := {["deviceId" := VStr "dev1"]}]}.
(** * Properties *)

(** ** Running the methods

    Equations for the methods on a world in which [self] is a live object. *)

Lemma bind_run {A B} (m : M A) (k : A -> M B) w a w1 :
  m w = (Ok a, w1) -> bind m k w = k a w1.
Proof. intros H. unfold bind. rewrite H. reflexivity. Qed.

Lemma bind_raise {A B} (m : M A) (k : A -> M B) w e w1 :
  m w = (Raise e, w1) -> bind m k w = (Raise e, w1).
Proof. intros H. unfold bind. rewrite H. reflexivity. Qed.

Lemma lookup_self_insert (ds : list device) self d d' :
  ds !! self = Some d -> <[self := d']> ds !! self = Some d'.
Proof. intros H. apply list_lookup_insert_eq. eapply lookup_lt_Some; eauto. Qed.


Lemma devices_comms_out d time props w : devices (comms_out d time props w) = devices w.
Proof. unfold comms_out. destruct (commsOK d), (updateCallback w); reflexivity. Qed.

Lemma queue_comms_out d time props w : queue (comms_out d time props w) = queue w.
Proof. unfold comms_out. destruct (commsOK d), (updateCallback w); reflexivity. Qed.

Lemma now_comms_out d time props w : now (comms_out d time props w) = now w.
Proof. unfold comms_out. destruct (commsOK d), (updateCallback w); reflexivity. Qed.

Lemma doComms_run self time props w d :
  devices w !! self = Some d ->
  doComms self time props w = (Ok tt, comms_out d time props w).
Proof.
  intros H. unfold doComms, comms_out, bind, get_self. rewrite H.
  destruct (commsOK d); [|reflexivity].
  destruct (updateCallback w) eqn:E; simpl; rewrite ?E; reflexivity.
Qed.


Lemma setProperty_run self time propName v w d :
  devices w !! self = Some d ->
  setProperty self time propName v w =
    (Ok tt, comms_out d time (newProps_of d time propName v)
              (set_devices (<[self := updated d time propName v]> (devices w)) w)).
Proof.
  intros H. unfold setProperty, bind at 1. unfold get_self at 1. rewrite H.
  unfold bind, put_self.
  rewrite (doComms_run self _ _ _ (updated d time propName v)).
  - reflexivity.
  - simpl. eapply lookup_self_insert, H.
Qed.

Lemma getProperty_run self k w d :
  devices w !! self = Some d ->
  getProperty self k w =
    (match properties d !! k with Some v => Ok v | None => Raise (KeyError k) end, w).
Proof.
  intros H. unfold getProperty, bind, get_self. rewrite H.
  destruct (properties d !! k); reflexivity.
Qed.

Lemma getCommsOK_run self w d :
  devices w !! self = Some d -> getCommsOK self w = (Ok (commsOK d), w).
Proof. intros H. unfold getCommsOK, bind, get_self. rewrite H. reflexivity. Qed.

Lemma logString_run m w :
  logString m w =
    (Ok tt, set_logfile (logfile w ++ [Line m])
              (set_logging (logging w ++ [(INFO, m)]) w)).
Proof. reflexivity. Qed.


Lemma startTicks_run self w d :
  devices w !! self = Some d ->
  startTicks self w =
    (Ok tt, set_queue (queue w ++ startTicks_events d self (now w)) w).
Proof.
  intros H. unfold startTicks, propertyExists, bind, get_self, startTicks_events.
  rewrite H.
  destruct (properties d !! "battery"); simpl; rewrite ?H;
    unfold register_event_in, ret, set_queue; simpl;
    rewrite <- ?app_assoc; reflexivity.
Qed.

Lemma lookup_updated_same d t k v :
  k <> "$id" -> k <> "$ts" -> properties (updated d t k v) !! k = Some v.
Proof.
  intros H1 H2. unfold updated, newProps_of. simpl.
  apply lookup_union_Some_l.
  rewrite lookup_insert_ne by congruence. rewrite lookup_insert_ne by congruence.
  apply lookup_insert_eq.
Qed.

Lemma lookup_updated_ts d t k v : properties (updated d t k v) !! "$ts" = Some (VFloat t).
Proof.
  unfold updated, newProps_of. simpl.
  apply lookup_union_Some_l, lookup_insert_eq.
Qed.

Lemma lookup_updated_id d t k v : properties (updated d t k v) !! "$id" = Some (device_id d).
Proof.
  unfold updated, newProps_of. simpl.
  apply lookup_union_Some_l. rewrite lookup_insert_ne by done. apply lookup_insert_eq.
Qed.

(** Solves the side condition "[self] is live" after updates of the world. *)
Ltac live :=
  simpl; rewrite ?devices_comms_out; simpl;
  first [ eassumption | eapply lookup_self_insert; eassumption ].

(** [replaceBattery] on an object whose map has an [$id]: the battery is set
    to 100 at the current time, the ticks are started again, and the gates
    that follow let the call return normally. *)
Lemma replaceBattery_run self arg w d :
  devices w !! self = Some d ->
  is_Some (properties d !! "$id") ->
  exists w',
    device_externalEvent self "replaceBattery" arg w = (Ok tt, w') /\
    devices w' = <[self := updated d (now w) "battery" (VInt 100)]> (devices w) /\
    queue w' = queue w
               ++ startTicks_events (updated d (now w) "battery" (VInt 100)) self (now w).
Proof.
  intros Hd [id Hid].
  set (d1 := updated d (now w) "battery" (VInt 100)).
  assert (Hb : properties d1 !! "battery" = Some (VInt 100))
    by (apply lookup_updated_same; done).
  destruct (commsOK d1) eqn:Hok;
    (eexists; split;
     [ unfold device_externalEvent;
       (erewrite bind_run; [|rewrite (getProperty_run _ _ _ _ Hd), Hid; reflexivity]);
       (erewrite bind_run; [|apply logString_run]);
       change ("replaceBattery" =? "replaceBattery")%string with true; cbv iota;
       (erewrite bind_run;
          [|erewrite bind_run; [|reflexivity];
            erewrite bind_run; [|apply setProperty_run; exact Hd];
            apply startTicks_run; live]);
       (erewrite bind_run;
          [|erewrite getProperty_run by live; simpl now; fold d1; rewrite Hb;
            reflexivity]);
       change (py_le_zero (VInt 100)) with false; cbv iota;
       (erewrite bind_run by (apply getCommsOK_run; live));
       fold d1; rewrite Hok;
       change ("replaceBattery" =? "upgradeFirmware")%string with false;
       change ("replaceBattery" =? "factoryReset")%string with false;
       cbv iota; first [rewrite logString_run | unfold bind, ret]; reflexivity
     | simpl; rewrite ?devices_comms_out, ?queue_comms_out, ?now_comms_out;
       simpl; split; reflexivity ]).
Qed.


Lemma other_event_run self eventName arg w d :
  devices w !! self = Some d ->
  eventName <> "replaceBattery" ->
  device_externalEvent self eventName arg w =
    match properties d !! "$id" with
    | None => (Raise (KeyError "$id"), w)
    | Some id =>
        gates self eventName arg
          (set_logfile (logfile w ++ [Line (MsgProcessing eventName id)])
             (set_logging (logging w ++ [(INFO, MsgProcessing eventName id)]) w))
    end.
Proof.
  intros Hd Hne. unfold device_externalEvent.
  unfold bind at 1. rewrite (getProperty_run _ _ _ _ Hd).
  destruct (properties d !! "$id") as [id|]; [|reflexivity].
  erewrite bind_run by apply logString_run.
  apply String.eqb_neq in Hne. rewrite Hne.
  erewrite bind_run by reflexivity. reflexivity.
Qed.

(** C1. Once the battery property is at 0 (or below), [externalEvent] with an
    event other than [replaceBattery] changes no device, schedules nothing
    and sends no telemetry, and on a device whose map carries its [$id] the
    call returns after logging that the command was ignored.  With
    [replaceBattery], on any device whose map carries its [$id], whatever
    its battery level and comms flag, the call returns normally and the
    battery property is 100. *)
Theorem externalEvent_battery_gate (w : world) (self : nat) (d : device) :
  devices w !! self = Some d ->
  (forall b eventName arg,
     properties d !! "battery" = Some b -> py_le_zero b = true ->
     eventName <> "replaceBattery" ->
     let out := device_externalEvent self eventName arg w in
     devices (snd out) = devices w /\
     queue (snd out) = queue w /\
     sink (snd out) = sink w /\
     (is_Some (properties d !! "$id") ->
      fst out = Ok tt /\
      logfile (snd out) =
        logfile w ++ [Line (MsgProcessing eventName (default VNone (properties d !! "$id")));
                      Line MsgIgnoredBatteryFlat])) /\
  (is_Some (properties d !! "$id") ->
   forall arg, exists w' d',
     device_externalEvent self "replaceBattery" arg w = (Ok tt, w') /\
     devices w' !! self = Some d' /\
     properties d' !! "battery" = Some (VInt 100)).
Proof.
  intros Hd. split.
  - intros b ev arg Hb Hle Hne out. subst out.
    rewrite (other_event_run _ _ _ _ _ Hd Hne).
    destruct (properties d !! "$id") as [id|] eqn:Hid.
    + unfold gates. erewrite bind_run; cycle 1.
      { erewrite getProperty_run by live. rewrite Hb. reflexivity. }
      rewrite Hle, logString_run. simpl.
      repeat split; auto. rewrite <- app_assoc. reflexivity.
    + simpl. do 3 (split; [reflexivity|]). intros [? ?]; discriminate.
  - intros Hid arg.
    destruct (replaceBattery_run self arg w d Hd Hid) as (w' & Hrun & Hdev & _).
    exists w', (updated d (now w) "battery" (VInt 100)).
    split; [exact Hrun|]. split.
    + rewrite Hdev. eapply lookup_self_insert, Hd.
    + apply lookup_updated_same; done.
Qed.

(** C10. On a device without a [battery] property, [externalEvent] with an
    event other than [replaceBattery] raises [KeyError] and changes no
    device; when the map carries [$id] the missing key is [battery], looked
    up at the gate.  [replaceBattery] creates the property at 100 before the
    gate and returns normally. *)
Theorem externalEvent_without_battery (w : world) (self : nat) (d : device) :
  devices w !! self = Some d ->
  properties d !! "battery" = None ->
  (forall eventName arg,
     eventName <> "replaceBattery" ->
     let out := device_externalEvent self eventName arg w in
     (exists key, fst out = Raise (KeyError key)) /\
     (is_Some (properties d !! "$id") -> fst out = Raise (KeyError "battery")) /\
     devices (snd out) = devices w /\
     queue (snd out) = queue w /\
     sink (snd out) = sink w) /\
  (is_Some (properties d !! "$id") ->
   forall arg, exists w' d',
     device_externalEvent self "replaceBattery" arg w = (Ok tt, w') /\
     devices w' !! self = Some d' /\
     properties d' !! "battery" = Some (VInt 100) /\
     forall k, k <> "battery" -> k <> "$id" -> k <> "$ts" ->
               properties d' !! k = properties d !! k).
Proof.
  intros Hd Hb. split.
  - intros ev arg Hne out. subst out.
    rewrite (other_event_run _ _ _ _ _ Hd Hne).
    destruct (properties d !! "$id") as [id|] eqn:Hid.
    + unfold gates. erewrite bind_raise; cycle 1.
      { erewrite getProperty_run by live. rewrite Hb. reflexivity. }
      simpl. split; [eauto|]. repeat split; reflexivity.
    + simpl. split; [eauto|]. split; [intros [? ?]; discriminate|].
      repeat split; reflexivity.
  - intros Hid arg.
    destruct (replaceBattery_run self arg w d Hd Hid) as (w' & Hrun & Hdev & _).
    exists w', (updated d (now w) "battery" (VInt 100)).
    split; [exact Hrun|]. split; [|split].
    + rewrite Hdev. eapply lookup_self_insert, Hd.
    + apply lookup_updated_same; done.
    + intros k H1 H2 H3. unfold updated, newProps_of. simpl.
      rewrite lookup_union_r; [reflexivity|].
      rewrite !lookup_insert_ne by congruence. apply lookup_empty.
Qed.

Lemma externalEvent_battery_gate_witness :
  devices (snd (device_externalEvent 0 "upgradeFirmware" (VStr "2.0")
                  (example_world (example_device 0 true))))
    = [example_device 0 true] /\
  exists w' d',
    device_externalEvent 0 "replaceBattery" VNone
      (example_world (example_device 0 false)) = (Ok tt, w') /\
    devices w' !! 0%nat = Some d' /\
    properties d' !! "battery" = Some (VInt 100).
Proof.
  split.
  - apply (proj1 (externalEvent_battery_gate
                    (example_world (example_device 0 true)) 0
                    (example_device 0 true) eq_refl)
             (VInt 0) "upgradeFirmware" (VStr "2.0"));
      [reflexivity | reflexivity | discriminate].
  - apply (proj2 (externalEvent_battery_gate
                    (example_world (example_device 0 false)) 0
                    (example_device 0 false) eq_refl)).
    eexists. reflexivity.
Defined.

Lemma externalEvent_without_battery_witness :
  fst (device_externalEvent 0 "factoryReset" VNone (example_world mains_device))
    = Raise (KeyError "battery") /\
  exists w' d',
    device_externalEvent 0 "replaceBattery" VNone (example_world mains_device)
      = (Ok tt, w') /\
    devices w' !! 0%nat = Some d' /\
    properties d' !! "battery" = Some (VInt 100).
Proof.
  pose proof (externalEvent_without_battery (example_world mains_device) 0
                mains_device eq_refl eq_refl) as [H1 H2].
  split.
  - apply (H1 "factoryReset" VNone); [discriminate | eexists; reflexivity].
  - destruct (H2 (ex_intro _ (VStr "dev2") eq_refl) VNone) as (w' & d' & Ha & Hb & Hc & _).
    exists w', d'. auto.
Defined.

(** ** The radio factor *)

Lemma radioGoodness_eq (rssi : Q) :
  (radioGoodness rssi == 1 - ((rssi + 50) / -70) ^ 4)%Q.
Proof.
  unfold radioGoodness, GOOD_RSSI, BAD_RSSI. simpl Qpower. field.
Qed.

Lemma pow4_mono (a b : Q) : (0 <= a -> a <= b -> a ^ 4 <= b ^ 4)%Q.
Proof.
  intros Ha Hab. simpl.
  assert (H2 : (a * a <= b * b)%Q) by nra.
  assert (H0 : (0 <= a * a)%Q) by nra.
  nra.
Qed.

(** C8. The radio factor is 1 at [GOOD_RSSI], 0 at [BAD_RSSI], and between
    the two a worse (lower) reading never gives a larger factor. *)
Theorem radio_factor_endpoints_monotone :
  (radioGoodness GOOD_RSSI == 1)%Q /\
  (radioGoodness BAD_RSSI == 0)%Q /\
  forall r1 r2 : Q,
    (BAD_RSSI <= r1)%Q -> (r1 <= r2)%Q -> (r2 <= GOOD_RSSI)%Q ->
    (radioGoodness r1 <= radioGoodness r2)%Q.
Proof.
  split; [reflexivity|]. split; [reflexivity|].
  intros r1 r2 H1 H12 H2. unfold GOOD_RSSI, BAD_RSSI in *.
  rewrite !radioGoodness_eq.
  assert (H : (((r2 + 50) / -70) ^ 4 <= ((r1 + 50) / -70) ^ 4)%Q).
  { apply pow4_mono; unfold Qdiv; change (/ -70)%Q with (- (1#70))%Q; lra. }
  lra.
Qed.

Lemma radio_factor_endpoints_monotone_witness :
  (radioGoodness (-100) <= radioGoodness (-60))%Q.
Proof.
  apply (proj2 (proj2 radio_factor_endpoints_monotone));
    unfold BAD_RSSI, GOOD_RSSI; lra.
Defined.

(** ** The sampled battery life *)

Lemma clamp_two_sigma_bounds (mu sigma sample : Q) :
  (0 <= sigma)%Q ->
  (mu - 2 * sigma <= clamp_two_sigma mu sigma sample)%Q /\
  (clamp_two_sigma mu sigma sample <= mu + 2 * sigma)%Q.
Proof.
  intros Hs. unfold clamp_two_sigma. split.
  - apply Q.le_max_r.
  - apply Q.max_lub; [apply Q.le_min_r | lra].
Qed.

(** C6, as the code has it.  For a non-negative [sigma] and whatever value is
    drawn: the life of a [Battery] lies between [max(mu-2σ, 1)] and
    [max(mu+2σ, 1)], so it is at least one second, and it is at most [mu+2σ]
    when that bound is itself at least one second; the life set by
    [setBatteryLife] lies between [mu-2σ] and [mu+2σ]. *)
Theorem sample_life_bounds (mu sigma sample : Q) :
  (0 <= sigma)%Q ->
  (Qmax (mu - 2 * sigma) 1 <= Battery.sample_life mu sigma sample)%Q /\
  (Battery.sample_life mu sigma sample <= Qmax (mu + 2 * sigma) 1)%Q /\
  ((1 <= mu + 2 * sigma)%Q ->
   (Battery.sample_life mu sigma sample <= mu + 2 * sigma)%Q) /\
  (mu - 2 * sigma <= clamp_two_sigma mu sigma sample)%Q /\
  (clamp_two_sigma mu sigma sample <= mu + 2 * sigma)%Q.
Proof.
  intros Hs.
  destruct (clamp_two_sigma_bounds mu sigma sample Hs) as [Hlo Hhi].
  change (Battery.sample_life mu sigma sample)
    with (Qmax (clamp_two_sigma mu sigma sample) 1).
  repeat split; auto.
  - apply Q.max_le_compat_r. exact Hlo.
  - apply Q.max_le_compat_r. exact Hhi.
  - intros H1. apply Q.max_lub; assumption.
Qed.

Lemma sample_life_bounds_witness :
  (Battery.sample_life 300 30 400 <= 300 + 2 * 30)%Q.
Proof.
  apply (sample_life_bounds 300 30 400); lra.
Defined.

(** The claim as stated fails twice.  With [mu = sigma = 0] the life of a
    [Battery] is the floor of one second, above [mu+2σ = 0]; and the life
    set by [setBatteryLife] is 0, under every positive floor. *)
Lemma sample_life_bounds_counterexample :
  ~ (Battery.sample_life 0 0 0 <= 0 + 2 * 0)%Q /\
  (forall eps : Q, (0 < eps)%Q ->
     ~ (Qmax (0 - 2 * 0) eps <= clamp_two_sigma 0 0 0)%Q).
Proof.
  split.
  - vm_compute. intros H. apply H. reflexivity.
  - intros eps Heps H.
    assert (H' : (eps <= clamp_two_sigma 0 0 0)%Q).
    { eapply Qle_trans; [apply Q.le_max_r | exact H]. }
    assert (E : (clamp_two_sigma 0 0 0 == 0)%Q) by reflexivity.
    rewrite E in H'. lra.
Qed.

(** ** Communication of property changes *)

Lemma setProperties_run self time newProps w d :
  devices w !! self = Some d ->
  setProperties self time newProps w =
    (Ok tt, comms_out d time (forced d time newProps)
              (set_devices
                 (<[self := set_properties (forced d time newProps ∪ properties d) d]>
                    (devices w)) w)).
Proof.
  intros H. unfold setProperties, bind at 1. unfold get_self at 1. rewrite H.
  unfold bind, put_self.
  erewrite doComms_run by (simpl; eapply lookup_self_insert, H).
  reflexivity.
Qed.

Lemma comms_out_up d time props w :
  commsOK d = true ->
  logfile (comms_out d time props w) = logfile w ++ [Row time props] /\
  sink (comms_out d time props w) =
    (if updateCallback w then sink w ++ [(device_id d, time, props)] else sink w).
Proof.
  intros H. unfold comms_out. rewrite H. destruct (updateCallback w); auto.
Qed.

Lemma comms_out_down d time props w :
  commsOK d = false -> comms_out d time props w = w.
Proof. intros H. unfold comms_out. rewrite H. reflexivity. Qed.

(** C4, as the code has it.  [Battery.comms_ok] answers "down" whenever the
    battery property is at or below 0, whatever the base class answers.
    [device.doComms] looks at the [commsOK] flag alone: with the flag set the
    properties are written to the log, and sent to the callback when one is
    installed, at any battery level; with the flag clear nothing is sent. *)
Theorem comms_when_battery_flat :
  (forall (b : Battery.t) (v : value),
     Battery.properties b !! "battery" = Some v -> py_le_zero v = true ->
     Battery.comms_ok b = false) /\
  (forall (w : world) (self : nat) (d : device) (time : Q) (props : gmap string value),
     devices w !! self = Some d ->
     let out := doComms self time props w in
     fst out = Ok tt /\
     (commsOK d = true ->
      logfile (snd out) = logfile w ++ [Row time props] /\
      sink (snd out) =
        (if updateCallback w then sink w ++ [(device_id d, time, props)] else sink w)) /\
     (commsOK d = false -> snd out = w)).
Proof.
  split.
  - intros b v Hb Hle. unfold Battery.comms_ok. rewrite Hb. simpl.
    destruct v as [z|q| |]; simpl in *; try discriminate.
    + apply Z.leb_le in Hle. replace (0 <? z)%Z with false; [apply andb_false_r|].
      symmetry. apply Z.ltb_ge. exact Hle.
    + rewrite Hle. apply andb_false_r.
    + apply andb_false_r.
  - intros w self d time props Hd out. subst out.
    rewrite (doComms_run _ _ _ _ _ Hd). simpl. split; [reflexivity|]. split.
    + apply comms_out_up.
    + apply comms_out_down.
Qed.

Lemma comms_when_battery_flat_witness :
  Battery.comms_ok (example_battery 0 true) = false /\
  snd (doComms 0 5 ∅ (example_world (example_device 0 false)))
    = example_world (example_device 0 false).
Proof.
  split.
  - apply (proj1 comms_when_battery_flat (example_battery 0 true) (VInt 0));
      reflexivity.
  - apply (proj2 comms_when_battery_flat (example_world (example_device 0 false))
             0%nat (example_device 0 false) 5%Q ∅ eq_refl).
    reflexivity.
Defined.

(** The claim as stated fails on [device.doComms]: a device whose battery is
    at 0 and whose [commsOK] flag is set still communicates. *)
Lemma comms_when_battery_flat_counterexample :
  properties (example_device 0 true) !! "battery" = Some (VInt 0) /\
  sink (snd (doComms 0 5 {["light" := VInt 3]} (example_world (example_device 0 true))))
    = [(VStr "dev1", 5%Q, {["light" := VInt 3]})] /\
  sink (snd (setProperty 0 5 "light" (VInt 3) (example_world (example_device 0 true))))
    <> [].
Proof.
  split; [reflexivity|]. split; [reflexivity|]. discriminate.
Qed.

Lemma lookup_forced_union d time (newProps old : gmap string value) k v :
  k <> "$id" -> k <> "$ts" -> newProps !! k = Some v ->
  (forced d time newProps ∪ old) !! k = Some v.
Proof.
  intros H1 H2 Hk. apply lookup_union_Some_l. unfold forced.
  rewrite !lookup_insert_ne by congruence. exact Hk.
Qed.

(** C7, as the code has it.  [setProperty] and [setProperties] at time [t]
    return normally, merge the new properties into the map, set [$ts] to [t]
    and [$id] to the identifier of the device.  What was changed is written
    to the structured log exactly when [commsOK] is set, and sent to the
    callback exactly when [commsOK] is set and a callback is installed; with
    [commsOK] clear nothing leaves the device. *)
Theorem setProperty_stamps_and_propagates (w : world) (self : nat) (d : device)
    (t : Q) :
  devices w !! self = Some d ->
  (forall propName v,
     let out := setProperty self t propName v w in
     let sent := newProps_of d t propName v in
     fst out = Ok tt /\
     (exists d', devices (snd out) !! self = Some d' /\
                 device_id d' = device_id d /\
                 properties d' !! "$ts" = Some (VFloat t) /\
                 properties d' !! "$id" = Some (device_id d) /\
                 (propName <> "$id" -> propName <> "$ts" ->
                  properties d' !! propName = Some v)) /\
     (commsOK d = true ->
      logfile (snd out) = logfile w ++ [Row t sent] /\
      sink (snd out) =
        (if updateCallback w then sink w ++ [(device_id d, t, sent)] else sink w)) /\
     (commsOK d = false -> logfile (snd out) = logfile w /\ sink (snd out) = sink w)) /\
  (forall newProps,
     let out := setProperties self t newProps w in
     let sent := forced d t newProps in
     fst out = Ok tt /\
     (exists d', devices (snd out) !! self = Some d' /\
                 device_id d' = device_id d /\
                 properties d' !! "$ts" = Some (VFloat t) /\
                 properties d' !! "$id" = Some (device_id d) /\
                 (forall k v, k <> "$id" -> k <> "$ts" -> newProps !! k = Some v ->
                              properties d' !! k = Some v)) /\
     (commsOK d = true ->
      logfile (snd out) = logfile w ++ [Row t sent] /\
      sink (snd out) =
        (if updateCallback w then sink w ++ [(device_id d, t, sent)] else sink w)) /\
     (commsOK d = false -> logfile (snd out) = logfile w /\ sink (snd out) = sink w)).
Proof.
  intros Hd. split.
  - intros propName v out sent. subst out sent.
    rewrite (setProperty_run _ _ _ _ _ _ Hd).
    cbn [fst snd]. split; [reflexivity|]. split; [|split].
    + exists (updated d t propName v). rewrite devices_comms_out. simpl devices.
      split; [eapply lookup_self_insert, Hd|]. split; [reflexivity|].
      split; [apply lookup_updated_ts|]. split; [apply lookup_updated_id|].
      apply lookup_updated_same.
    + intros Hok. unfold comms_out. rewrite Hok. simpl.
      destruct (updateCallback w); split; reflexivity.
    + intros Hok. rewrite (comms_out_down _ _ _ _ Hok). split; reflexivity.
  - intros newProps out sent. subst out sent.
    rewrite (setProperties_run _ _ _ _ _ Hd).
    cbn [fst snd]. split; [reflexivity|]. split; [|split].
    + eexists. rewrite devices_comms_out. simpl devices.
      split; [eapply lookup_self_insert, Hd|]. split; [reflexivity|]. simpl.
      split; [apply lookup_union_Some_l, lookup_insert_eq|].
      split.
      * apply lookup_union_Some_l. unfold forced.
        rewrite lookup_insert_ne by done. apply lookup_insert_eq.
      * intros k v. apply lookup_forced_union.
    + intros Hok. unfold comms_out. rewrite Hok. simpl.
      destruct (updateCallback w); split; reflexivity.
    + intros Hok. rewrite (comms_out_down _ _ _ _ Hok). split; reflexivity.
Qed.

Lemma setProperty_stamps_and_propagates_witness :
  logfile (snd (setProperty 0 7 "firmware" (VStr "2.0")
                  (example_world (example_device 50 true))))
    = [Row 7 (newProps_of (example_device 50 true) 7 "firmware" (VStr "2.0"))].
Proof.
  apply (proj1 (setProperty_stamps_and_propagates
                  (example_world (example_device 50 true)) 0
                  (example_device 50 true) 7%Q eq_refl)
           "firmware" (VStr "2.0")).
  reflexivity.
Defined.

(** The claim as stated fails when comms are down: the map is stamped, and
    neither the callback nor the log receives the change. *)
Lemma setProperty_stamps_and_propagates_counterexample :
  let w := example_world (example_device 50 false) in
  let w' := snd (setProperty 0 7 "firmware" (VStr "2.0") w) in
  (exists d', devices w' !! 0%nat = Some d' /\
              properties d' !! "firmware" = Some (VStr "2.0") /\
              properties d' !! "$ts" = Some (VFloat 7)) /\
  sink w' = [] /\ logfile w' = [].
Proof.
  split; [|split; reflexivity].
  eexists. split; [reflexivity|]. split; reflexivity.
Qed.

(** ** The registry *)

Lemma find_by_property_Some prop v ds :
  forall i k d x,
    ds !! i = Some d -> properties d !! prop = Some x -> py_eq x v = true ->
    is_Some (find_by_property prop v ds k).
Proof.
  induction ds as [|d0 ds IH]; intros i k d x Hi Hx Heq; [discriminate|].
  simpl. destruct i as [|i]; simpl in Hi.
  - inversion Hi; subst. rewrite Hx, Heq. eauto.
  - destruct (properties d0 !! prop) as [y|]; [destruct (py_eq y v); eauto|]; eauto.
Qed.

(** C5, what the code does.  The constructor looks for a duplicate among the
    [$id] properties of the registered devices.  When one of them carries
    the identifier given to the constructor, construction logs the fatal
    error and exits with status -1; the list of devices is left as it was,
    so every lookup by property answers as before.  The constructor itself
    never writes [$id], though, so the check misses a device that has not
    been through [setProperty] or [setProperties] yet, as the example after
    this theorem shows. *)
Theorem duplicate_id_is_fatal (w : world) (id : value) (time : Q)
    (props : gmap string value) (autoTick : bool) (i : nat) (d : device) (x : value) :
  devices w !! i = Some d ->
  properties d !! "$id" = Some x ->
  py_eq x id = true ->
  let out := device_init id time props autoTick w in
  fst out = Raise (SystemExit (-1)) /\
  devices (snd out) = devices w /\
  queue (snd out) = queue w /\
  sink (snd out) = sink w /\
  logging (snd out) = logging w ++ [(ERROR, MsgFatalDuplicate id)] /\
  forall prop v,
    fst (getDeviceByProperty prop v (snd out)) = fst (getDeviceByProperty prop v w).
Proof.
  intros Hi Hx Heq out. subst out. unfold device_init.
  erewrite bind_run by reflexivity.
  destruct (find_by_property_Some "$id" id (devices w) i 0 d x Hi Hx Heq) as [j Hj].
  rewrite Hj. simpl. repeat split; reflexivity.
Qed.

Lemma duplicate_id_is_fatal_witness :
  fst (device_init (VStr "dev1") 9 ∅ true (example_world (example_device 50 true)))
    = Raise (SystemExit (-1)).
Proof.
  apply (duplicate_id_is_fatal (example_world (example_device 50 true))
           (VStr "dev1") 9%Q ∅ true 0 (example_device 50 true) (VStr "dev1")
           eq_refl eq_refl eq_refl).
Defined.

(** C5, the input on which the code misses the duplicate.  The constructor
    stores the map it is given and does not write [$id] into it, unlike
    [setProperty] and [setProperties]; a device constructed with a map that
    has no [$id] is therefore not found by the constructor's own lookup, and
    a second device with the same identifier is registered next to it. *)
Lemma duplicate_id_counterexample :
  let out1 := device_init (VStr "a") 0 ∅ true empty_world in
  let out2 := device_init (VStr "a") 0 ∅ true (snd out1) in
  fst out1 = Ok 0%nat /\
  fst out2 = Ok 1%nat /\
  map device_id (devices (snd out2)) = [VStr "a"; VStr "a"].
Proof. repeat split; reflexivity. Qed.

(** ** The dispatcher *)

Lemma externalEvent_loop_no_match body target ds :
  body !! "deviceId" = Some target ->
  Forall (fun d => exists id, properties d !! "$id" = Some id /\ py_eq id target = false) ds ->
  forall i w, externalEvent_loop body ds i w = (Ok false, w).
Proof.
  intros Hb H. induction H as [|d ds (id & Hid & Hne) _ IH]; intros i w.
  - reflexivity.
  - simpl. rewrite Hid, Hb, Hne. apply IH.
Qed.

(** C9, what the code does.  For an event whose [deviceId] matches no
    registered device the dispatcher returns normally and changes no device
    and no schedule; but building the "No such device" text reads the
    unbound name [deviceID], so that text is never logged: the handler logs
    "Error processing external event" in its place. *)
Theorem externalEvent_unknown_device (params : gmap string (gmap string value))
    (body : gmap string value) (target : value) (w : world) :
  params !! "body" = Some body ->
  body !! "deviceId" = Some target ->
  Forall (fun d => exists id, properties d !! "$id" = Some id /\ py_eq id target = false)
         (devices w) ->
  let out := externalEvent params w in
  fst out = Ok tt /\
  devices (snd out) = devices w /\
  queue (snd out) = queue w /\
  sink (snd out) = sink w /\
  logfile (snd out) = logfile w ++ [Line MsgErrorProcessing] /\
  logging (snd out) =
    logging w ++ [(INFO, MsgExternalReceived); (INFO, MsgErrorProcessing);
                  (ERROR, MsgErrorDetail (NameError "deviceID")); (ERROR, MsgTraceback)].
Proof.
  intros Hp Hb Hall out. subst out. unfold externalEvent. rewrite Hp.
  unfold try_except.
  erewrite bind_run by reflexivity.
  erewrite bind_run by reflexivity.
  erewrite bind_run by (apply (externalEvent_loop_no_match _ _ _ Hb Hall)).
  simpl. rewrite <- !app_assoc. repeat split; reflexivity.
Qed.

Lemma externalEvent_unknown_device_witness :
  logfile (snd (externalEvent ghost_event (example_world (example_device 50 true))))
    = [Line MsgErrorProcessing].
Proof.
  apply (externalEvent_unknown_device ghost_event
           (<["deviceId" := VStr "ghost"]>
              (<["eventName" := VStr "upgradeFirmware"]> {["arg" := VStr "2.0"]}))
           (VStr "ghost") (example_world (example_device 50 true))
           eq_refl eq_refl).
  constructor; [|constructor].
  exists (VStr "dev1"). split; reflexivity.
Defined.

(** ** Battery decay *)

Lemma tickBatteryDecay_down self w d v :
  devices w !! self = Some d ->
  properties d !! "battery" = Some (VInt v) ->
  0 < v ->
  exists w',
    tickBatteryDecay self w = (Ok tt, w') /\
    devices w' = <[self := updated d (now w) "battery" (VInt (v - 1))]> (devices w) /\
    queue w' = queue w ++ [mkEvent (now w + batteryLife d / 100)%Q TickBatteryDecay self] /\
    now w' = now w.
Proof.
  intros Hd Hb Hv. eexists. split.
  - unfold tickBatteryDecay.
    erewrite bind_run by (rewrite (getProperty_run _ _ _ _ Hd), Hb; reflexivity).
    replace (py_gt_zero (VInt v)) with true
      by (symmetry; apply Z.ltb_lt; exact Hv).
    erewrite bind_run by reflexivity.
    erewrite bind_run by reflexivity.
    erewrite bind_run by (apply setProperty_run; exact Hd).
    erewrite bind_run by (unfold get_self; simpl; rewrite devices_comms_out; simpl;
                          erewrite lookup_self_insert by exact Hd; reflexivity).
    reflexivity.
  - simpl. rewrite devices_comms_out, queue_comms_out, now_comms_out. simpl. auto.
Qed.

Lemma tickBatteryDecay_replace self w d v :
  devices w !! self = Some d ->
  properties d !! "battery" = Some (VInt v) ->
  v <= 0 ->
  batteryAutoreplace d = true ->
  exists w',
    tickBatteryDecay self w = (Ok tt, w') /\
    devices w' = <[self := updated d (now w) "battery" (VInt 100)]> (devices w) /\
    queue w' = queue w ++ [mkEvent (now w + batteryLife d / 100)%Q TickBatteryDecay self] /\
    now w' = now w.
Proof.
  intros Hd Hb Hv Ha. eexists. split.
  - unfold tickBatteryDecay.
    erewrite bind_run by (rewrite (getProperty_run _ _ _ _ Hd), Hb; reflexivity).
    replace (py_gt_zero (VInt v)) with false
      by (symmetry; apply Z.ltb_ge; exact Hv).
    erewrite bind_run by (unfold get_self; rewrite Hd; reflexivity).
    rewrite Ha.
    erewrite bind_run by reflexivity.
    erewrite bind_run by reflexivity.
    erewrite bind_run by (apply setProperty_run; exact Hd).
    erewrite bind_run by (unfold get_self; simpl; rewrite devices_comms_out; simpl;
                          erewrite lookup_self_insert by exact Hd; reflexivity).
    reflexivity.
  - simpl. rewrite devices_comms_out, queue_comms_out, now_comms_out. simpl. auto.
Qed.

Lemma tickBatteryDecay_stop self w d v :
  devices w !! self = Some d ->
  properties d !! "battery" = Some (VInt v) ->
  v <= 0 ->
  batteryAutoreplace d = false ->
  tickBatteryDecay self w = (Ok tt, w).
Proof.
  intros Hd Hb Hv Ha. unfold tickBatteryDecay.
  erewrite bind_run by (rewrite (getProperty_run _ _ _ _ Hd), Hb; reflexivity).
  replace (py_gt_zero (VInt v)) with false
    by (symmetry; apply Z.ltb_ge; exact Hv).
  erewrite bind_run by (unfold get_self; rewrite Hd; reflexivity).
  rewrite Ha. reflexivity.
Qed.

Lemma take_decay_filter self q e es :
  List.filter (is_decay_of self) q = e :: es ->
  exists rest, take_decay self q = Some (e, rest) /\
               List.filter (is_decay_of self) rest = es.
Proof.
  induction q as [|x q IH]; simpl; [discriminate|].
  destruct (is_decay_of self x) eqn:Hx.
  - intros H. inversion H; subst. eauto.
  - intros H. destruct (IH H) as (rest & Ht & Hf). rewrite Ht.
    exists (x :: rest). split; [reflexivity|]. simpl. rewrite Hx. exact Hf.
Qed.

Lemma take_decay_none self q :
  List.filter (is_decay_of self) q = [] -> take_decay self q = None.
Proof.
  induction q as [|x q IH]; simpl; [reflexivity|].
  destruct (is_decay_of self x); [discriminate|].
  intros H. rewrite (IH H). reflexivity.
Qed.

Lemma is_decay_of_self self t : is_decay_of self (mkEvent t TickBatteryDecay self) = true.
Proof. unfold is_decay_of. simpl. apply Nat.eqb_refl. Qed.

Lemma filter_decay_snoc self q t :
  List.filter (is_decay_of self) (q ++ [mkEvent t TickBatteryDecay self])
  = List.filter (is_decay_of self) q ++ [mkEvent t TickBatteryDecay self].
Proof. rewrite List.filter_app. simpl. rewrite is_decay_of_self. reflexivity. Qed.

Lemma fire_decay_down self L a v t w :
  decaying self L a v t w -> 0 < v ->
  exists w',
    fire_decay self w = (Ok true, w') /\
    decaying self L a (v - 1) (t + L / 100)%Q w' /\
    now w' = t.
Proof.
  intros (d & Hd & Hb & HL & Ha & Hq) Hv.
  destruct (take_decay_filter _ _ _ _ Hq) as (rest & Ht & Hrest).
  set (w0 := set_now t (set_queue rest w)).
  destruct (tickBatteryDecay_down self w0 d v Hd Hb Hv) as (w' & Hrun & Hdev & Hqueue & Hnow).
  exists w'. split; [|split].
  - unfold fire_decay. rewrite Ht. simpl ev_time. fold w0.
    erewrite bind_run by exact Hrun. reflexivity.
  - exists (updated d t "battery" (VInt (v - 1))). rewrite Hdev, Hqueue. simpl.
    split; [eapply lookup_self_insert, Hd|].
    split; [apply lookup_updated_same; done|].
    split; [exact HL|]. split; [exact Ha|].
    rewrite filter_decay_snoc, Hrest, HL. reflexivity.
  - rewrite Hnow. reflexivity.
Qed.

Lemma fire_decay_replace self L v t w :
  decaying self L true v t w -> v <= 0 ->
  exists w',
    fire_decay self w = (Ok true, w') /\
    decaying self L true 100 (t + L / 100)%Q w' /\
    now w' = t.
Proof.
  intros (d & Hd & Hb & HL & Ha & Hq) Hv.
  destruct (take_decay_filter _ _ _ _ Hq) as (rest & Ht & Hrest).
  set (w0 := set_now t (set_queue rest w)).
  destruct (tickBatteryDecay_replace self w0 d v Hd Hb Hv Ha)
    as (w' & Hrun & Hdev & Hqueue & Hnow).
  exists w'. split; [|split].
  - unfold fire_decay. rewrite Ht. simpl ev_time. fold w0.
    erewrite bind_run by exact Hrun. reflexivity.
  - exists (updated d t "battery" (VInt 100)). rewrite Hdev, Hqueue. simpl.
    split; [eapply lookup_self_insert, Hd|].
    split; [apply lookup_updated_same; done|].
    split; [exact HL|]. split; [exact Ha|].
    rewrite filter_decay_snoc, Hrest, HL. reflexivity.
  - rewrite Hnow. reflexivity.
Qed.

Lemma fire_decay_stop self L v t w :
  decaying self L false v t w -> v <= 0 ->
  exists w',
    fire_decay self w = (Ok true, w') /\
    devices w' = devices w /\
    List.filter (is_decay_of self) (queue w') = [] /\
    now w' = t.
Proof.
  intros (d & Hd & Hb & HL & Ha & Hq) Hv.
  destruct (take_decay_filter _ _ _ _ Hq) as (rest & Ht & Hrest).
  exists (set_now t (set_queue rest w)). split; [|split; [|split]].
  - unfold fire_decay. rewrite Ht. simpl ev_time.
    erewrite bind_run by (apply (tickBatteryDecay_stop _ _ d v); assumption).
    reflexivity.
  - reflexivity.
  - exact Hrest.
  - reflexivity.
Qed.

Lemma fire_decay_idle self w :
  List.filter (is_decay_of self) (queue w) = [] -> fire_decay self w = (Ok false, w).
Proof. intros H. unfold fire_decay. rewrite (take_decay_none _ _ H). reflexivity. Qed.

Lemma fire_decays_idle self n w :
  List.filter (is_decay_of self) (queue w) = [] -> fire_decays n self w = (Ok tt, w).
Proof.
  intros H. induction n as [|n IH]; [reflexivity|].
  simpl. erewrite bind_run by (apply fire_decay_idle; exact H). exact IH.
Qed.

Lemma fire_decays_S self n w w1 b :
  fire_decay self w = (Ok b, w1) ->
  fire_decays (S n) self w = fire_decays n self w1.
Proof. intros H. simpl. erewrite bind_run by exact H. reflexivity. Qed.

Lemma fire_decays_app self n m w w1 :
  fire_decays n self w = (Ok tt, w1) ->
  fire_decays (n + m) self w = fire_decays m self w1.
Proof.
  revert w. induction n as [|n IH]; intros w H.
  - inversion H. reflexivity.
  - simpl in *. unfold bind in *.
    destruct (fire_decay self w) as [[b|e] w2]; [|discriminate].
    apply IH. exact H.
Qed.

Lemma tick_time_eq t p n : (tick_time t p n == t + inject_Z (Z.of_nat n) * p)%Q.
Proof.
  induction n as [|n IH].
  - simpl. ring.
  - rewrite Nat2Z.inj_succ. unfold Z.succ. rewrite inject_Z_plus. simpl tick_time.
    rewrite IH. ring.
Qed.

(** [n] ticks of a battery that is high enough: one percent per tick. *)
Lemma fire_decays_down self L a n :
  forall v t w,
    decaying self L a v t w -> Z.of_nat n <= v ->
    exists w',
      fire_decays n self w = (Ok tt, w') /\
      decaying self L a (v - Z.of_nat n) (tick_time t (L / 100) n) w' /\
      (forall k, n = S k -> now w' = tick_time t (L / 100) k).
Proof.
  induction n as [|n IH]; intros v t w Hdec Hn.
  - exists w. split; [reflexivity|]. split; [|discriminate].
    simpl tick_time. replace (v - Z.of_nat 0) with v by lia. exact Hdec.
  - destruct (IH v t w Hdec ltac:(lia)) as (w1 & Hrun & Hdec1 & Hnow1).
    destruct (fire_decay_down _ _ _ _ _ _ Hdec1 ltac:(lia)) as (w2 & Hf & Hdec2 & Hnow2).
    exists w2. split; [|split].
    + replace (S n) with (n + 1)%nat by lia.
      rewrite (fire_decays_app _ _ _ _ _ Hrun).
      rewrite (fire_decays_S _ _ _ _ _ Hf). reflexivity.
    + simpl tick_time. replace (v - Z.of_nat (S n)) with (v - Z.of_nat n - 1) by lia.
      exact Hdec2.
    + intros k Hk. inversion Hk; subst. exact Hnow2.
Qed.

(** *** The same chain in [Battery] *)

Lemma Battery_lookup_set_property name v b :
  name <> "$id" -> name <> "$ts" ->
  Battery.properties (Battery.set_property name v b) !! name = Some v.
Proof.
  intros H1 H2. unfold Battery.set_property. simpl.
  rewrite !lookup_insert_ne by congruence. apply lookup_insert_eq.
Qed.

Lemma Battery_tick_down b v :
  Battery.properties b !! "battery" = Some (VInt v) -> 0 < v ->
  Battery.tick_battery_decay b =
    (Ok tt, Battery.register_decay (Battery.battery_life b / 100)%Q
              (Battery.set_property "battery" (VInt (v - 1)) b)).
Proof.
  intros Hb Hv. unfold Battery.tick_battery_decay, Battery.get_property. rewrite Hb.
  replace (py_gt_zero (VInt v)) with true by (symmetry; apply Z.ltb_lt; exact Hv).
  reflexivity.
Qed.

Lemma Battery_tick_replace b v s :
  Battery.properties b !! "battery" = Some (VInt v) -> v <= 0 ->
  Battery.battery_autoreplace b = true ->
  Battery.properties b !! "$id" = Some (VStr s) ->
  Battery.tick_battery_decay b =
    (Ok tt, Battery.register_decay (Battery.battery_life b / 100)%Q
              (Battery.set_property "battery" (VInt 100)
                 (Battery.logging_info MsgAutoReplacing b))).
Proof.
  intros Hb Hv Ha Hid. unfold Battery.tick_battery_decay, Battery.get_property. rewrite Hb.
  replace (py_gt_zero (VInt v)) with false by (symmetry; apply Z.ltb_ge; exact Hv).
  rewrite Ha, Hid. reflexivity.
Qed.

(** Without a readable [$id] the automatic replacement fails before it
    changes anything. *)
Lemma Battery_tick_replace_unnamed b v :
  Battery.properties b !! "battery" = Some (VInt v) -> v <= 0 ->
  Battery.battery_autoreplace b = true ->
  Battery.properties b !! "$id" = None ->
  Battery.tick_battery_decay b = (Raise (KeyError "$id"), b).
Proof.
  intros Hb Hv Ha Hid. unfold Battery.tick_battery_decay, Battery.get_property. rewrite Hb.
  replace (py_gt_zero (VInt v)) with false by (symmetry; apply Z.ltb_ge; exact Hv).
  rewrite Ha, Hid. reflexivity.
Qed.

(** Every tick keeps the identifier readable: where it writes a property,
    [set_property] stores the instance name under [$id]. *)
Lemma Battery_tick_named b :
  battery_named b -> battery_named (snd (Battery.tick_battery_decay b)).
Proof.
  intros Hn.
  assert (Hset : forall name v b0, battery_named b0 ->
            battery_named (Battery.register_decay (Battery.battery_life
                             (Battery.set_property name v b0) / 100)%Q
                             (Battery.set_property name v b0))).
  { intros name v b0 ((s & Hs) & _). split.
    - exists s. exact Hs.
    - exists s. cbn [Battery.properties Battery.register_decay Battery.set_property].
      rewrite lookup_insert_ne by done. rewrite lookup_insert_eq. rewrite Hs. reflexivity. }
  unfold Battery.tick_battery_decay.
  destruct (Battery.get_property "battery" b) as [v|e]; [|exact Hn].
  destruct (py_gt_zero v).
  - destruct (py_sub_one v) as [v'|]; [|exact Hn]. apply Hset. exact Hn.
  - destruct (Battery.battery_autoreplace b); [|exact Hn].
    destruct (Battery.properties b !! "$id") as [[z|q|s|]|]; try exact Hn.
    apply Hset. exact Hn.
Qed.

Lemma Battery_fire_named b :
  battery_named b -> battery_named (snd (Battery.fire b)).
Proof.
  intros Hn. unfold Battery.fire. destruct (Battery.pending b) as [|due rest]; [exact Hn|].
  apply Battery_tick_named. exact Hn.
Qed.

Lemma Battery_tick_stop b v :
  Battery.properties b !! "battery" = Some (VInt v) -> v <= 0 ->
  Battery.battery_autoreplace b = false ->
  Battery.tick_battery_decay b = (Ok tt, b).
Proof.
  intros Hb Hv Ha. unfold Battery.tick_battery_decay, Battery.get_property. rewrite Hb.
  replace (py_gt_zero (VInt v)) with false by (symmetry; apply Z.ltb_ge; exact Hv).
  rewrite Ha. reflexivity.
Qed.

Lemma Battery_fire_down L a v t b :
  battery_decaying L a v t b -> 0 < v ->
  exists b',
    Battery.fire b = (Ok tt, b') /\
    battery_decaying L a (v - 1) (t + L / 100)%Q b' /\
    Battery.clock b' = t.
Proof.
  intros (Hb & HL & Ha & Hp) Hv. eexists. split.
  - unfold Battery.fire. rewrite Hp. apply (Battery_tick_down _ v); [exact Hb|exact Hv].
  - unfold battery_decaying.
    cbn [Battery.properties Battery.battery_life Battery.battery_autoreplace
         Battery.pending Battery.clock Battery.register_decay Battery.set_property
         Battery.logging_info app].
    rewrite HL. split; [|reflexivity]. split; [|auto].
    rewrite !lookup_insert_ne by done. apply lookup_insert_eq.
Qed.

Lemma Battery_fire_replace L v t b :
  battery_decaying L true v t b -> v <= 0 -> battery_named b ->
  exists b',
    Battery.fire b = (Ok tt, b') /\
    battery_decaying L true 100 (t + L / 100)%Q b' /\
    Battery.clock b' = t.
Proof.
  intros (Hb & HL & Ha & Hp) Hv (_ & s & Hid). eexists. split.
  - unfold Battery.fire. rewrite Hp.
    apply (Battery_tick_replace _ v s); [exact Hb|exact Hv|exact Ha|exact Hid].
  - unfold battery_decaying.
    cbn [Battery.properties Battery.battery_life Battery.battery_autoreplace
         Battery.pending Battery.clock Battery.register_decay Battery.set_property
         Battery.logging_info app].
    rewrite HL. split; [|reflexivity]. split; [|auto].
    rewrite !lookup_insert_ne by done. apply lookup_insert_eq.
Qed.

Lemma Battery_fire_stop L v t b :
  battery_decaying L false v t b -> v <= 0 ->
  exists b',
    Battery.fire b = (Ok tt, b') /\
    Battery.properties b' = Battery.properties b /\
    Battery.pending b' = [] /\
    Battery.clock b' = t.
Proof.
  intros (Hb & HL & Ha & Hp) Hv. eexists. split.
  - unfold Battery.fire. rewrite Hp.
    apply (Battery_tick_stop _ v); [exact Hb|exact Hv|exact Ha].
  - simpl. auto.
Qed.

Lemma Battery_fires_idle n b :
  Battery.pending b = [] -> Battery.fires n b = (Ok tt, b).
Proof.
  intros H. induction n as [|n IH]; [reflexivity|].
  simpl. unfold Battery.fire. rewrite H. exact IH.
Qed.

Lemma Battery_fires_app n m b b1 :
  Battery.fires n b = (Ok tt, b1) ->
  Battery.fires (n + m) b = Battery.fires m b1.
Proof.
  revert b. induction n as [|n IH]; intros b H.
  - inversion H. reflexivity.
  - simpl in *. destruct (Battery.fire b) as [[[]|e] b2]; [|discriminate].
    apply IH. exact H.
Qed.

Lemma Battery_fires_one b b1 :
  Battery.fire b = (Ok tt, b1) -> Battery.fires 1 b = (Ok tt, b1).
Proof. intros H. simpl. rewrite H. reflexivity. Qed.

Lemma Battery_fires_down L a n :
  forall v t b,
    battery_decaying L a v t b -> Z.of_nat n <= v ->
    exists b',
      Battery.fires n b = (Ok tt, b') /\
      battery_decaying L a (v - Z.of_nat n) (tick_time t (L / 100) n) b' /\
      (forall k, n = S k -> Battery.clock b' = tick_time t (L / 100) k).
Proof.
  induction n as [|n IH]; intros v t b Hdec Hn.
  - exists b. split; [reflexivity|]. split; [|discriminate].
    simpl tick_time. replace (v - Z.of_nat 0) with v by lia. exact Hdec.
  - destruct (IH v t b Hdec ltac:(lia)) as (b1 & Hrun & Hdec1 & Hnow1).
    destruct (Battery_fire_down _ _ _ _ _ Hdec1 ltac:(lia)) as (b2 & Hf & Hdec2 & Hnow2).
    exists b2. split; [|split].
    + replace (S n) with (n + 1)%nat by lia.
      rewrite (Battery_fires_app _ _ _ _ Hrun).
      apply Battery_fires_one. exact Hf.
    + simpl tick_time. replace (v - Z.of_nat (S n)) with (v - Z.of_nat n - 1) by lia.
      exact Hdec2.
    + intros k Hk. inversion Hk; subst. exact Hnow2.
Qed.

(** A [Battery] leaves its constructor with a full battery and its first
    decay tick pending. *)
Lemma Battery_init_decaying mu sigma autoreplace sample b :
  Battery.pending b = [] ->
  battery_decaying (Battery.sample_life mu sigma sample) autoreplace 100
    (Battery.clock b + Battery.sample_life mu sigma sample / 100)%Q
    (Battery.init mu sigma autoreplace sample b).
Proof.
  intros Hp. unfold battery_decaying, Battery.init.
  cbn [Battery.properties Battery.battery_life Battery.battery_autoreplace
       Battery.pending Battery.clock Battery.register_decay].
  rewrite Hp. split; [apply lookup_insert_eq|]. repeat split; reflexivity.
Qed.

Lemma battery_of_decaying self L a v t w :
  decaying self L a v t w -> battery_of self w = Some (VInt v).
Proof. intros (d & Hd & Hb & _). unfold battery_of. rewrite Hd. exact Hb. Qed.

(** C2. Without autoreplace and starting from 100: a decay tick on a positive
    level returns, lowers the level by exactly 1 and registers exactly one
    next decay tick, [batteryLife / 100] later; after 100 ticks the level is
    exactly 0; the tick on level 0 changes nothing and registers nothing, so
    no decay tick is pending any more and the level stays at 0.  The same
    holds for [Battery.tick_battery_decay]. *)
Theorem battery_decay_to_zero :
  (forall self w d v,
     devices w !! self = Some d ->
     properties d !! "battery" = Some (VInt v) -> 0 < v ->
     let out := tickBatteryDecay self w in
     fst out = Ok tt /\
     battery_of self (snd out) = Some (VInt (v - 1)) /\
     queue (snd out)
       = queue w ++ [mkEvent (now w + batteryLife d / 100)%Q TickBatteryDecay self]) /\
  (forall self L t w,
     decaying self L false 100 t w ->
     (forall n, (n <= 100)%nat ->
        exists w', fire_decays n self w = (Ok tt, w') /\
                   decaying self L false (100 - Z.of_nat n) (tick_time t (L / 100) n) w') /\
     (forall n, (100 < n)%nat ->
        exists w', fire_decays n self w = (Ok tt, w') /\
                   battery_of self w' = Some (VInt 0) /\
                   List.filter (is_decay_of self) (queue w') = [])) /\
  (forall self w d,
     devices w !! self = Some d ->
     properties d !! "battery" = Some (VInt 0) ->
     batteryAutoreplace d = false ->
     tickBatteryDecay self w = (Ok tt, w)) /\
  (forall b v,
     Battery.properties b !! "battery" = Some (VInt v) -> 0 < v ->
     let out := Battery.tick_battery_decay b in
     fst out = Ok tt /\
     Battery.properties (snd out) !! "battery" = Some (VInt (v - 1)) /\
     Battery.pending (snd out)
       = Battery.pending b ++ [(Battery.clock b + Battery.battery_life b / 100)%Q]) /\
  (forall L t b,
     battery_decaying L false 100 t b ->
     (forall n, (n <= 100)%nat ->
        exists b', Battery.fires n b = (Ok tt, b') /\
                   battery_decaying L false (100 - Z.of_nat n) (tick_time t (L / 100) n) b') /\
     (forall n, (100 < n)%nat ->
        exists b', Battery.fires n b = (Ok tt, b') /\
                   Battery.properties b' !! "battery" = Some (VInt 0) /\
                   Battery.pending b' = [])) /\
  (forall b,
     Battery.properties b !! "battery" = Some (VInt 0) ->
     Battery.battery_autoreplace b = false ->
     Battery.tick_battery_decay b = (Ok tt, b)).
Proof.
  split; [|split; [|split; [|split; [|split]]]].
  - intros self w d v Hd Hb Hv out. subst out.
    destruct (tickBatteryDecay_down self w d v Hd Hb Hv) as (w' & Hrun & Hdev & Hq & _).
    rewrite Hrun. cbn [fst snd]. split; [reflexivity|]. split; [|exact Hq].
    unfold battery_of. rewrite Hdev. erewrite lookup_self_insert by exact Hd.
    apply lookup_updated_same; done.
  - intros self L t w Hdec. split.
    + intros n Hn.
      destruct (fire_decays_down self L false n 100 t w Hdec ltac:(lia))
        as (w' & Hrun & Hdec' & _).
      eauto.
    + intros n Hn.
      destruct (fire_decays_down self L false 100 100 t w Hdec ltac:(lia))
        as (w1 & Hrun & Hdec1 & _).
      change (100 - Z.of_nat 100) with 0 in Hdec1.
      destruct (fire_decay_stop _ _ _ _ _ Hdec1 ltac:(lia)) as (w2 & Hf & Hdev & Hq & _).
      exists w2. replace n with (100 + S (n - 101))%nat by lia.
      rewrite (fire_decays_app _ _ _ _ _ Hrun).
      rewrite (fire_decays_S _ _ _ _ _ Hf).
      rewrite (fire_decays_idle _ _ _ Hq).
      split; [reflexivity|]. split; [|exact Hq].
      unfold battery_of. rewrite Hdev. exact (battery_of_decaying _ _ _ _ _ _ Hdec1).
  - intros self w d Hd Hb Ha. apply (tickBatteryDecay_stop self w d 0); auto. lia.
  - intros b v Hb Hv out. subst out. rewrite (Battery_tick_down b v Hb Hv).
    cbn [fst snd]. split; [reflexivity|]. split; [|reflexivity].
    cbn [Battery.register_decay Battery.properties].
    apply Battery_lookup_set_property; done.
  - intros L t b Hdec. split.
    + intros n Hn.
      destruct (Battery_fires_down L false n 100 t b Hdec ltac:(lia))
        as (b' & Hrun & Hdec' & _).
      eauto.
    + intros n Hn.
      destruct (Battery_fires_down L false 100 100 t b Hdec ltac:(lia))
        as (b1 & Hrun & Hdec1 & _).
      change (100 - Z.of_nat 100) with 0 in Hdec1.
      destruct (Battery_fire_stop _ _ _ _ Hdec1 ltac:(lia)) as (b2 & Hf & Hprops & Hp & _).
      exists b2. replace n with (100 + (1 + (n - 101)))%nat by lia.
      rewrite (Battery_fires_app _ _ _ _ Hrun).
      rewrite (Battery_fires_app _ _ _ _ (Battery_fires_one _ _ Hf)).
      rewrite (Battery_fires_idle _ _ Hp).
      split; [reflexivity|]. split; [|exact Hp].
      rewrite Hprops. exact (proj1 Hdec1).
  - intros b Hb Ha. apply (Battery_tick_stop b 0); auto. lia.
Qed.

Lemma decay_world_decaying :
  decaying 0 300 false 100 (0 + 300 / 100)%Q decay_world.
Proof.
  eexists. split; [reflexivity|]. repeat split; reflexivity.
Qed.

Lemma battery_decay_to_zero_witness :
  battery_of 0 (snd (tickBatteryDecay 0 (example_world (example_device 50 true))))
    = Some (VInt 49) /\
  exists w', fire_decays 100 0 decay_world = (Ok tt, w') /\
             decaying 0 300 false 0 (tick_time (0 + 300 / 100) (300 / 100) 100) w'.
Proof.
  split.
  - apply (proj1 battery_decay_to_zero 0%nat (example_world (example_device 50 true))
             (example_device 50 true) 50 eq_refl eq_refl eq_refl).
  - apply (proj1 (proj1 (proj2 battery_decay_to_zero) 0%nat 300%Q (0 + 300 / 100)%Q
                    decay_world decay_world_decaying) 100%nat).
    lia.
Defined.

(** ** Autoreplace *)

Lemma mod101_succ_lt (n : Z) :
  0 <= n -> n mod 101 < 100 -> (n + 1) mod 101 = n mod 101 + 1.
Proof. intros H0 H. Z.div_mod_to_equations. lia. Qed.

Lemma mod101_succ_wrap (n : Z) :
  0 <= n -> n mod 101 = 100 -> (n + 1) mod 101 = 0.
Proof. intros H0 H. Z.div_mod_to_equations. lia. Qed.

Lemma fire_decays_cycle self L n :
  forall t w,
    decaying self L true 100 t w ->
    exists w',
      fire_decays n self w = (Ok tt, w') /\
      decaying self L true (100 - Z.of_nat n mod 101) (tick_time t (L / 100) n) w' /\
      (forall k, n = S k -> now w' = tick_time t (L / 100) k).
Proof.
  induction n as [|n IH]; intros t w Hdec.
  - exists w. split; [reflexivity|]. split; [exact Hdec|discriminate].
  - destruct (IH t w Hdec) as (w1 & Hrun & Hdec1 & _).
    assert (Hrange : 0 <= Z.of_nat n mod 101 < 101) by (apply Z.mod_pos_bound; lia).
    replace (S n) with (n + 1)%nat by lia.
    rewrite (fire_decays_app _ _ _ _ _ Hrun).
    replace (Z.of_nat (n + 1)) with (Z.of_nat n + 1) by lia.
    destruct (Z_lt_le_dec (Z.of_nat n mod 101) 100) as [Hlt|Hge].
    + destruct (fire_decay_down _ _ _ _ _ _ Hdec1 ltac:(lia)) as (w2 & Hf & Hdec2 & Hnow2).
      exists w2. rewrite (fire_decays_S _ 0 _ _ _ Hf).
      split; [reflexivity|]. split.
      * rewrite mod101_succ_lt by lia.
        replace (n + 1)%nat with (S n) by lia. simpl tick_time.
        replace (100 - (Z.of_nat n mod 101 + 1)) with (100 - Z.of_nat n mod 101 - 1) by lia.
        exact Hdec2.
      * intros k Hk. replace k with n by lia. exact Hnow2.
    + destruct (fire_decay_replace _ _ _ _ _ Hdec1 ltac:(lia)) as (w2 & Hf & Hdec2 & Hnow2).
      exists w2. rewrite (fire_decays_S _ 0 _ _ _ Hf).
      split; [reflexivity|]. split.
      * rewrite mod101_succ_wrap by lia.
        replace (n + 1)%nat with (S n) by lia. simpl tick_time.
        exact Hdec2.
      * intros k Hk. replace k with n by lia. exact Hnow2.
Qed.

Lemma Battery_fires_cycle L n :
  forall t b,
    battery_decaying L true 100 t b -> battery_named b ->
    exists b',
      Battery.fires n b = (Ok tt, b') /\
      battery_decaying L true (100 - Z.of_nat n mod 101) (tick_time t (L / 100) n) b' /\
      battery_named b' /\
      (forall k, n = S k -> Battery.clock b' = tick_time t (L / 100) k).
Proof.
  induction n as [|n IH]; intros t b Hdec Hnamed.
  - exists b. split; [reflexivity|]. split; [exact Hdec|]. split; [exact Hnamed|discriminate].
  - destruct (IH t b Hdec Hnamed) as (b1 & Hrun & Hdec1 & Hnamed1 & _).
    assert (Hrange : 0 <= Z.of_nat n mod 101 < 101) by (apply Z.mod_pos_bound; lia).
    replace (S n) with (n + 1)%nat by lia.
    rewrite (Battery_fires_app _ _ _ _ Hrun).
    replace (Z.of_nat (n + 1)) with (Z.of_nat n + 1) by lia.
    pose proof (Battery_fire_named b1 Hnamed1) as Hnamed2.
    destruct (Z_lt_le_dec (Z.of_nat n mod 101) 100) as [Hlt|Hge].
    + destruct (Battery_fire_down _ _ _ _ _ Hdec1 ltac:(lia)) as (b2 & Hf & Hdec2 & Hnow2).
      rewrite Hf in Hnamed2.
      exists b2. rewrite (Battery_fires_one _ _ Hf).
      split; [reflexivity|]. split; [|split].
      * rewrite mod101_succ_lt by lia.
        replace (n + 1)%nat with (S n) by lia. simpl tick_time.
        replace (100 - (Z.of_nat n mod 101 + 1)) with (100 - Z.of_nat n mod 101 - 1) by lia.
        exact Hdec2.
      * exact Hnamed2.
      * intros k Hk. replace k with n by lia. exact Hnow2.
    + destruct (Battery_fire_replace _ _ _ _ Hdec1 ltac:(lia) Hnamed1)
        as (b2 & Hf & Hdec2 & Hnow2).
      rewrite Hf in Hnamed2.
      exists b2. rewrite (Battery_fires_one _ _ Hf).
      split; [reflexivity|]. split; [|split].
      * rewrite mod101_succ_wrap by lia.
        replace (n + 1)%nat with (S n) by lia. simpl tick_time.
        exact Hdec2.
      * exact Hnamed2.
      * intros k Hk. replace k with n by lia. exact Hnow2.
Qed.

Lemma tick_time_period t p n m :
  (tick_time t p (n + m) - tick_time t p n == inject_Z (Z.of_nat m) * p)%Q.
Proof.
  rewrite !tick_time_eq. rewrite Nat2Z.inj_add, inject_Z_plus. ring.
Qed.

(** C3, as the code has it.  With autoreplace and a full battery the decay
    ticks never stop, each one registered [life / 100] after the one that
    runs; after [n] ticks the level is [100 - n mod 101]: it falls from 100
    to 0 in 100 ticks, a simulated time of [life], and the tick after that
    puts it back to 100.  A full cycle from 100 back to 100 is therefore 101
    ticks long, a simulated time of [life + life / 100].  The same holds for
    [Battery.tick_battery_decay] when the message of the replacement can be
    built, that is when [self.properties["$id"]] is there and is a string,
    which every tick preserves; when [$id] is missing, the tick of an empty
    battery fails with a [KeyError] and replaces nothing. *)
Theorem autoreplace_cycle :
  (forall self L t w,
     decaying self L true 100 t w ->
     forall n, exists w',
       fire_decays n self w = (Ok tt, w') /\
       decaying self L true (100 - Z.of_nat n mod 101) (tick_time t (L / 100) n) w' /\
       (forall k, n = S k -> now w' = tick_time t (L / 100) k)) /\
  (forall L t b,
     battery_decaying L true 100 t b ->
     battery_named b ->
     forall n, exists b',
       Battery.fires n b = (Ok tt, b') /\
       battery_decaying L true (100 - Z.of_nat n mod 101) (tick_time t (L / 100) n) b' /\
       battery_named b' /\
       (forall k, n = S k -> Battery.clock b' = tick_time t (L / 100) k)) /\
  (forall b v,
     Battery.properties b !! "battery" = Some (VInt v) -> v <= 0 ->
     Battery.battery_autoreplace b = true ->
     Battery.properties b !! "$id" = None ->
     Battery.tick_battery_decay b = (Raise (KeyError "$id"), b)) /\
  (forall (t L : Q) (n : nat),
     (tick_time t (L / 100) (n + 100) - tick_time t (L / 100) n == L)%Q /\
     (tick_time t (L / 100) (n + 101) - tick_time t (L / 100) n == L + L / 100)%Q).
Proof.
  split; [|split; [|split]].
  - intros self L t w Hdec n. apply fire_decays_cycle. exact Hdec.
  - intros L t b Hdec Hnamed n. apply Battery_fires_cycle; assumption.
  - intros b v Hb Hv Ha Hid. exact (Battery_tick_replace_unnamed b v Hb Hv Ha Hid).
  - intros t L n. rewrite !tick_time_period. split.
    + change (inject_Z (Z.of_nat 100)) with 100%Q. field.
    + change (inject_Z (Z.of_nat 101)) with 101%Q. field.
Qed.

Lemma cycle_world_decaying :
  decaying 0 300 true 100 (0 + 300 / 100)%Q cycle_world.
Proof.
  eexists. split; [reflexivity|]. repeat split; reflexivity.
Qed.

Lemma named_battery_decaying :
  battery_decaying 300 true 100 (0 + 300 / 100)%Q named_battery /\
  battery_named named_battery.
Proof.
  split.
  - repeat split; reflexivity.
  - split; exists "dev3"; reflexivity.
Qed.

Lemma autoreplace_cycle_witness :
  (exists w', fire_decays 101 0 cycle_world = (Ok tt, w') /\
              battery_of 0 w' = Some (VInt 100)) /\
  (exists b', Battery.fires 101 named_battery = (Ok tt, b') /\
              Battery.properties b' !! "battery" = Some (VInt 100)) /\
  Battery.tick_battery_decay
    (Battery.mk (VStr "dev3") {["battery" := VInt 0]} 300 true true 0 [] [])
  = (Raise (KeyError "$id"),
     Battery.mk (VStr "dev3") {["battery" := VInt 0]} 300 true true 0 [] []).
Proof.
  split; [|split].
  - destruct (proj1 autoreplace_cycle 0%nat 300%Q (0 + 300 / 100)%Q cycle_world
                cycle_world_decaying 101%nat) as (w' & Hrun & Hdec & _).
    exists w'. split; [exact Hrun|].
    exact (battery_of_decaying _ _ _ _ _ _ Hdec).
  - destruct (proj1 (proj2 autoreplace_cycle) 300%Q (0 + 300 / 100)%Q named_battery
                (proj1 named_battery_decaying) (proj2 named_battery_decaying) 101%nat)
      as (b' & Hrun & Hdec & _).
    exists b'. split; [exact Hrun|]. exact (proj1 Hdec).
  - apply (proj1 (proj2 (proj2 autoreplace_cycle)) _ 0); [reflexivity|lia|reflexivity|].
    reflexivity.
Defined.

(** The claim as stated fails on the length of the cycle.  A device created at
    time 0 with a full battery and a life of 300 seconds is empty at time 300,
    after 100 ticks, and full again at time 303, after the 101st tick, and at
    no tick in between: the cycle is 303 seconds long, not 300. *)
Lemma autoreplace_cycle_counterexample :
  let after n := snd (fire_decays n 0 cycle_world) in
  battery_of 0 cycle_world = Some (VInt 100) /\
  now cycle_world = 0%Q /\
  (exists d, devices cycle_world !! 0%nat = Some d /\
             batteryLife d = 300%Q /\ batteryAutoreplace d = true) /\
  battery_of 0 (after 100%nat) = Some (VInt 0) /\
  Qred (now (after 100%nat)) = 300%Q /\
  forallb (fun k => negb (battery_is_full 0 (after k))) (seq 1 100) = true /\
  battery_of 0 (after 101%nat) = Some (VInt 100) /\
  Qred (now (after 101%nat)) = 303%Q /\
  ~ (now (after 101%nat) - now cycle_world == 300)%Q.
Proof.
  cbv zeta.
  split; [reflexivity|]. split; [reflexivity|].
  split; [eexists; split; [reflexivity|split; reflexivity]|].
  split; [vm_compute; reflexivity|]. split; [vm_compute; reflexivity|].
  split; [vm_compute; reflexivity|]. split; [vm_compute; reflexivity|].
  split; [vm_compute; reflexivity|].
  intros H. apply Qeq_bool_iff in H. vm_compute in H. discriminate.
Qed.

(** * Further properties of the code *)

(** ** Equality of values *)

Lemma py_eq_spec (a b : value) :
  py_eq a b = true <->
  match py_num a, py_num b with
  | Some x, Some y => (x == y)%Q
  | None, None => a = b
  | _, _ => False
  end.
Proof.
  destruct a as [x|x|x|], b as [y|y|y|]; simpl; try (split; [discriminate|tauto]);
    try (split; [discriminate|intros H; discriminate H]).
  - rewrite Z.eqb_eq. rewrite inject_Z_injective. tauto.
  - apply Qeq_bool_iff.
  - apply Qeq_bool_iff.
  - apply Qeq_bool_iff.
  - rewrite String.eqb_eq. split; congruence.
  - tauto.
Qed.

Lemma py_eq_refl (a : value) : py_eq a a = true.
Proof.
  apply py_eq_spec. destruct a; simpl; reflexivity.
Qed.

Lemma py_eq_sym (a b : value) : py_eq a b = true -> py_eq b a = true.
Proof.
  rewrite !py_eq_spec.
  destruct (py_num a), (py_num b); try tauto.
  - intros H. symmetry. exact H.
  - intros H. symmetry. exact H.
Qed.

Lemma py_eq_trans (a b c : value) :
  py_eq a b = true -> py_eq b c = true -> py_eq a c = true.
Proof.
  rewrite !py_eq_spec.
  destruct (py_num a), (py_num b), (py_num c); try tauto.
  - intros H1 H2. rewrite H1. exact H2.
  - intros H1 H2. congruence.
Qed.

(** ** Lookup by property *)

Lemma find_by_property_sound prop v ds :
  forall k i,
    find_by_property prop v ds k = Some i ->
    (k <= i)%nat /\
    exists d x,
      ds !! (i - k)%nat = Some d /\ properties d !! prop = Some x /\ py_eq x v = true /\
      forall j d',
        (j < i - k)%nat -> ds !! j = Some d' ->
        forall y, properties d' !! prop = Some y -> py_eq y v = false.
Proof.
  induction ds as [|d0 ds IH]; intros k i H; [discriminate|].
  simpl in H.
  assert (Hrec : find_by_property prop v ds (S k) = Some i ->
                 (forall y, properties d0 !! prop = Some y -> py_eq y v = false) ->
                 (k <= i)%nat /\
                 exists d x,
                   (d0 :: ds) !! (i - k)%nat = Some d /\ properties d !! prop = Some x /\
                   py_eq x v = true /\
                   forall j d',
                     (j < i - k)%nat -> (d0 :: ds) !! j = Some d' ->
                     forall y, properties d' !! prop = Some y -> py_eq y v = false).
  { intros Hf H0. destruct (IH _ _ Hf) as (Hle & d & x & Hd & Hx & Hxv & Hbefore).
    split; [lia|]. exists d, x.
    replace (i - k)%nat with (S (i - S k)) by lia.
    split; [exact Hd|]. split; [exact Hx|]. split; [exact Hxv|].
    intros j d' Hj Hd'. destruct j as [|j]; simpl in Hd'.
    - inversion Hd'; subst. exact H0.
    - apply (Hbefore j d'); [lia|exact Hd']. }
  destruct (properties d0 !! prop) as [x0|] eqn:Hx0.
  - destruct (py_eq x0 v) eqn:Heq.
    + inversion H; subst. split; [lia|]. exists d0, x0.
      replace (i - i)%nat with 0%nat by lia.
      split; [reflexivity|]. split; [exact Hx0|]. split; [exact Heq|].
      intros j d' Hj. lia.
    + apply Hrec; [exact H|]. intros y Hy. inversion Hy; subst. exact Heq.
  - apply Hrec; [exact H|]. intros y Hy. discriminate.
Qed.

Lemma find_by_property_None prop v ds :
  forall k,
    find_by_property prop v ds k = None ->
    forall j d y, ds !! j = Some d -> properties d !! prop = Some y -> py_eq y v = false.
Proof.
  induction ds as [|d0 ds IH]; intros k H j d y Hj Hy; [discriminate|].
  simpl in H. destruct j as [|j]; simpl in Hj.
  - inversion Hj; subst. rewrite Hy in H. destruct (py_eq y v); [discriminate|reflexivity].
  - destruct (properties d0 !! prop) as [x0|]; [destruct (py_eq x0 v); [discriminate|]|];
      eapply IH; eauto.
Qed.

(** X1. [getDeviceByProperty] never fails and changes nothing.  When it
    answers a device, that device has the property with an equal value and
    no device registered before it has; when it answers [None], no
    registered device has the property with an equal value. *)
Theorem getDeviceByProperty_first_match (prop : string) (v : value) (w : world) :
  snd (getDeviceByProperty prop v w) = w /\
  exists found,
    fst (getDeviceByProperty prop v w) = Ok found /\
    match found with
    | Some i =>
        exists d x,
          devices w !! i = Some d /\ properties d !! prop = Some x /\
          py_eq x v = true /\
          forall j d' y,
            (j < i)%nat -> devices w !! j = Some d' ->
            properties d' !! prop = Some y -> py_eq y v = false
    | None =>
        forall j d y,
          devices w !! j = Some d -> properties d !! prop = Some y -> py_eq y v = false
    end.
Proof.
  split; [reflexivity|].
  exists (find_by_property prop v (devices w) 0). split; [reflexivity|].
  destruct (find_by_property prop v (devices w) 0) as [i|] eqn:Hf.
  - destruct (find_by_property_sound _ _ _ _ _ Hf) as (_ & d & x & Hd & Hx & Hxv & Hb).
    replace (i - 0)%nat with i in * by lia.
    exists d, x. repeat split; auto. intros j d' y Hj Hd' Hy. eapply Hb; eauto.
  - intros j d y. eapply find_by_property_None; eauto.
Qed.

(** ** Construction *)

Lemma lookup_app_new (ds : list device) (d : device) :
  (ds ++ [d]) !! length ds = Some d.
Proof. rewrite lookup_app_r by lia. replace (length ds - length ds)%nat with 0%nat by lia. reflexivity. Qed.

Lemma device_init_fresh_run id time props autoTick w :
  find_by_property "$id" id (devices w) 0 = None ->
  exists w',
    device_init id time props autoTick w = (Ok (length (devices w)), w') /\
    devices w' = devices w ++ [new_device id props] /\
    logfile w' = logfile w ++ [Row time props] /\
    sink w' = (if updateCallback w then sink w ++ [(id, time, props)] else sink w) /\
    queue w' = queue w ++
      (if autoTick
       then startTicks_events (new_device id props) (length (devices w)) (now w)
       else []) /\
    now w' = now w /\
    updateCallback w' = updateCallback w.
Proof.
  intros Hf.
  set (self := length (devices w)).
  set (w1 := set_devices (devices w ++ [new_device id props]) w).
  assert (H1 : devices w1 !! self = Some (new_device id props)) by apply lookup_app_new.
  destruct autoTick; eexists; (split;
    [ unfold device_init;
      (erewrite bind_run by reflexivity); rewrite Hf;
      (erewrite bind_run by reflexivity);
      (erewrite bind_run by reflexivity);
      (erewrite bind_run
         by (apply (doComms_run _ _ _ _ (new_device id props)); exact H1));
      unfold when;
      first [ erewrite bind_run
                by (apply (startTicks_run _ _ (new_device id props));
                    rewrite devices_comms_out; exact H1)
            | erewrite bind_run by reflexivity ];
      reflexivity
    | unfold comms_out; simpl; destruct (updateCallback w) eqn:E; simpl;
      rewrite ?app_nil_r, ?E; repeat split; reflexivity ]).
Qed.

(** X2. Constructing a device whose identifier no registered device carries
    under [$id] succeeds: the object is appended to the list of devices with
    the default settings (comms up, life of 300 seconds, no autoreplace), all
    its properties are communicated at once, and with [autoTick] the ticks
    are registered: the decay tick only when there is a [battery] property,
    then the hourly tick an hour ahead and the usage tick at once.  Without
    [autoTick] nothing is registered. *)
Theorem device_init_fresh (id : value) (time : Q) (props : gmap string value)
    (autoTick : bool) (w : world) :
  fst (getDeviceByProperty "$id" id w) = Ok None ->
  let out := device_init id time props autoTick w in
  let self := length (devices w) in
  fst out = Ok self /\
  devices (snd out) = devices w ++ [new_device id props] /\
  fst (numDevices (snd out)) = Ok (S self) /\
  logfile (snd out) = logfile w ++ [Row time props] /\
  sink (snd out) = (if updateCallback w then sink w ++ [(id, time, props)] else sink w) /\
  queue (snd out) = queue w ++
    (if autoTick
     then (match props !! "battery" with
           | Some _ => [mkEvent (now w + 300 / 100)%Q TickBatteryDecay self]
           | None => []
           end) ++
          [mkEvent (now w + 3600)%Q TickHourly self;
           mkEvent (now w + 0)%Q TickProductUsage self]
     else []).
Proof.
  intros Hf out self. subst out self.
  assert (Hf' : find_by_property "$id" id (devices w) 0 = None)
    by (simpl in Hf; congruence).
  destruct (device_init_fresh_run id time props autoTick w Hf')
    as (w' & Hrun & Hdev & Hlog & Hsink & Hq & _).
  rewrite Hrun. cbn [fst snd].
  split; [reflexivity|]. split; [exact Hdev|].
  split; [unfold numDevices; simpl; rewrite Hdev, length_app; simpl; f_equal; lia|].
  split; [exact Hlog|]. split; [exact Hsink|].
  rewrite Hq. reflexivity.
Qed.

Lemma device_init_fresh_witness :
  fst (device_init (VStr "dev9") 5 {["$id" := VStr "dev9"]} true
         (example_world (example_device 50 true))) = Ok 1%nat.
Proof.
  apply (device_init_fresh (VStr "dev9") 5%Q {["$id" := VStr "dev9"]} true
           (example_world (example_device 50 true))).
  reflexivity.
Defined.

Lemma device_init_duplicate_run id time props autoTick w j :
  find_by_property "$id" id (devices w) 0 = Some j ->
  device_init id time props autoTick w =
    (Raise (SystemExit (-1)),
     set_logging (logging w ++ [(ERROR, MsgFatalDuplicate id)]) w).
Proof.
  intros Hf. unfold device_init.
  erewrite bind_run by reflexivity. rewrite Hf. reflexivity.
Qed.

Lemma lookup_snoc_inv (ds : list device) (d0 : device) i d :
  (ds ++ [d0]) !! i = Some d ->
  ds !! i = Some d \/ (i = length ds /\ d = d0).
Proof.
  intros H. apply lookup_app_Some in H. destruct H as [H|[Hle H]]; [left; exact H|].
  right. destruct (i - length ds)%nat as [|n] eqn:E; simpl in H; [|discriminate].
  inversion H. split; [lia|reflexivity].
Qed.

(** X3. As long as every device is constructed with a map that carries its
    identifier under [$id], the registry keeps two invariants across
    construction, whether it succeeds or exits: every registered device
    carries its identifier under [$id], and no two registered devices have
    equal identifiers. *)
Theorem device_init_keeps_ids_unique (id x : value) (time : Q)
    (props : gmap string value) (autoTick : bool) (w : world) :
  registry_wf w -> ids_unique w ->
  props !! "$id" = Some x -> py_eq x id = true ->
  let w' := snd (device_init id time props autoTick w) in
  registry_wf w' /\ ids_unique w'.
Proof.
  intros Hwf Huniq Hx Hxid w'. subst w'.
  destruct (find_by_property "$id" id (devices w) 0) as [j|] eqn:Hf.
  - rewrite (device_init_duplicate_run _ _ _ _ _ _ Hf). split; assumption.
  - destruct (device_init_fresh_run id time props autoTick w Hf)
      as (w' & Hrun & Hdev & _).
    rewrite Hrun. cbn [snd].
    assert (Hnew : forall i d, devices w !! i = Some d -> py_eq (device_id d) id = false).
    { intros i d Hd. destruct (Hwf i d Hd) as (y & Hy & Hyd).
      pose proof (find_by_property_None _ _ _ _ Hf i d y Hd Hy) as Hne.
      destruct (py_eq (device_id d) id) eqn:E; [|reflexivity].
      rewrite (py_eq_trans _ _ _ Hyd E) in Hne. discriminate. }
    split.
    + intros i d Hd. rewrite Hdev in Hd.
      destruct (lookup_snoc_inv _ _ _ _ Hd) as [Hold|[_ ->]].
      * exact (Hwf i d Hold).
      * exists x. split; [exact Hx|exact Hxid].
    + intros i j di dj Hi Hj Heq. rewrite Hdev in Hi, Hj.
      destruct (lookup_snoc_inv _ _ _ _ Hi) as [Hi'|[-> ->]];
        destruct (lookup_snoc_inv _ _ _ _ Hj) as [Hj'|[-> ->]].
      * exact (Huniq i j di dj Hi' Hj' Heq).
      * simpl in Heq. rewrite (Hnew i di Hi') in Heq. discriminate.
      * simpl in Heq. apply py_eq_sym in Heq.
        rewrite (Hnew j dj Hj') in Heq. discriminate.
      * reflexivity.
Qed.

Lemma example_world_wf : registry_wf (example_world (example_device 50 true)).
Proof.
  intros i d Hd. destruct i as [|i]; [|discriminate].
  inversion Hd; subst. exists (VStr "dev1"). split; reflexivity.
Qed.

Lemma example_world_unique : ids_unique (example_world (example_device 50 true)).
Proof.
  intros i j di dj Hi Hj _.
  destruct i as [|i]; [|discriminate]. destruct j as [|j]; [|discriminate]. reflexivity.
Qed.

Lemma device_init_keeps_ids_unique_witness :
  ids_unique (snd (device_init (VStr "dev9") 5 {["$id" := VStr "dev9"]} true
                     (example_world (example_device 50 true)))).
Proof.
  apply (device_init_keeps_ids_unique (VStr "dev9") (VStr "dev9") 5%Q
           {["$id" := VStr "dev9"]} true (example_world (example_device 50 true))
           example_world_wf example_world_unique); reflexivity.
Defined.

(** ** Reading back what was set *)

Lemma lookup_updated_other d t k v k' :
  k' <> k -> k' <> "$id" -> k' <> "$ts" ->
  properties (updated d t k v) !! k' = properties d !! k'.
Proof.
  intros H1 H2 H3. unfold updated, newProps_of. simpl.
  rewrite lookup_union_r; [reflexivity|].
  rewrite !lookup_insert_ne by congruence. apply lookup_empty.
Qed.

(** X4. After [setProperty(t, k, v)] on a device, [getProperty(k)] answers
    [v] and [propertyExists(k)] answers true, unless [k] is [$id] or [$ts]:
    those two always read back as the identifier of the device and [t],
    whatever value was passed for them.  Every other property of the device
    reads as before (present or missing alike), every other device is
    untouched and nothing is scheduled. *)
Theorem setProperty_then_getProperty (w : world) (self : nat) (d : device)
    (t : Q) (k : string) (v : value) :
  devices w !! self = Some d ->
  let w' := snd (setProperty self t k v w) in
  (k <> "$id" -> k <> "$ts" ->
   getProperty self k w' = (Ok v, w') /\ propertyExists self k w' = (Ok true, w')) /\
  getProperty self "$id" w' = (Ok (device_id d), w') /\
  getProperty self "$ts" w' = (Ok (VFloat t), w') /\
  (forall k', k' <> k -> k' <> "$id" -> k' <> "$ts" ->
     fst (getProperty self k' w') = fst (getProperty self k' w)) /\
  (forall j, j <> self -> devices w' !! j = devices w !! j) /\
  queue w' = queue w.
Proof.
  intros Hd w'. subst w'. rewrite (setProperty_run _ _ _ _ _ _ Hd). cbn [snd].
  set (w' := comms_out _ _ _ _).
  assert (Hd' : devices w' !! self = Some (updated d t k v)).
  { unfold w'. rewrite devices_comms_out. simpl. eapply lookup_self_insert, Hd. }
  split; [|split; [|split; [|split; [|split]]]].
  - intros H1 H2. split.
    + rewrite (getProperty_run _ _ _ _ Hd'), lookup_updated_same by assumption. reflexivity.
    + unfold propertyExists. erewrite bind_run by (unfold get_self; rewrite Hd'; reflexivity).
      rewrite lookup_updated_same by assumption. reflexivity.
  - rewrite (getProperty_run _ _ _ _ Hd'), lookup_updated_id. reflexivity.
  - rewrite (getProperty_run _ _ _ _ Hd'), lookup_updated_ts. reflexivity.
  - intros k' H1 H2 H3.
    rewrite (getProperty_run _ _ _ _ Hd'), (getProperty_run _ _ _ _ Hd).
    rewrite lookup_updated_other by assumption. reflexivity.
  - intros j Hj. unfold w'. rewrite devices_comms_out. simpl.
    apply list_lookup_insert_ne. congruence.
  - unfold w'. rewrite queue_comms_out. reflexivity.
Qed.

Lemma setProperty_then_getProperty_witness :
  getProperty 0 "$id"
    (snd (setProperty 0 7 "$id" (VStr "intruder") (example_world (example_device 50 true))))
  = (Ok (VStr "dev1"),
     snd (setProperty 0 7 "$id" (VStr "intruder") (example_world (example_device 50 true)))).
Proof.
  apply (setProperty_then_getProperty (example_world (example_device 50 true)) 0
           (example_device 50 true) 7%Q "$id" (VStr "intruder") eq_refl).
Defined.

(** ** Commands *)

Lemma gates_run self eventName arg w d b :
  devices w !! self = Some d ->
  properties d !! "battery" = Some b ->
  gates self eventName arg w =
    if py_le_zero b then logString MsgIgnoredBatteryFlat w
    else if commsOK d then
      ((if String.eqb eventName "upgradeFirmware"
        then (do t <- get_now; setProperty self t "firmware" arg)
        else ret tt) ;;
       (if String.eqb eventName "factoryReset"
        then (do t <- get_now;
              do f <- getProperty self "factoryFirmware";
              setProperty self t "firmware" f)
        else ret tt)) w
    else logString MsgIgnoredCommsDown w.
Proof.
  intros Hd Hb. unfold gates.
  erewrite bind_run by (rewrite (getProperty_run _ _ _ _ Hd), Hb; reflexivity).
  destruct (py_le_zero b); [reflexivity|].
  erewrite bind_run by (apply getCommsOK_run; exact Hd).
  destruct (commsOK d); reflexivity.
Qed.

(** X5. On a device that is functional (battery above 0, comms up) and whose
    map carries [$id]: [upgradeFirmware] sets [firmware] to the argument,
    whatever it is; [factoryReset] sets [firmware] to the [factoryFirmware]
    property, and raises [KeyError] without changing any device when that
    property is missing; any other event name except [replaceBattery] only
    logs the receipt.  None of them schedules anything. *)
Theorem externalEvent_commands (w : world) (self : nat) (d : device) (id b : value) :
  devices w !! self = Some d ->
  properties d !! "$id" = Some id ->
  properties d !! "battery" = Some b ->
  py_le_zero b = false ->
  commsOK d = true ->
  (forall arg,
     let out := device_externalEvent self "upgradeFirmware" arg w in
     fst out = Ok tt /\
     devices (snd out) = <[self := updated d (now w) "firmware" arg]> (devices w) /\
     queue (snd out) = queue w) /\
  (forall arg,
     let out := device_externalEvent self "factoryReset" arg w in
     match properties d !! "factoryFirmware" with
     | Some f =>
         fst out = Ok tt /\
         devices (snd out) = <[self := updated d (now w) "firmware" f]> (devices w)
     | None =>
         fst out = Raise (KeyError "factoryFirmware") /\
         devices (snd out) = devices w
     end /\
     queue (snd out) = queue w) /\
  (forall eventName arg,
     eventName <> "replaceBattery" -> eventName <> "upgradeFirmware" ->
     eventName <> "factoryReset" ->
     device_externalEvent self eventName arg w
       = (Ok tt, logged (MsgProcessing eventName id) w)).
Proof.
  intros Hd Hid Hb Hle Hok.
  assert (Hd' : forall ev, devices (logged (MsgProcessing ev id) w) !! self = Some d)
    by (intros; exact Hd).
  split; [|split].
  - intros arg out. subst out.
    rewrite (other_event_run _ _ _ _ _ Hd) by discriminate. rewrite Hid.
    fold (logged (MsgProcessing "upgradeFirmware" id) w).
    rewrite (gates_run _ _ _ _ _ _ (Hd' _) Hb), Hle, Hok.
    change ("upgradeFirmware" =? "upgradeFirmware")%string with true.
    change ("upgradeFirmware" =? "factoryReset")%string with false. cbv iota.
    erewrite bind_run; cycle 1.
    { erewrite bind_run by reflexivity. apply setProperty_run. apply Hd'. }
    unfold ret. cbn [fst snd].
    rewrite devices_comms_out, queue_comms_out. simpl. auto.
  - intros arg out. subst out.
    rewrite (other_event_run _ _ _ _ _ Hd) by discriminate. rewrite Hid.
    fold (logged (MsgProcessing "factoryReset" id) w).
    rewrite (gates_run _ _ _ _ _ _ (Hd' _) Hb), Hle, Hok.
    change ("factoryReset" =? "upgradeFirmware")%string with false.
    change ("factoryReset" =? "factoryReset")%string with true. cbv iota.
    erewrite bind_run by reflexivity.
    erewrite bind_run by reflexivity.
    destruct (properties d !! "factoryFirmware") as [f|] eqn:Hf.
    + erewrite bind_run
        by (rewrite (getProperty_run _ _ _ _ (Hd' _)), Hf; reflexivity).
      rewrite (setProperty_run _ _ _ _ _ _ (Hd' _)). cbn [fst snd].
      rewrite devices_comms_out, queue_comms_out. simpl. auto.
    + erewrite bind_raise
        by (rewrite (getProperty_run _ _ _ _ (Hd' _)), Hf; reflexivity).
      cbn [fst snd]. simpl. auto.
  - intros ev arg H1 H2 H3.
    rewrite (other_event_run _ _ _ _ _ Hd H1). rewrite Hid.
    fold (logged (MsgProcessing ev id) w).
    rewrite (gates_run _ _ _ _ _ _ (Hd' _) Hb), Hle, Hok.
    apply String.eqb_neq in H2, H3. rewrite H2, H3. reflexivity.
Qed.

Lemma externalEvent_commands_witness :
  devices (snd (device_externalEvent 0 "upgradeFirmware" (VStr "2.0")
                  (example_world (example_device 50 true))))
  = <[0%nat := updated (example_device 50 true) 0 "firmware" (VStr "2.0")]>
      [example_device 50 true].
Proof.
  apply (proj1 (externalEvent_commands (example_world (example_device 50 true)) 0
                  (example_device 50 true) (VStr "dev1") (VInt 50)
                  eq_refl eq_refl eq_refl eq_refl eq_refl) (VStr "2.0")).
Defined.

Lemma replaceBattery_comms_down_run self arg w d id :
  devices w !! self = Some d ->
  properties d !! "$id" = Some id ->
  commsOK d = false ->
  device_externalEvent self "replaceBattery" arg w =
    (Ok tt,
     logged MsgIgnoredCommsDown
       (set_queue
          (queue w ++ startTicks_events (updated d (now w) "battery" (VInt 100)) self (now w))
          (set_devices (<[self := updated d (now w) "battery" (VInt 100)]> (devices w))
             (logged (MsgProcessing "replaceBattery" id) w)))).
Proof.
  intros Hd Hid Hok.
  set (d1 := updated d (now w) "battery" (VInt 100)).
  assert (Hb : properties d1 !! "battery" = Some (VInt 100))
    by (apply lookup_updated_same; done).
  unfold device_externalEvent.
  erewrite bind_run by (rewrite (getProperty_run _ _ _ _ Hd), Hid; reflexivity).
  erewrite bind_run by apply logString_run.
  change ("replaceBattery" =? "replaceBattery")%string with true. cbv iota.
  erewrite bind_run; cycle 1.
  { erewrite bind_run by reflexivity.
    erewrite bind_run by (apply setProperty_run; exact Hd).
    apply startTicks_run. live. }
  erewrite bind_run; cycle 1.
  { erewrite getProperty_run by live. simpl now. fold d1. rewrite Hb. reflexivity. }
  change (py_le_zero (VInt 100)) with false. cbv iota.
  erewrite bind_run by (apply getCommsOK_run; live).
  fold d1. change (commsOK d1) with (commsOK d). rewrite Hok.
  change (negb false) with true. cbv iota.
  rewrite logString_run. simpl now. rewrite !(comms_out_down _ _ _ _ Hok).
  reflexivity.
Qed.

(** X6. With comms down on a device whose battery is above 0 and whose map
    carries [$id], every command except [replaceBattery] is ignored: the
    call returns after logging the receipt and "...ignored because comms
    down", and changes nothing else.  [replaceBattery] is carried out all
    the same (battery at 100, ticks registered again), but silently: nothing
    reaches the callback or the structured log, and the log still ends with
    "...ignored because comms down". *)
Theorem externalEvent_comms_down (w : world) (self : nat) (d : device) (id : value) :
  devices w !! self = Some d ->
  properties d !! "$id" = Some id ->
  commsOK d = false ->
  (forall b eventName arg,
     properties d !! "battery" = Some b -> py_le_zero b = false ->
     eventName <> "replaceBattery" ->
     device_externalEvent self eventName arg w
       = (Ok tt, logged MsgIgnoredCommsDown (logged (MsgProcessing eventName id) w))) /\
  (forall arg,
     let out := device_externalEvent self "replaceBattery" arg w in
     fst out = Ok tt /\
     battery_of self (snd out) = Some (VInt 100) /\
     queue (snd out) = queue w ++
       [mkEvent (now w + batteryLife d / 100)%Q TickBatteryDecay self;
        mkEvent (now w + 3600)%Q TickHourly self;
        mkEvent (now w + 0)%Q TickProductUsage self] /\
     sink (snd out) = sink w /\
     logfile (snd out) = logfile w ++ [Line (MsgProcessing "replaceBattery" id);
                                       Line MsgIgnoredCommsDown]).
Proof.
  intros Hd Hid Hok. split.
  - intros b ev arg Hb Hle Hne.
    rewrite (other_event_run _ _ _ _ _ Hd Hne), Hid.
    fold (logged (MsgProcessing ev id) w).
    erewrite gates_run by (first [exact Hd | exact Hb]).
    rewrite Hle, Hok. reflexivity.
  - intros arg out. subst out.
    rewrite (replaceBattery_comms_down_run _ _ _ _ _ Hd Hid Hok). cbn [fst snd].
    split; [reflexivity|]. split; [|split; [|split]].
    + unfold battery_of. simpl. erewrite lookup_self_insert by exact Hd.
      apply lookup_updated_same; done.
    + simpl. unfold startTicks_events.
      rewrite lookup_updated_same by done. reflexivity.
    + reflexivity.
    + simpl. rewrite <- app_assoc. reflexivity.
Qed.

Lemma externalEvent_comms_down_witness :
  battery_of 0 (snd (device_externalEvent 0 "replaceBattery" VNone
                       (example_world (example_device 50 false))))
  = Some (VInt 100) /\
  sink (snd (device_externalEvent 0 "replaceBattery" VNone
               (example_world (example_device 50 false)))) = [].
Proof.
  destruct (proj2 (externalEvent_comms_down (example_world (example_device 50 false)) 0
                     (example_device 50 false) (VStr "dev1") eq_refl eq_refl eq_refl)
              VNone) as (_ & Hb & _ & Hs & _).
  split; [exact Hb|exact Hs].
Defined.

(** ** The dispatcher never lets an exception out *)

Lemma tame_ret {A} (a : A) : tame (ret a).
Proof. intros w. split; [discriminate|reflexivity]. Qed.

Lemma tame_raise {A} (e : exn) :
  (forall c, e <> SystemExit c) -> tame (@raise A e).
Proof. intros He w. split; [|reflexivity]. intros c H. inversion H. eapply He; eauto. Qed.

Lemma tame_bind {A B} (m : M A) (k : A -> M B) :
  tame m -> (forall a, tame (k a)) -> tame (bind m k).
Proof.
  intros Hm Hk w. unfold bind. destruct (Hm w) as [Hm1 Hm2].
  destruct (m w) as [[a|e] w1]; simpl in *.
  - destruct (Hk a w1) as [Hk1 Hk2]. split; [exact Hk1|]. rewrite Hk2. exact Hm2.
  - split; [|exact Hm2]. intros c H. apply (Hm1 c). inversion H. reflexivity.
Qed.

Lemma tame_if {A} (b : bool) (m1 m2 : M A) : tame m1 -> tame m2 -> tame (if b then m1 else m2).
Proof. destruct b; auto. Qed.

Lemma tame_get_self self : tame (get_self self).
Proof.
  intros w. unfold get_self. destruct (devices w !! self); split;
    solve [discriminate | reflexivity].
Qed.

Lemma tame_put_self self d : tame (put_self self d).
Proof. intros w. split; [discriminate|]. simpl. apply length_insert. Qed.

Lemma tame_get_now : tame get_now.
Proof. intros w. split; [discriminate|reflexivity]. Qed.

Lemma tame_register_event_in delay cb ctx : tame (register_event_in delay cb ctx).
Proof. intros w. split; [discriminate|reflexivity]. Qed.

Lemma tame_logging_info m : tame (logging_info m).
Proof. intros w. split; [discriminate|reflexivity]. Qed.

Lemma tame_logging_warning m : tame (logging_warning m).
Proof. intros w. split; [discriminate|reflexivity]. Qed.

Lemma tame_logging_error m : tame (logging_error m).
Proof. intros w. split; [discriminate|reflexivity]. Qed.

Lemma tame_logEntry time props : tame (logEntry time props).
Proof. intros w. split; [discriminate|reflexivity]. Qed.

Lemma tame_logString m : tame (logString m).
Proof. intros w. split; [discriminate|reflexivity]. Qed.

Create HintDb tame.
#[local] Hint Resolve tame_ret tame_bind tame_if tame_get_self tame_put_self tame_get_now
  tame_register_event_in tame_logging_info tame_logging_warning tame_logging_error
  tame_logEntry tame_logString : tame.

Lemma tame_getProperty self k : tame (getProperty self k).
Proof.
  unfold getProperty. apply tame_bind; [auto with tame|]. intros d.
  destruct (properties d !! k); [auto with tame|]. apply tame_raise. discriminate.
Qed.

Lemma tame_propertyExists self k : tame (propertyExists self k).
Proof. unfold propertyExists. auto with tame. Qed.

Lemma tame_getCommsOK self : tame (getCommsOK self).
Proof. unfold getCommsOK. auto with tame. Qed.

Lemma tame_doComms self time props : tame (doComms self time props).
Proof.
  unfold doComms. apply tame_bind; [auto with tame|]. intros d.
  apply tame_if; [|auto with tame].
  apply tame_bind; [|auto with tame].
  apply tame_bind.
  - intros w. split; [discriminate|reflexivity].
  - intros w0. apply tame_if; [|auto with tame].
    intros w. split; [discriminate|reflexivity].
Qed.

Lemma tame_setProperty self t k v : tame (setProperty self t k v).
Proof.
  unfold setProperty. apply tame_bind; [auto with tame|]. intros d.
  apply tame_bind; [auto with tame|]. intros _. apply tame_doComms.
Qed.

Lemma tame_startTicks self : tame (startTicks self).
Proof.
  unfold startTicks. apply tame_bind; [apply tame_propertyExists|]. intros b.
  apply tame_bind; [|auto with tame]. apply tame_if; auto with tame.
Qed.

#[local] Hint Resolve tame_getProperty tame_propertyExists tame_getCommsOK tame_doComms
  tame_setProperty tame_startTicks : tame.

Lemma tame_device_externalEvent self eventName arg :
  tame (device_externalEvent self eventName arg).
Proof.
  unfold device_externalEvent.
  apply tame_bind; [auto with tame|]. intros id.
  apply tame_bind; [auto with tame|]. intros _.
  apply tame_bind; [apply tame_if; auto 6 with tame|]. intros _.
  apply tame_bind; [auto with tame|]. intros b.
  apply tame_if; [auto with tame|].
  apply tame_bind; [auto with tame|]. intros ok.
  apply tame_if; [auto with tame|].
  apply tame_bind; [apply tame_if; auto 6 with tame|]. intros _.
  apply tame_if; [|auto with tame].
  apply tame_bind; [auto with tame|]. intros t.
  apply tame_bind; auto with tame.
Qed.

Lemma tame_externalEvent_loop body ds :
  forall i, tame (externalEvent_loop body ds i).
Proof.
  induction ds as [|d ds IH]; intros i; simpl; [auto with tame|].
  destruct (properties d !! "$id") as [id|]; [|apply tame_raise; discriminate].
  destruct (body !! "deviceId") as [target|]; [|apply tame_raise; discriminate].
  destruct (py_eq id target); [|apply IH].
  destruct (body !! "eventName") as [[| |ev|]|];
    try (apply tame_raise; discriminate).
  apply tame_bind; [apply tame_device_externalEvent|auto with tame].
Qed.

(** X7. The dispatcher lets no exception out once [params] has a [body]:
    whatever the body holds and whatever the devices are, the call returns
    normally, and it adds or removes no device.  Without a [body] the lookup
    outside the [try] raises [KeyError] and the world is untouched. *)
Theorem externalEvent_catches_everything (params : gmap string (gmap string value))
    (w : world) :
  match params !! "body" with
  | Some _ =>
      fst (externalEvent params w) = Ok tt /\
      length (devices (snd (externalEvent params w))) = length (devices w)
  | None => externalEvent params w = (Raise (KeyError "body"), w)
  end.
Proof.
  unfold externalEvent. destruct (params !! "body") as [body|]; [|reflexivity].
  set (inner := bind _ _).
  assert (Hin : tame inner).
  { unfold inner. apply tame_bind; [auto with tame|]. intros _.
    apply tame_bind; [intros w0; split; [discriminate|reflexivity]|]. intros ds.
    apply tame_bind; [apply tame_externalEvent_loop|]. intros r.
    apply tame_if; [auto with tame|].
    apply tame_bind; [apply tame_raise; discriminate|]. intros _.
    apply tame_bind; [apply tame_raise; discriminate|]. intros _. auto with tame. }
  unfold try_except. destruct (Hin w) as [Hexit Hlen].
  destruct (inner w) as [[[]|e] w1]; simpl in *.
  - split; [reflexivity|exact Hlen].
  - destruct e; try (split; [reflexivity|exact Hlen]).
    exfalso. eapply Hexit. reflexivity.
Qed.

Lemma externalEvent_loop_match body target ev pre d post x :
  body !! "deviceId" = Some target ->
  body !! "eventName" = Some (VStr ev) ->
  Forall (fun d0 => exists y, properties d0 !! "$id" = Some y /\ py_eq y target = false) pre ->
  properties d !! "$id" = Some x -> py_eq x target = true ->
  forall i w,
    externalEvent_loop body (pre ++ d :: post) i w =
      (device_externalEvent (i + length pre) ev (default VNone (body !! "arg")) ;; ret true) w.
Proof.
  intros Hb Hev Hpre Hx Hxt.
  induction Hpre as [|d0 pre (y & Hy & Hne) _ IH]; intros i w.
  - simpl. rewrite Hx, Hb, Hxt, Hev. replace (i + 0)%nat with i by lia. reflexivity.
  - simpl. rewrite Hy, Hb, Hne, IH.
    replace (S i + length pre)%nat with (i + S (length pre))%nat by lia. reflexivity.
Qed.

(** X8. An event is routed to the first registered device whose [$id] equals
    its [deviceId], and to that one only: the devices, the schedule and the
    sink after the dispatcher are those left by that device's
    [externalEvent], called with the event name and the argument of the body
    ([None] when there is none).  When the method returns, the dispatcher
    adds nothing; when it raises, the dispatcher logs "Error processing
    external event" and returns normally. *)
Theorem externalEvent_routes_to_first_match
    (params : gmap string (gmap string value)) (body : gmap string value)
    (target x : value) (ev : string) (w : world) (pre post : list device) (d : device) :
  params !! "body" = Some body ->
  body !! "deviceId" = Some target ->
  body !! "eventName" = Some (VStr ev) ->
  devices w = pre ++ d :: post ->
  Forall (fun d0 => exists y, properties d0 !! "$id" = Some y /\ py_eq y target = false) pre ->
  properties d !! "$id" = Some x -> py_eq x target = true ->
  let call := device_externalEvent (length pre) ev (default VNone (body !! "arg"))
                (set_logging (logging w ++ [(INFO, MsgExternalReceived)]) w) in
  let out := externalEvent params w in
  fst out = Ok tt /\
  devices (snd out) = devices (snd call) /\
  queue (snd out) = queue (snd call) /\
  sink (snd out) = sink (snd call) /\
  (fst call = Ok tt -> snd out = snd call) /\
  (forall e, fst call = Raise e ->
     logfile (snd out) = logfile (snd call) ++ [Line MsgErrorProcessing]).
Proof.
  intros Hp Hb Hev Hdev Hpre Hx Hxt call out.
  set (w0 := set_logging (logging w ++ [(INFO, MsgExternalReceived)]) w) in call.
  assert (E : out =
              match call with
              | (Ok _, w1) => (Ok tt, w1)
              | (Raise (SystemExit c), w1) => (Raise (SystemExit c), w1)
              | (Raise e, w1) =>
                  (logString MsgErrorProcessing ;;
                   logging_error (MsgErrorDetail e) ;; logging_error MsgTraceback) w1
              end).
  { unfold out, externalEvent. rewrite Hp. unfold try_except.
    erewrite bind_run by reflexivity. fold w0.
    erewrite bind_run by reflexivity.
    change (devices w0) with (devices w). rewrite Hdev.
    unfold bind at 1.
    rewrite (externalEvent_loop_match body target ev pre d post x Hb Hev Hpre Hx Hxt).
    unfold bind at 1. change (0 + length pre)%nat with (length pre). fold call.
    destruct call as [[[]|e] w1]; [reflexivity|]. destruct e; reflexivity. }
  rewrite E. clear E.
  destruct (tame_device_externalEvent (length pre) ev (default VNone (body !! "arg")) w0)
    as [Hexit _].
  fold call in Hexit.
  destruct call as [[[]|e] w1]; cbn [fst snd] in *.
  - do 4 (split; [reflexivity|]). split; [reflexivity|]. intros e H. discriminate.
  - destruct e;
      try (cbn [fst snd]; simpl;
           do 4 (split; [reflexivity|]); split; [discriminate|reflexivity]).
    exfalso. eapply Hexit. reflexivity.
Qed.

Lemma externalEvent_routes_to_first_match_witness :
  fst (externalEvent replace_event (example_world (example_device 0 true))) = Ok tt.
Proof.
  apply (externalEvent_routes_to_first_match replace_event
           (<["deviceId" := VStr "dev1"]> {["eventName" := VStr "replaceBattery"]})
           (VStr "dev1") (VStr "dev1") "replaceBattery"
           (example_world (example_device 0 true)) [] [] (example_device 0 true));
    try reflexivity.
  constructor.
Defined.

(** ** Replacing a battery starts the ticks a second time *)

Lemma filter_decay_startTicks self d t q :
  is_Some (properties d !! "battery") ->
  List.filter (is_decay_of self) (q ++ startTicks_events d self t)
  = List.filter (is_decay_of self) q
    ++ [mkEvent (t + batteryLife d / 100)%Q TickBatteryDecay self].
Proof.
  intros [b Hb]. unfold startTicks_events. rewrite Hb.
  rewrite List.filter_app. simpl. rewrite is_decay_of_self.
  unfold is_decay_of. simpl. reflexivity.
Qed.

(** X9. [replaceBattery] registers the three ticks again without cancelling
    anything: the pending decay ticks of the device are those that were
    pending before plus one more, a period from now.  On a device whose
    decay chain is still running, two decay ticks are pending afterwards. *)
Theorem replaceBattery_registers_ticks_again (w : world) (self : nat) (d : device)
    (arg : value) :
  devices w !! self = Some d ->
  is_Some (properties d !! "$id") ->
  let w' := snd (device_externalEvent self "replaceBattery" arg w) in
  List.filter (is_decay_of self) (queue w')
    = List.filter (is_decay_of self) (queue w)
      ++ [mkEvent (now w + batteryLife d / 100)%Q TickBatteryDecay self] /\
  length (queue w') = (length (queue w) + 3)%nat /\
  (forall L a v t,
     decaying self L a v t w ->
     List.filter (is_decay_of self) (queue w')
       = [mkEvent t TickBatteryDecay self;
          mkEvent (now w + L / 100)%Q TickBatteryDecay self]).
Proof.
  intros Hd Hid w'. subst w'.
  destruct (replaceBattery_run self arg w d Hd Hid) as (w' & Hrun & Hdev & Hq).
  rewrite Hrun. cbn [snd]. rewrite Hq.
  assert (Hb : is_Some (properties (updated d (now w) "battery" (VInt 100)) !! "battery"))
    by (rewrite lookup_updated_same by done; eauto).
  split; [|split].
  - rewrite (filter_decay_startTicks _ _ _ _ Hb). reflexivity.
  - rewrite length_app. unfold startTicks_events.
    destruct Hb as [b ->]. simpl. lia.
  - intros L a v t (d0 & Hd0 & _ & HL & _ & Hf).
    rewrite (filter_decay_startTicks _ _ _ _ Hb), Hf.
    assert (d0 = d) by congruence. subst d0. simpl. rewrite HL. reflexivity.
Qed.

Lemma replaceBattery_registers_ticks_again_witness :
  length (queue (snd (device_externalEvent 0 "replaceBattery" VNone decay_world)))
  = (length (queue decay_world) + 3)%nat.
Proof.
  destruct (replaceBattery_registers_ticks_again decay_world 0
              (new_device (VStr "dev1") (<["battery" := VInt 100]> {["$id" := VStr "dev1"]}))
              VNone eq_refl) as (_ & H & _).
  - eexists. reflexivity.
  - exact H.
Defined.

(** ** Edge cases of the decay tick *)

(** X10. The decay tick on a device without a [battery] property raises
    [KeyError]; on a battery level that is a string it raises [TypeError]
    (a string compares above 0 and then cannot be decremented); a level of
    [None] counts as flat.  In the first two cases, and for [None] without
    autoreplace, the world is left exactly as it was: in particular no next
    tick is registered, so the decay chain ends there. *)
Theorem tickBatteryDecay_edge_cases (w : world) (self : nat) (d : device) :
  devices w !! self = Some d ->
  (properties d !! "battery" = None ->
   tickBatteryDecay self w = (Raise (KeyError "battery"), w)) /\
  (forall s, properties d !! "battery" = Some (VStr s) ->
   tickBatteryDecay self w = (Raise TypeError, w)) /\
  (properties d !! "battery" = Some VNone -> batteryAutoreplace d = false ->
   tickBatteryDecay self w = (Ok tt, w)) /\
  (properties d !! "battery" = Some VNone -> batteryAutoreplace d = true ->
   fst (tickBatteryDecay self w) = Ok tt /\
   battery_of self (snd (tickBatteryDecay self w)) = Some (VInt 100)).
Proof.
  intros Hd. split; [|split; [|split]].
  - intros Hb. unfold tickBatteryDecay.
    erewrite bind_raise by (rewrite (getProperty_run _ _ _ _ Hd), Hb; reflexivity).
    reflexivity.
  - intros s Hb. unfold tickBatteryDecay.
    erewrite bind_run by (rewrite (getProperty_run _ _ _ _ Hd), Hb; reflexivity).
    change (py_gt_zero (VStr s)) with true. cbv iota.
    erewrite bind_run by reflexivity.
    erewrite bind_raise by reflexivity. reflexivity.
  - intros Hb Ha. unfold tickBatteryDecay.
    erewrite bind_run by (rewrite (getProperty_run _ _ _ _ Hd), Hb; reflexivity).
    change (py_gt_zero VNone) with false. cbv iota.
    erewrite bind_run by (unfold get_self; rewrite Hd; reflexivity).
    rewrite Ha. reflexivity.
  - intros Hb Ha. unfold tickBatteryDecay.
    erewrite bind_run by (rewrite (getProperty_run _ _ _ _ Hd), Hb; reflexivity).
    change (py_gt_zero VNone) with false. cbv iota.
    erewrite bind_run by (unfold get_self; rewrite Hd; reflexivity).
    rewrite Ha.
    erewrite bind_run by reflexivity.
    erewrite bind_run by reflexivity.
    erewrite bind_run by (apply setProperty_run; exact Hd).
    erewrite bind_run by (unfold get_self; simpl; rewrite devices_comms_out; simpl;
                          erewrite lookup_self_insert by exact Hd; reflexivity).
    cbn [fst snd]. split; [reflexivity|].
    unfold battery_of. simpl. rewrite devices_comms_out. simpl.
    erewrite lookup_self_insert by exact Hd. apply lookup_updated_same; done.
Qed.

Lemma tickBatteryDecay_edge_cases_witness :
  tickBatteryDecay 0 (example_world mains_device)
  = (Raise (KeyError "battery"), example_world mains_device).
Proof.
  apply (proj1 (tickBatteryDecay_edge_cases (example_world mains_device) 0
                  mains_device eq_refl)).
  reflexivity.
Defined.

(** ** Invariants kept by the methods *)

Lemma keeps_bind {A B} self P (m : M A) (k : A -> M B) :
  keeps self P m -> (forall a, keeps self P (k a)) -> keeps self P (bind m k).
Proof.
  intros Hm Hk w d Hd HP. unfold bind.
  destruct (Hm w d Hd HP) as (d1 & Hd1 & HP1).
  destruct (m w) as [[a|e] w1]; simpl in *.
  - exact (Hk a w1 d1 Hd1 HP1).
  - eauto.
Qed.

Lemma keeps_if {A} self P (b : bool) (m1 m2 : M A) :
  keeps self P m1 -> keeps self P m2 -> keeps self P (if b then m1 else m2).
Proof. destruct b; auto. Qed.

Lemma keeps_same_devices {A} self P (m : M A) :
  (forall w, devices (snd (m w)) = devices w) -> keeps self P m.
Proof. intros H w d Hd HP. rewrite H. eauto. Qed.

Lemma keeps_ret {A} self P (a : A) : keeps self P (ret a).
Proof. apply keeps_same_devices. reflexivity. Qed.

Lemma keeps_raise {A} self P e : keeps self P (@raise A e).
Proof. apply keeps_same_devices. reflexivity. Qed.

Lemma keeps_get_now self P : keeps self P get_now.
Proof. apply keeps_same_devices. reflexivity. Qed.

Lemma keeps_logString self P m : keeps self P (logString m).
Proof. apply keeps_same_devices. reflexivity. Qed.

Lemma keeps_getProperty self P i k : keeps self P (getProperty i k).
Proof.
  apply keeps_same_devices. intros w. unfold getProperty, bind, get_self.
  destruct (devices w !! i) as [d|]; [|reflexivity].
  destruct (properties d !! k); reflexivity.
Qed.

Lemma keeps_getCommsOK self P i : keeps self P (getCommsOK i).
Proof.
  apply keeps_same_devices. intros w. unfold getCommsOK, bind, get_self.
  destruct (devices w !! i); reflexivity.
Qed.

Lemma keeps_startTicks self P i : keeps self P (startTicks i).
Proof.
  apply keeps_same_devices. intros w.
  unfold startTicks, propertyExists, bind, get_self.
  destruct (devices w !! i) as [d|]; [|reflexivity]. simpl.
  destruct (properties d !! "battery"); simpl; [|reflexivity].
  destruct (devices w !! i); reflexivity.
Qed.

Lemma keeps_setProperty self (P : device -> Prop) t k v :
  (forall d, P d -> P (updated d t k v)) -> keeps self P (setProperty self t k v).
Proof.
  intros Hstable w d Hd HP. rewrite (setProperty_run _ _ _ _ _ _ Hd). cbn [snd].
  rewrite devices_comms_out. simpl.
  exists (updated d t k v). split; [eapply lookup_self_insert, Hd|auto].
Qed.

(** Whatever holds of a device and survives setting [battery] to 100 and
    setting [firmware] survives every external event. *)
Lemma keeps_device_externalEvent self (P : device -> Prop) eventName arg :
  (forall d t, P d -> P (updated d t "battery" (VInt 100))) ->
  (forall d t x, P d -> P (updated d t "firmware" x)) ->
  keeps self P (device_externalEvent self eventName arg).
Proof.
  intros Hbat Hfw. unfold device_externalEvent.
  apply keeps_bind; [apply keeps_getProperty|]. intros id.
  apply keeps_bind; [apply keeps_logString|]. intros _.
  apply keeps_bind.
  { apply keeps_if; [|apply keeps_ret].
    apply keeps_bind; [apply keeps_get_now|]. intros t.
    apply keeps_bind; [apply keeps_setProperty; auto|]. intros _. apply keeps_startTicks. }
  intros _. apply keeps_bind; [apply keeps_getProperty|]. intros b.
  apply keeps_if; [apply keeps_logString|].
  apply keeps_bind; [apply keeps_getCommsOK|]. intros ok.
  apply keeps_if; [apply keeps_logString|].
  apply keeps_bind.
  { apply keeps_if; [|apply keeps_ret].
    apply keeps_bind; [apply keeps_get_now|]. intros t. apply keeps_setProperty; auto. }
  intros _. apply keeps_if; [|apply keeps_ret].
  apply keeps_bind; [apply keeps_get_now|]. intros t.
  apply keeps_bind; [apply keeps_getProperty|]. intros f. apply keeps_setProperty; auto.
Qed.

Lemma keeps_get_self self P i : keeps self P (get_self i).
Proof.
  apply keeps_same_devices. intros w. unfold get_self.
  destruct (devices w !! i); reflexivity.
Qed.

Lemma keeps_logging_info self P m : keeps self P (logging_info m).
Proof. apply keeps_same_devices. reflexivity. Qed.

Lemma keeps_register_event_in self P delay cb ctx :
  keeps self P (register_event_in delay cb ctx).
Proof. apply keeps_same_devices. reflexivity. Qed.

(** Whatever holds of a device and survives setting [battery] survives the
    decay tick. *)
Lemma keeps_tickBatteryDecay self (P : device -> Prop) :
  (forall d t v, P d -> P (updated d t "battery" v)) ->
  keeps self P (tickBatteryDecay self).
Proof.
  intros Hbat. unfold tickBatteryDecay.
  apply keeps_bind; [apply keeps_getProperty|]. intros b.
  apply keeps_if.
  - apply keeps_bind; [apply keeps_get_now|]. intros t.
    apply keeps_bind.
    { unfold py_pred. destruct (py_sub_one b); [apply keeps_ret|apply keeps_raise]. }
    intros v'. apply keeps_bind; [apply keeps_setProperty; auto|]. intros _.
    apply keeps_bind; [apply keeps_get_self|]. intros d0. apply keeps_register_event_in.
  - apply keeps_bind; [apply keeps_get_self|]. intros d0.
    apply keeps_if; [|apply keeps_ret].
    apply keeps_bind; [apply keeps_logging_info|]. intros _.
    apply keeps_bind; [apply keeps_get_now|]. intros t.
    apply keeps_bind; [apply keeps_setProperty; auto|]. intros _.
    apply keeps_bind; [apply keeps_get_self|]. intros d1. apply keeps_register_event_in.
Qed.

Lemma keeps_tickBatteryDecay_range self : keeps self battery_in_range (tickBatteryDecay self).
Proof.
  intros w d Hd (v & Hb & Hv).
  destruct (Z_lt_le_dec 0 v) as [Hpos|Hle].
  - destruct (tickBatteryDecay_down self w d v Hd Hb Hpos) as (w' & Hrun & Hdev & _).
    rewrite Hrun. cbn [snd]. rewrite Hdev. eexists. split; [eapply lookup_self_insert, Hd|].
    exists (v - 1). split; [apply lookup_updated_same; done|lia].
  - destruct (batteryAutoreplace d) eqn:Ha.
    + destruct (tickBatteryDecay_replace self w d v Hd Hb Hle Ha) as (w' & Hrun & Hdev & _).
      rewrite Hrun. cbn [snd]. rewrite Hdev. eexists.
      split; [eapply lookup_self_insert, Hd|].
      exists 100. split; [apply lookup_updated_same; done|lia].
    + rewrite (tickBatteryDecay_stop self w d v Hd Hb Hle Ha). cbn [snd].
      exists d. split; [exact Hd|]. exists v. auto.
Qed.

(** X11. A battery level that is an integer between 0 and 100 stays one
    under the decay tick and under every external event, whatever the event
    is and however the call ends. *)
Theorem battery_stays_in_range (w : world) (self : nat) (d : device) (v : Z) :
  devices w !! self = Some d ->
  properties d !! "battery" = Some (VInt v) ->
  0 <= v <= 100 ->
  (exists v', battery_of self (snd (tickBatteryDecay self w)) = Some (VInt v') /\
              0 <= v' <= 100) /\
  (forall eventName arg,
     exists v', battery_of self (snd (device_externalEvent self eventName arg w))
                = Some (VInt v') /\ 0 <= v' <= 100).
Proof.
  intros Hd Hb Hv.
  assert (HP : battery_in_range d) by (exists v; auto).
  split.
  - destruct (keeps_tickBatteryDecay_range self w d Hd HP) as (d' & Hd' & v' & Hb' & Hv').
    exists v'. unfold battery_of. rewrite Hd'. auto.
  - intros ev arg.
    destruct (keeps_device_externalEvent self battery_in_range ev arg) with (w := w) (d := d)
      as (d' & Hd' & v' & Hb' & Hv'); auto.
    + intros d0 t _. exists 100. split; [apply lookup_updated_same; done|lia].
    + intros d0 t x (v0 & Hb0 & Hv0). exists v0.
      rewrite lookup_updated_other by done. auto.
    + exists v'. unfold battery_of. rewrite Hd'. auto.
Qed.

Lemma battery_stays_in_range_witness :
  exists v', battery_of 0 (snd (device_externalEvent 0 "replaceBattery" VNone
                                  (example_world (example_device 0 true))))
             = Some (VInt v') /\ 0 <= v' <= 100.
Proof.
  apply (proj2 (battery_stays_in_range (example_world (example_device 0 true)) 0
                  (example_device 0 true) 0 eq_refl eq_refl ltac:(lia))).
Defined.

(** X12. The identity of a device is out of reach of the methods: under
    every external event, under the decay tick and under [setProperty] and
    [setProperties] with any key and value, [$id] included, the identifier
    of the object stays what it was and, once the map carries it under
    [$id], it keeps carrying it. *)
Theorem identity_is_kept (w : world) (self : nat) (d : device) (id : value) :
  devices w !! self = Some d ->
  device_id d = id ->
  properties d !! "$id" = Some id ->
  (forall eventName arg,
     exists d', devices (snd (device_externalEvent self eventName arg w)) !! self = Some d' /\
                identified_as id d') /\
  (exists d', devices (snd (tickBatteryDecay self w)) !! self = Some d' /\
              identified_as id d') /\
  (forall t k v,
     exists d', devices (snd (setProperty self t k v w)) !! self = Some d' /\
                identified_as id d') /\
  (forall t newProps,
     exists d', devices (snd (setProperties self t newProps w)) !! self = Some d' /\
                identified_as id d').
Proof.
  intros Hd Hid Hprop.
  assert (HP : identified_as id d) by (split; assumption).
  assert (Hstable : forall d0 t k v, identified_as id d0 -> identified_as id (updated d0 t k v)).
  { intros d0 t k v [H1 H2]. split; [exact H1|]. rewrite lookup_updated_id. congruence. }
  split; [|split; [|split]].
  - intros ev arg.
    refine (keeps_device_externalEvent self (identified_as id) ev arg _ _ w d Hd HP); auto.
  - refine (keeps_tickBatteryDecay self (identified_as id) _ w d Hd HP); auto.
  - intros t k v.
    refine (keeps_setProperty self (identified_as id) t k v _ w d Hd HP); auto.
  - intros t newProps. rewrite (setProperties_run _ _ _ _ _ Hd). cbn [snd].
    rewrite devices_comms_out. simpl. eexists.
    split; [eapply lookup_self_insert, Hd|]. split; [exact Hid|]. simpl.
    apply lookup_union_Some_l. unfold forced.
    rewrite lookup_insert_ne by done. rewrite lookup_insert_eq. congruence.
Qed.

Lemma identity_is_kept_witness :
  exists d', devices (snd (setProperty 0 7 "$id" (VStr "intruder")
                          (example_world (example_device 50 true)))) !! 0%nat = Some d' /\
             identified_as (VStr "dev1") d'.
Proof.
  apply (proj1 (proj2 (proj2 (identity_is_kept (example_world (example_device 50 true)) 0
                                (example_device 50 true) (VStr "dev1")
                                eq_refl eq_refl eq_refl)))).
Defined.

(** ** Changing the battery life *)

(** X13. [setBatteryLife] changes the life and the autoreplace flag of the
    device and nothing else: the decay tick that is already pending stays due
    at the time computed from the old life (for a fresh device, the default
    of 300 seconds); the new life takes effect from the tick after that. *)
Theorem setBatteryLife_keeps_pending_tick (self : nat) (L : Q) (a : bool) (v : Z)
    (t : Q) (w : world) (mu sigma : Q) (autoreplace : bool) (sample : Q) :
  decaying self L a v t w ->
  let L' := clamp_two_sigma mu sigma sample in
  let out := setBatteryLife self mu sigma autoreplace sample w in
  fst out = Ok tt /\
  decaying self L' autoreplace v t (snd out) /\
  queue (snd out) = queue w /\
  sink (snd out) = sink w /\
  logfile (snd out) = logfile w /\
  (0 < v ->
   exists w', fire_decay self (snd out) = (Ok true, w') /\
              decaying self L' autoreplace (v - 1) (t + L' / 100)%Q w').
Proof.
  intros (d & Hd & Hb & HL & Ha & Hq) L' out.
  assert (Hrun : out = (Ok tt,
                        set_devices
                          (<[self := mkDevice (device_id d) (properties d)
                                       (commsUpDownPeriod d) L' autoreplace (commsOK d)]>
                             (devices w)) w)).
  { unfold out, setBatteryLife. erewrite bind_run by (unfold get_self; rewrite Hd; reflexivity).
    reflexivity. }
  rewrite Hrun. cbn [fst snd].
  assert (Hdec : decaying self L' autoreplace v t
                   (set_devices
                      (<[self := mkDevice (device_id d) (properties d)
                                   (commsUpDownPeriod d) L' autoreplace (commsOK d)]>
                         (devices w)) w)).
  { eexists. split; [simpl; eapply lookup_self_insert, Hd|]. simpl. auto. }
  split; [reflexivity|]. split; [exact Hdec|]. do 3 (split; [reflexivity|]).
  intros Hv. destruct (fire_decay_down _ _ _ _ _ _ Hdec Hv) as (w' & Hf & Hdec' & _).
  eauto.
Qed.

Lemma setBatteryLife_keeps_pending_tick_witness :
  decaying 0 (clamp_two_sigma 1000 0 1000) true 100 (0 + 300 / 100)%Q
    (snd (setBatteryLife 0 1000 0 true 1000 decay_world)).
Proof.
  apply (setBatteryLife_keeps_pending_tick 0 300 false 100 (0 + 300 / 100)%Q decay_world
           1000 0 true 1000 decay_world_decaying).
Defined.

(** X14. [setBatteryLife] has no floor: with [sigma >= 0] and
    [mu + 2 sigma <= 0] the life is 0 or less, and under autoreplace the
    decay ticks then follow one another for ever without the clock ever
    passing the time of the first one. *)
Theorem nonpositive_life_never_advances (self : nat) (mu sigma sample : Q) (t : Q)
    (w : world) :
  (0 <= sigma)%Q -> (mu + 2 * sigma <= 0)%Q ->
  decaying self (clamp_two_sigma mu sigma sample) true 100 t w ->
  forall n, exists w',
    fire_decays (S n) self w = (Ok tt, w') /\
    (now w' <= t)%Q /\
    exists v t', decaying self (clamp_two_sigma mu sigma sample) true v t' w'.
Proof.
  intros Hs Hmu Hdec n.
  destruct (clamp_two_sigma_bounds mu sigma sample Hs) as [_ Hhi].
  destruct (fire_decays_cycle self _ (S n) t w Hdec) as (w' & Hrun & Hdec' & Hnow).
  exists w'. split; [exact Hrun|]. split; [|eauto].
  rewrite (Hnow n eq_refl), tick_time_eq.
  assert (H0 : (0 <= inject_Z (Z.of_nat n))%Q).
  { change 0%Q with (inject_Z 0). rewrite <- Zle_Qle. lia. }
  set (L := clamp_two_sigma mu sigma sample) in *.
  assert (HL : (L <= 0)%Q) by lra.
  assert (Hp : (inject_Z (Z.of_nat n) * (L / 100) <= 0)%Q).
  { unfold Qdiv. change (/ 100)%Q with (1 # 100)%Q. nra. }
  lra.
Qed.

Lemma zero_life_world_decaying :
  decaying 0 (clamp_two_sigma 0 0 300) true 100 (0 + 300 / 100)%Q
    (snd (setBatteryLife 0 0 0 true 300 decay_world)).
Proof. eexists. split; [reflexivity|]. repeat split; reflexivity. Qed.

Lemma nonpositive_life_never_advances_witness :
  exists w',
    fire_decays 5 0 (snd (setBatteryLife 0 0 0 true 300 decay_world)) = (Ok tt, w') /\
    (now w' <= 0 + 300 / 100)%Q.
Proof.
  destruct (nonpositive_life_never_advances 0 0 0 300 (0 + 300 / 100)%Q
              (snd (setBatteryLife 0 0 0 true 300 decay_world))
              ltac:(lra) ltac:(lra) zero_life_world_decaying 4)
    as (w' & Hrun & Hnow & _).
  exists w'. split; [exact Hrun|exact Hnow].
Defined.

(** ** The radio factor outside its range *)

(** X15. The radio factor never exceeds 1, is not negative between
    [BAD_RSSI] and [GOOD_RSSI], and is negative for a reading below
    [BAD_RSSI]. *)
Theorem radio_factor_range :
  (forall r : Q, (radioGoodness r <= 1)%Q) /\
  (forall r : Q, (BAD_RSSI <= r)%Q -> (r <= GOOD_RSSI)%Q -> (0 <= radioGoodness r)%Q) /\
  (forall r : Q, (r < BAD_RSSI)%Q -> (radioGoodness r < 0)%Q).
Proof.
  assert (Hsq : forall u : Q, (0 <= u ^ 4)%Q).
  { intros u. simpl. assert (0 <= u * u)%Q by nra. nra. }
  assert (Hmono : forall u : Q, (1 < u -> 1 < u ^ 4)%Q).
  { intros u Hu. simpl. assert (1 < u * u)%Q by nra. nra. }
  assert (Hle1 : forall u : Q, (0 <= u -> u <= 1 -> u ^ 4 <= 1)%Q).
  { intros u H0 H1. pose proof (pow4_mono u 1 H0 H1) as H. simpl in *. lra. }
  split; [|split].
  - intros r. rewrite radioGoodness_eq. pose proof (Hsq ((r + 50) / -70)%Q). lra.
  - intros r H1 H2. unfold BAD_RSSI, GOOD_RSSI in *. rewrite radioGoodness_eq.
    assert (H : (((r + 50) / -70) ^ 4 <= 1)%Q).
    { apply Hle1; unfold Qdiv; change (/ -70)%Q with (- (1#70))%Q; lra. }
    lra.
  - intros r Hr. unfold BAD_RSSI in *. rewrite radioGoodness_eq.
    assert (H : (1 < ((r + 50) / -70) ^ 4)%Q).
    { apply Hmono. unfold Qdiv. change (/ -70)%Q with (- (1#70))%Q. lra. }
    lra.
Qed.

Lemma radio_factor_range_witness : (0 <= radioGoodness (-80))%Q.
Proof.
  apply (proj1 (proj2 radio_factor_range)); unfold BAD_RSSI, GOOD_RSSI; lra.
Defined.

(** ** Comms outages *)

Lemma setCommsOK_run self flag w d :
  devices w !! self = Some d ->
  setCommsOK self flag w
    = (Ok tt, set_devices (<[self := set_commsOK flag d]> (devices w)) w).
Proof.
  intros Hd. unfold setCommsOK.
  erewrite bind_run by (unfold get_self; rewrite Hd; reflexivity). reflexivity.
Qed.

(** X16. What changes while comms are down is never sent afterwards.  After
    [setCommsOK(False)], a [setProperty] updates the map and reaches neither
    the callback nor the structured log; after [setCommsOK(True)], the next
    [setProperty] sends its own property with [$id] and [$ts] and nothing
    else, so the property set during the outage is in the map and in no
    telemetry. *)
Theorem outage_changes_are_never_sent (w : world) (self : nat) (d : device)
    (t1 t2 : Q) (k1 k2 : string) (v1 v2 : value) :
  devices w !! self = Some d ->
  updateCallback w = true ->
  k1 <> k2 -> k1 <> "$id" -> k1 <> "$ts" ->
  let w1 := snd (setCommsOK self false w) in
  let w2 := snd (setProperty self t1 k1 v1 w1) in
  let w3 := snd (setCommsOK self true w2) in
  let w4 := snd (setProperty self t2 k2 v2 w3) in
  sink w2 = sink w /\ logfile w2 = logfile w /\
  sink w4 = sink w ++ [(device_id d, t2, newProps_of d t2 k2 v2)] /\
  logfile w4 = logfile w ++ [Row t2 (newProps_of d t2 k2 v2)] /\
  newProps_of d t2 k2 v2 !! k1 = None /\
  getProperty self k1 w4 = (Ok v1, w4).
Proof.
  intros Hd Hcb Hk12 Hk1id Hk1ts w1 w2 w3 w4.
  set (d1 := set_commsOK false d).
  assert (E1 : w1 = set_devices (<[self := d1]> (devices w)) w)
    by (unfold w1; rewrite (setCommsOK_run _ _ _ _ Hd); reflexivity).
  assert (Hd1 : devices w1 !! self = Some d1)
    by (rewrite E1; simpl; eapply lookup_self_insert, Hd).
  set (d2 := updated d1 t1 k1 v1).
  assert (E2 : w2 = set_devices (<[self := d2]> (devices w1)) w1).
  { unfold w2. rewrite (setProperty_run _ _ _ _ _ _ Hd1). cbn [snd].
    apply comms_out_down. reflexivity. }
  assert (Hd2 : devices w2 !! self = Some d2)
    by (rewrite E2; simpl; eapply lookup_self_insert, Hd1).
  set (d3 := set_commsOK true d2).
  assert (E3 : w3 = set_devices (<[self := d3]> (devices w2)) w2)
    by (unfold w3; rewrite (setCommsOK_run _ _ _ _ Hd2); reflexivity).
  assert (Hd3 : devices w3 !! self = Some d3)
    by (rewrite E3; simpl; eapply lookup_self_insert, Hd2).
  assert (E4 : w4 = comms_out d3 t2 (newProps_of d3 t2 k2 v2)
                      (set_devices (<[self := updated d3 t2 k2 v2]> (devices w3)) w3))
    by (unfold w4; rewrite (setProperty_run _ _ _ _ _ _ Hd3); reflexivity).
  assert (Hd4 : devices w4 !! self = Some (updated d3 t2 k2 v2)).
  { rewrite E4, devices_comms_out. simpl. eapply lookup_self_insert, Hd3. }
  assert (Hs2 : sink w2 = sink w) by (rewrite E2, E1; reflexivity).
  assert (Hl2 : logfile w2 = logfile w) by (rewrite E2, E1; reflexivity).
  split; [exact Hs2|]. split; [exact Hl2|].
  split; [|split; [|split]].
  - rewrite E4. unfold comms_out. simpl commsOK. cbv iota.
    replace (updateCallback (set_devices (<[self:=updated d3 t2 k2 v2]> (devices w3)) w3))
      with true by (rewrite E3, E2, E1; simpl; congruence).
    simpl. rewrite E3. simpl. rewrite Hs2. reflexivity.
  - rewrite E4. unfold comms_out. simpl commsOK. cbv iota.
    replace (updateCallback (set_devices (<[self:=updated d3 t2 k2 v2]> (devices w3)) w3))
      with true by (rewrite E3, E2, E1; simpl; congruence).
    simpl. rewrite E3. simpl. rewrite Hl2. reflexivity.
  - unfold newProps_of. rewrite !lookup_insert_ne by congruence. apply lookup_empty.
  - rewrite (getProperty_run _ _ _ _ Hd4).
    rewrite lookup_updated_other by congruence.
    change (properties d3) with (properties d2). unfold d2.
    rewrite lookup_updated_same by assumption. reflexivity.
Qed.

Lemma outage_changes_are_never_sent_witness :
  let w := example_world (example_device 50 true) in
  let w1 := snd (setCommsOK 0 false w) in
  let w2 := snd (setProperty 0 1 "firmware" (VStr "2.0") w1) in
  let w3 := snd (setCommsOK 0 true w2) in
  let w4 := snd (setProperty 0 2 "light" (VInt 3) w3) in
  getProperty 0 "firmware" w4 = (Ok (VStr "2.0"), w4).
Proof.
  apply (outage_changes_are_never_sent (example_world (example_device 50 true)) 0
           (example_device 50 true) 1 2 "firmware" "light" (VStr "2.0") (VInt 3)
           eq_refl eq_refl); discriminate.
Defined.

(** ** The usage tick *)

Lemma powered_run self w d :
  devices w !! self = Some d ->
  powered self w =
    (Ok (match properties d !! "battery" with
         | Some b => py_gt_zero b
         | None => true
         end), w).
Proof.
  intros Hd. unfold powered, propertyAbsent, propertyExists.
  destruct (properties d !! "battery") as [b|] eqn:Hb.
  - erewrite bind_run; cycle 1.
    { erewrite bind_run; [reflexivity|].
      erewrite bind_run by (unfold get_self; rewrite Hd; reflexivity).
      rewrite Hb. reflexivity. }
    change (negb true) with false. cbv iota.
    erewrite bind_run by (rewrite (getProperty_run _ _ _ _ Hd), Hb; reflexivity).
    reflexivity.
  - erewrite bind_run; cycle 1.
    { erewrite bind_run; [reflexivity|].
      erewrite bind_run by (unfold get_self; rewrite Hd; reflexivity).
      rewrite Hb. reflexivity. }
    reflexivity.
Qed.

(** X17. The usage tick of a device without a [battery] property, or with a
    battery level above 0, sets [buttonPress] to 1 and registers exactly one
    next usage tick, at the time [timewave.nextUsageTime] gives for now.  On
    a flat battery it does nothing at all: no next tick is registered, so
    the usage chain stops until [startTicks] runs again. *)
Theorem tickProductUsage_chain (nextUsageTime : Q -> Q) (w : world) (self : nat)
    (d : device) :
  devices w !! self = Some d ->
  (forall b, properties d !! "battery" = Some b -> py_gt_zero b = false ->
   tickProductUsage nextUsageTime self w = (Ok tt, w)) /\
  ((properties d !! "battery" = None \/
    exists b, properties d !! "battery" = Some b /\ py_gt_zero b = true) ->
   let out := tickProductUsage nextUsageTime self w in
   fst out = Ok tt /\
   devices (snd out) = <[self := updated d (now w) "buttonPress" (VInt 1)]> (devices w) /\
   queue (snd out) = queue w ++ [mkEvent (nextUsageTime (now w)) TickProductUsage self]).
Proof.
  intros Hd. split.
  - intros b Hb Hgt. unfold tickProductUsage.
    erewrite bind_run by (apply powered_run; exact Hd). rewrite Hb, Hgt. reflexivity.
  - intros Hp out. subst out. unfold tickProductUsage.
    erewrite bind_run by (apply powered_run; exact Hd).
    replace (match properties d !! "battery" with
             | Some b => py_gt_zero b
             | None => true
             end) with true
      by (destruct Hp as [->|(b & -> & Hgt)]; [reflexivity|symmetry; exact Hgt]).
    erewrite bind_run by reflexivity.
    erewrite bind_run by (apply setProperty_run; exact Hd).
    erewrite bind_run by reflexivity.
    unfold register_event_at. cbv beta. cbn [fst snd].
    split; [reflexivity|]. split.
    + change (devices (set_queue ?q ?x)) with (devices x).
      rewrite devices_comms_out. reflexivity.
    + change (queue (set_queue ?q ?x)) with q.
      rewrite queue_comms_out, now_comms_out. reflexivity.
Qed.

Lemma tickProductUsage_chain_witness :
  tickProductUsage (fun t => t + 60)%Q 0 (example_world (example_device 0 true))
  = (Ok tt, example_world (example_device 0 true)).
Proof.
  apply (proj1 (tickProductUsage_chain (fun t => t + 60)%Q
                  (example_world (example_device 0 true)) 0
                  (example_device 0 true) eq_refl) (VInt 0)); reflexivity.
Defined.

(** ** The life of a [Battery] *)

Lemma Battery_tick_base b :
  Battery.base_comms_ok (snd (Battery.tick_battery_decay b)) = Battery.base_comms_ok b.
Proof.
  unfold Battery.tick_battery_decay, Battery.get_property.
  destruct (Battery.properties b !! "battery") as [v|]; [|reflexivity].
  destruct (py_gt_zero v).
  - destruct (py_sub_one v); reflexivity.
  - destruct (Battery.battery_autoreplace b); [|reflexivity].
    destruct (Battery.properties b !! "$id") as [[z|q|s|]|]; reflexivity.
Qed.

Lemma Battery_fires_base n :
  forall b, Battery.base_comms_ok (snd (Battery.fires n b)) = Battery.base_comms_ok b.
Proof.
  induction n as [|n IH]; intros b; [reflexivity|].
  simpl. unfold Battery.fire at 1.
  destruct (Battery.pending b) as [|due rest] eqn:Hp.
  - rewrite IH. reflexivity.
  - match goal with |- context [Battery.tick_battery_decay ?x] => set (b0 := x) end.
    pose proof (Battery_tick_base b0) as Hb.
    destruct (Battery.tick_battery_decay b0) as [[[]|e] b1]; simpl in *.
    + rewrite IH. exact Hb.
    + exact Hb.
Qed.

(** X18. A [Battery] leaves its constructor with a level of 100 and a life of
    at least one second.  From there the [n]-th decay tick, for [n] up to
    100, runs [n] hundredths of the life after construction and leaves the
    level at [100 - n]; so the battery is empty exactly one life after
    construction, and [comms_ok] follows the base class up to the 99th tick
    and answers "down" from the 100th. *)
Theorem Battery_lifetime (mu sigma : Q) (autoreplace : bool) (sample : Q)
    (b : Battery.t) :
  Battery.pending b = [] ->
  let life := Battery.sample_life mu sigma sample in
  let b0 := Battery.init mu sigma autoreplace sample b in
  (1 <= life)%Q /\
  Battery.properties b0 !! "battery" = Some (VInt 100) /\
  forall n, (1 <= n <= 100)%nat ->
    exists b',
      Battery.fires n b0 = (Ok tt, b') /\
      Battery.properties b' !! "battery" = Some (VInt (100 - Z.of_nat n)) /\
      (Battery.clock b' == Battery.clock b + inject_Z (Z.of_nat n) * (life / 100))%Q /\
      Battery.comms_ok b' = (Battery.base_comms_ok b && (n <? 100)%nat).
Proof.
  intros Hp life b0.
  pose proof (Battery_init_decaying mu sigma autoreplace sample b Hp) as Hdec.
  fold life in Hdec. fold b0 in Hdec.
  split; [apply Q.le_max_r|]. split; [exact (proj1 Hdec)|].
  intros n Hn.
  destruct (Battery_fires_down life autoreplace n 100 _ b0 Hdec ltac:(lia))
    as (b' & Hrun & Hdec' & Hclock).
  exists b'. split; [exact Hrun|]. split; [exact (proj1 Hdec')|]. split.
  - destruct n as [|k]; [lia|]. rewrite (Hclock k eq_refl), tick_time_eq.
    rewrite Nat2Z.inj_succ. unfold Z.succ. rewrite inject_Z_plus.
    change (inject_Z 1) with 1%Q. ring.
  - unfold Battery.comms_ok. rewrite (proj1 Hdec'). simpl default.
    pose proof (Battery_fires_base n b0) as Hbase. rewrite Hrun in Hbase.
    simpl in Hbase. rewrite Hbase. f_equal.
    unfold py_gt_zero.
    destruct (Nat.ltb_spec n 100); [apply Z.ltb_lt|apply Z.ltb_ge]; lia.
Qed.

Lemma Battery_lifetime_witness :
  exists b',
    Battery.fires 100 (Battery.init 300 0 false 300 (example_battery 7 true)) = (Ok tt, b') /\
    Battery.properties b' !! "battery" = Some (VInt 0) /\
    Battery.comms_ok b' = false.
Proof.
  destruct (proj2 (proj2 (Battery_lifetime 300 0 false 300 (example_battery 7 true) eq_refl))
              100%nat ltac:(lia)) as (b' & H1 & H2 & _ & H4).
  exists b'. split; [exact H1|]. split; [exact H2|exact H4].
Defined.

(** ** A battery device from construction to replacement *)

Lemma keeps_fire_decay self (P : device -> Prop) :
  (forall d t v, P d -> P (updated d t "battery" v)) ->
  keeps self P (fire_decay self).
Proof.
  intros Hbat w d Hd HP. unfold fire_decay.
  destruct (take_decay self (queue w)) as [[e rest]|]; [|eauto].
  set (w0 := set_now (ev_time e) (set_queue rest w)).
  assert (Hk : keeps self P (tickBatteryDecay self ;; ret true)).
  { apply keeps_bind; [apply keeps_tickBatteryDecay; exact Hbat|]. intros _. apply keeps_ret. }
  exact (Hk w0 d Hd HP).
Qed.

Lemma keeps_fire_decays self (P : device -> Prop) n :
  (forall d t v, P d -> P (updated d t "battery" v)) ->
  keeps self P (fire_decays n self).
Proof.
  intros Hbat. induction n as [|n IH]; simpl; [apply keeps_ret|].
  apply keeps_bind; [apply keeps_fire_decay; exact Hbat|]. intros _. exact IH.
Qed.

(** X19. A device constructed with a full battery, [autoTick] and the
    default life, in a world where no device carries its identifier: its
    battery is at 0 after 100 decay ticks, 300 seconds later; from then on
    every command but [replaceBattery] leaves it untouched; the next decay
    tick ends the chain; and [replaceBattery] then puts the level back to
    100 with exactly one decay tick pending, one period ahead. *)
Theorem battery_device_scenario (id : value) (time : Q) (props : gmap string value)
    (w : world) :
  fst (getDeviceByProperty "$id" id w) = Ok None ->
  props !! "battery" = Some (VInt 100) ->
  is_Some (props !! "$id") ->
  List.filter (is_decay_of (length (devices w))) (queue w) = [] ->
  let self := length (devices w) in
  let period := (DEFAULT_BATTERY_LIFE_S / 100)%Q in
  let w1 := snd (device_init id time props true w) in
  exists w2 w3,
    fire_decays 100 self w1 = (Ok tt, w2) /\
    battery_of self w2 = Some (VInt 0) /\
    (now w2 == now w + 300)%Q /\
    (forall eventName arg, eventName <> "replaceBattery" ->
       devices (snd (device_externalEvent self eventName arg w2)) = devices w2) /\
    fire_decays 1 self w2 = (Ok tt, w3) /\
    devices w3 = devices w2 /\
    List.filter (is_decay_of self) (queue w3) = [] /\
    let w4 := snd (device_externalEvent self "replaceBattery" VNone w3) in
    battery_of self w4 = Some (VInt 100) /\
    List.filter (is_decay_of self) (queue w4)
      = [mkEvent (now w3 + period)%Q TickBatteryDecay self].
Proof.
  intros Hfind Hbat Hid Hnone self period w1.
  assert (Hf : find_by_property "$id" id (devices w) 0 = None)
    by (simpl in Hfind; congruence).
  destruct (device_init_fresh_run id time props true w Hf)
    as (w1' & Hrun1 & Hdev1 & _ & _ & Hq1 & Hnow1 & _).
  assert (E1 : w1 = w1') by (unfold w1; rewrite Hrun1; reflexivity).
  clearbody w1. subst w1'.
  assert (Hd1 : devices w1 !! self = Some (new_device id props))
    by (rewrite Hdev1; apply lookup_app_new).
  assert (Hdec1 : decaying self DEFAULT_BATTERY_LIFE_S false 100 (now w + period)%Q w1).
  { exists (new_device id props). split; [exact Hd1|]. split; [exact Hbat|].
    split; [reflexivity|]. split; [reflexivity|].
    rewrite Hq1. unfold self.
    rewrite filter_decay_startTicks by (simpl; rewrite Hbat; eauto).
    rewrite Hnone. reflexivity. }
  destruct (fire_decays_down self _ false 100 100 _ w1 Hdec1 ltac:(lia))
    as (w2 & Hrun2 & Hdec2 & Hnow2).
  change (100 - Z.of_nat 100) with 0 in Hdec2.
  destruct (fire_decay_stop _ _ _ _ _ Hdec2 ltac:(lia)) as (w3 & Hf3 & Hdev3 & Hq3 & Hnow3).
  assert (Hstable : forall (d : device) (t : Q) (v : value),
             is_Some (properties d !! "$id") ->
             is_Some (properties (updated d t "battery" v) !! "$id")).
  { intros d t v _. rewrite lookup_updated_id. eauto. }
  destruct (keeps_fire_decays self (fun d => is_Some (properties d !! "$id")) 100
              Hstable w1 (new_device id props) Hd1 Hid) as (d2 & Hd2 & Hid2).
  rewrite Hrun2 in Hd2. cbn [snd] in Hd2.
  destruct Hdec2 as (d2' & Hd2' & Hb2 & HL2 & Ha2 & Hq2).
  assert (d2' = d2) by congruence. subst d2'.
  exists w2, w3.
  split; [exact Hrun2|].
  split; [unfold battery_of; rewrite Hd2; exact Hb2|].
  split.
  { rewrite (Hnow2 99%nat eq_refl), tick_time_eq. unfold period, DEFAULT_BATTERY_LIFE_S.
    change (inject_Z (Z.of_nat 99)) with 99%Q. change (inject_Z (5 * 60)) with 300%Q.
    field. }
  split.
  { intros ev arg Hne. rewrite (other_event_run _ _ _ _ _ Hd2 Hne).
    destruct Hid2 as [x Hx]. rewrite Hx.
    erewrite gates_run by (first [exact Hd2 | exact Hb2]). reflexivity. }
  split; [rewrite (fire_decays_S _ 0 _ _ _ Hf3); reflexivity|].
  split; [exact Hdev3|]. split; [exact Hq3|].
  assert (Hd3 : devices w3 !! self = Some d2) by (rewrite Hdev3; exact Hd2).
  destruct (replaceBattery_run self VNone w3 d2 Hd3 Hid2) as (w4 & Hrun4 & Hdev4 & Hq4).
  cbv zeta. rewrite Hrun4. cbn [snd]. split.
  - unfold battery_of. rewrite Hdev4. erewrite lookup_self_insert by exact Hd3.
    apply lookup_updated_same; done.
  - rewrite Hq4.
    rewrite filter_decay_startTicks by (rewrite lookup_updated_same by done; eauto).
    rewrite Hq3. simpl. unfold period. rewrite HL2. reflexivity.
Qed.

Lemma battery_device_scenario_witness :
  exists w2,
    fire_decays 100 0 decay_world = (Ok tt, w2) /\
    battery_of 0 w2 = Some (VInt 0) /\
    (now w2 == 0 + 300)%Q.
Proof.
  assert (Hb : (<["battery" := VInt 100]> {["$id" := VStr "dev1"]} : gmap string value)
               !! "battery" = Some (VInt 100)) by (vm_compute; reflexivity).
  assert (Hi : is_Some ((<["battery" := VInt 100]> {["$id" := VStr "dev1"]}
                          : gmap string value) !! "$id"))
    by (exists (VStr "dev1"); vm_compute; reflexivity).
  destruct (battery_device_scenario (VStr "dev1") 0
              (<["battery" := VInt 100]> {["$id" := VStr "dev1"]}) empty_world
              eq_refl Hb Hi eq_refl)
    as (w2 & w3 & H1 & H2 & H3 & _).
  exists w2. split; [exact H1|]. split; [exact H2|exact H3].
Defined.

(** ** The hourly tick *)

Lemma bind2_done {A B} (m : M2 A) (k : A -> M2 B) w a w1 :
  m w = (Done a, w1) -> bind2 m k w = k a w1.
Proof. intros H. unfold bind2. rewrite H. reflexivity. Qed.

Lemma bind2_failed {A B} (m : M2 A) (k : A -> M2 B) w e w1 :
  m w = (Failed e, w1) -> bind2 m k w = (Failed e, w1).
Proof. intros H. unfold bind2. rewrite H. reflexivity. Qed.

Lemma lift_ok {A} (m : M A) w a w1 : m w = (Ok a, w1) -> lift m w = (Done a, w1).
Proof. intros H. unfold lift. rewrite H. reflexivity. Qed.

Lemma lift_raise {A} (m : M A) w e w1 :
  m w = (Raise e, w1) -> lift m w = (Failed (Exn e), w1).
Proof. intros H. unfold lift. rewrite H. reflexivity. Qed.

Lemma tickHourly_flat sunBright parse self w d b :
  devices w !! self = Some d ->
  properties d !! "battery" = Some b -> py_gt_zero b = false ->
  tickHourly sunBright parse self w = (Done tt, w).
Proof.
  intros Hd Hb Hgt. unfold tickHourly.
  erewrite bind2_done by (apply lift_ok, powered_run; exact Hd).
  rewrite Hb, Hgt. reflexivity.
Qed.

Lemma tickHourly_powered sunBright parse self w d :
  devices w !! self = Some d ->
  (properties d !! "battery" = None \/
   exists b, properties d !! "battery" = Some b /\ py_gt_zero b = true) ->
  tickHourly sunBright parse self w =
    match properties d !! "longitude" with
    | None => (Failed (Exn (KeyError "longitude")), w)
    | Some lon =>
        match float_of parse lon with
        | Failed e => (Failed e, w)
        | Done x =>
            match properties d !! "latitude" with
            | None => (Failed (Exn (KeyError "latitude")), w)
            | Some lat =>
                match float_of parse lat with
                | Failed e => (Failed e, w)
                | Done y =>
                    (Failed (Exn (NameError "sim")),
                     snd (setProperty self (now w) "light" (sunBright (now w) (x, y)) w))
                end
            end
        end
    end.
Proof.
  intros Hd Hp. unfold tickHourly.
  erewrite bind2_done by (apply lift_ok, powered_run; exact Hd).
  replace (match properties d !! "battery" with
           | Some b => py_gt_zero b
           | None => true
           end) with true
    by (destruct Hp as [->|(b & -> & Hgt)]; [reflexivity|symmetry; exact Hgt]).
  erewrite bind2_done by reflexivity.
  erewrite bind2_done by reflexivity.
  destruct (properties d !! "longitude") as [lon|] eqn:Hlon.
  - erewrite bind2_done
      by (apply lift_ok; rewrite (getProperty_run _ _ _ _ Hd), Hlon; reflexivity).
    unfold bind2 at 1, py_float at 1.
    destruct (float_of parse lon) as [x|e]; [|reflexivity].
    destruct (properties d !! "latitude") as [lat|] eqn:Hlat.
    + erewrite bind2_done
        by (apply lift_ok; rewrite (getProperty_run _ _ _ _ Hd), Hlat; reflexivity).
      unfold bind2 at 1, py_float at 1.
      destruct (float_of parse lat) as [y|e]; [|reflexivity].
      rewrite (setProperty_run _ _ _ _ _ _ Hd).
      erewrite bind2_done by (apply lift_ok, setProperty_run; exact Hd).
      erewrite bind2_failed by (apply lift_raise; reflexivity).
      reflexivity.
    + erewrite bind2_failed
        by (apply lift_raise; rewrite (getProperty_run _ _ _ _ Hd), Hlat; reflexivity).
      reflexivity.
  - erewrite bind2_failed
      by (apply lift_raise; rewrite (getProperty_run _ _ _ _ Hd), Hlon; reflexivity).
    reflexivity.
Qed.

(** X20. The hourly tick never registers its next run: on a flat battery it
    does nothing; otherwise, when [longitude] and [latitude] are there and
    [float] accepts them, it sets [light] to the brightness of the sun at
    the current time and place and then raises [NameError] on [sim]; when
    [longitude] is missing, or [float] rejects it, or [latitude] is missing,
    or [float] rejects it, in this order, it raises that error before
    changing anything.  Either way the schedule is left as it was, so no
    hourly tick follows. *)
Theorem tickHourly_never_reschedules (sunBright : Q -> Q * Q -> value)
    (parse : string -> option Q) (w : world) (self : nat) (d : device) :
  devices w !! self = Some d ->
  let out := tickHourly sunBright parse self w in
  queue (snd out) = queue w /\
  (forall b, properties d !! "battery" = Some b -> py_gt_zero b = false ->
   out = (Done tt, w)) /\
  ((properties d !! "battery" = None \/
    exists b, properties d !! "battery" = Some b /\ py_gt_zero b = true) ->
   fst out <> Done tt /\
   (forall lon lat x y,
      properties d !! "longitude" = Some lon -> float_of parse lon = Done x ->
      properties d !! "latitude" = Some lat -> float_of parse lat = Done y ->
      fst out = Failed (Exn (NameError "sim")) /\
      snd out = snd (setProperty self (now w) "light" (sunBright (now w) (x, y)) w) /\
      devices (snd out)
        = <[self := updated d (now w) "light" (sunBright (now w) (x, y))]> (devices w)) /\
   (properties d !! "longitude" = None ->
    out = (Failed (Exn (KeyError "longitude")), w)) /\
   (forall lon e,
      properties d !! "longitude" = Some lon -> float_of parse lon = Failed e ->
      out = (Failed e, w)) /\
   (forall lon x,
      properties d !! "longitude" = Some lon -> float_of parse lon = Done x ->
      properties d !! "latitude" = None ->
      out = (Failed (Exn (KeyError "latitude")), w)) /\
   (forall lon x lat e,
      properties d !! "longitude" = Some lon -> float_of parse lon = Done x ->
      properties d !! "latitude" = Some lat -> float_of parse lat = Failed e ->
      out = (Failed e, w))).
Proof.
  intros Hd out.
  assert (Hpow : (properties d !! "battery" = None \/
                  exists b, properties d !! "battery" = Some b /\ py_gt_zero b = true) ->
                 out = match properties d !! "longitude" with
                       | None => (Failed (Exn (KeyError "longitude")), w)
                       | Some lon =>
                           match float_of parse lon with
                           | Failed e => (Failed e, w)
                           | Done x =>
                               match properties d !! "latitude" with
                               | None => (Failed (Exn (KeyError "latitude")), w)
                               | Some lat =>
                                   match float_of parse lat with
                                   | Failed e => (Failed e, w)
                                   | Done y =>
                                       (Failed (Exn (NameError "sim")),
                                        snd (setProperty self (now w) "light"
                                               (sunBright (now w) (x, y)) w))
                                   end
                               end
                           end
                       end)
    by (intros Hp; apply tickHourly_powered; assumption).
  assert (Hflat : forall b, properties d !! "battery" = Some b -> py_gt_zero b = false ->
                            out = (Done tt, w))
    by (intros b Hb Hgt; apply (tickHourly_flat _ _ _ _ d b); assumption).
  split; [|split; [exact Hflat|]].
  - destruct (properties d !! "battery") as [b|] eqn:Hb.
    + destruct (py_gt_zero b) eqn:Hgt.
      * rewrite Hpow by (right; eauto).
        destruct (properties d !! "longitude") as [lon|]; [|reflexivity].
        destruct (float_of parse lon); [|reflexivity].
        destruct (properties d !! "latitude") as [lat|]; [|reflexivity].
        destruct (float_of parse lat); [|reflexivity].
        cbn [snd]. rewrite (setProperty_run _ _ _ _ _ _ Hd). cbn [snd].
        rewrite queue_comms_out. reflexivity.
      * rewrite (Hflat b eq_refl Hgt). reflexivity.
    + rewrite Hpow by (left; reflexivity).
      destruct (properties d !! "longitude") as [lon|]; [|reflexivity].
      destruct (float_of parse lon); [|reflexivity].
      destruct (properties d !! "latitude") as [lat|]; [|reflexivity].
      destruct (float_of parse lat); [|reflexivity].
      cbn [snd]. rewrite (setProperty_run _ _ _ _ _ _ Hd). cbn [snd].
      rewrite queue_comms_out. reflexivity.
  - intros Hp. rewrite (Hpow Hp). split; [|split; [|split; [|split; [|split]]]].
    + destruct (properties d !! "longitude") as [lon|]; [|discriminate].
      destruct (float_of parse lon); [|discriminate].
      destruct (properties d !! "latitude") as [lat|]; [|discriminate].
      destruct (float_of parse lat); discriminate.
    + intros lon lat x y Hlon Hx Hlat Hy. rewrite Hlon, Hx, Hlat, Hy. cbn [fst snd].
      split; [reflexivity|]. split; [reflexivity|].
      rewrite (setProperty_run _ _ _ _ _ _ Hd). cbn [snd].
      rewrite devices_comms_out. reflexivity.
    + intros Hlon. rewrite Hlon. reflexivity.
    + intros lon e Hlon He. rewrite Hlon, He. reflexivity.
    + intros lon x Hlon Hx Hlat. rewrite Hlon, Hx, Hlat. reflexivity.
    + intros lon x lat e Hlon Hx Hlat He. rewrite Hlon, Hx, Hlat, He. reflexivity.
Qed.

Lemma tickHourly_never_reschedules_witness :
  tickHourly (fun _ _ => VInt 0) (fun _ => None) 0 (example_world (example_device 0 true))
  = (Done tt, example_world (example_device 0 true)).
Proof.
  apply (proj1 (proj2 (tickHourly_never_reschedules (fun _ _ => VInt 0) (fun _ => None)
                         (example_world (example_device 0 true)) 0
                         (example_device 0 true) eq_refl)) (VInt 0));
    reflexivity.
Defined.

(** ** The comms tick *)

Lemma radioGoodness_nonpos (r : Q) : (r <= BAD_RSSI)%Q -> (radioGoodness r <= 0)%Q.
Proof.
  intros Hr. unfold BAD_RSSI in Hr. rewrite radioGoodness_eq.
  assert (H : (1 ^ 4 <= ((r + 50) / -70) ^ 4)%Q).
  { apply pow4_mono; [lra|]. unfold Qdiv. change (/ -70)%Q with (- (1#70))%Q. lra. }
  change (1 ^ 4)%Q with 1%Q in H. lra.
Qed.

Lemma comms_reschedule_run self exponential w d :
  devices w !! self = Some d ->
  (do2 d <- lift (get_self self);
   do2 rate <- py_inverse (commsUpDownPeriod d);
   lift (register_event_in (Qmin exponential (commsUpDownPeriod d * 100)%Q)
           TickCommsUpDown self)) w
  = if Qeq_bool (commsUpDownPeriod d) 0
    then (Failed ZeroDivisionError, w)
    else (Done tt,
          set_queue (queue w ++
                     [mkEvent (now w + Qmin exponential (commsUpDownPeriod d * 100))%Q
                              TickCommsUpDown self]) w).
Proof.
  intros Hd.
  erewrite bind2_done by (apply lift_ok; unfold get_self; rewrite Hd; reflexivity).
  unfold bind2, py_inverse. destruct (Qeq_bool (commsUpDownPeriod d) 0); reflexivity.
Qed.

Lemma tickCommsUpDown_flag_run interp start_time rel uniform exponential self w d flag :
  devices w !! self = Some d ->
  (match rel with
   | Fraction p => flag = negb (Qle_bool p uniform)
   | Trajectory spec =>
       match properties d !! "rssi" with
       | None => flag = negb (Qle_bool (interp spec (now w - start_time)%Q) uniform)
       | Some v =>
           exists r, py_num v = Some r /\
             flag = negb (Qle_bool (interp spec (now w - start_time) * radioGoodness r)%Q
                            uniform)
       end
   end) ->
  tickCommsUpDown interp start_time rel uniform exponential self w
  = let w1 := set_devices (<[self := set_commsOK flag d]> (devices w)) w in
    if Qeq_bool (commsUpDownPeriod d) 0
    then (Failed ZeroDivisionError, w1)
    else (Done tt,
          set_queue (queue w ++
                     [mkEvent (now w + Qmin exponential (commsUpDownPeriod d * 100))%Q
                              TickCommsUpDown self]) w1).
Proof.
  intros Hd Hflag. unfold tickCommsUpDown.
  assert (Hd1 : devices (set_devices (<[self := set_commsOK flag d]> (devices w)) w) !! self
                = Some (set_commsOK flag d))
    by (simpl; eapply lookup_self_insert, Hd).
  assert (Hset : lift (setCommsOK self flag) w
                 = (Done tt, set_devices (<[self := set_commsOK flag d]> (devices w)) w))
    by (apply lift_ok, setCommsOK_run; exact Hd).
  destruct rel as [p|spec].
  - subst flag. erewrite bind2_done by exact Hset.
    rewrite (comms_reschedule_run _ _ _ _ Hd1). reflexivity.
  - destruct (properties d !! "rssi") as [v|] eqn:Hv.
    + destruct Hflag as (r & Hr & Hflag). subst flag.
      erewrite bind2_done; cycle 1.
      { erewrite bind2_done by reflexivity.
        unfold propertyExists.
        erewrite bind2_done
          by (apply lift_ok; erewrite bind_run by (unfold get_self; rewrite Hd; reflexivity);
              reflexivity).
        rewrite Hv.
        erewrite bind2_done; cycle 1.
        { erewrite bind2_done
            by (apply lift_ok; rewrite (getProperty_run _ _ _ _ Hd), Hv; reflexivity).
          unfold py_number. rewrite Hr.
          erewrite bind2_done by reflexivity. reflexivity. }
        exact Hset. }
      rewrite (comms_reschedule_run _ _ _ _ Hd1). reflexivity.
    + subst flag.
      erewrite bind2_done; cycle 1.
      { erewrite bind2_done by reflexivity.
        unfold propertyExists.
        erewrite bind2_done
          by (apply lift_ok; erewrite bind_run by (unfold get_self; rewrite Hd; reflexivity);
              reflexivity).
        rewrite Hv.
        erewrite bind2_done by reflexivity.
        exact Hset. }
      rewrite (comms_reschedule_run _ _ _ _ Hd1). reflexivity.
Qed.

(** X21. The comms tick is silent and changes one thing, the [commsOK] flag
    of its device: up exactly when the probability is above the drawn
    number.  With a numeric reliability the probability is that number; with
    a trajectory it is the interpolated value, multiplied by the radio factor
    when the device has an [rssi] reading.  A reading at or below [BAD_RSSI]
    with a non-negative interpolated value and draw puts comms down; a
    reading that is not a number raises [TypeError] before anything changes,
    which ends the chain.  After the flag is set, one next comms tick is
    registered, the drawn delay capped at 100 periods; a period of 0 raises
    [ZeroDivisionError] instead and nothing is registered. *)
Theorem tickCommsUpDown_step (interp : string -> Q -> Q) (start_time : Q)
    (uniform exponential : Q) (w : world) (self : nat) (d : device) :
  devices w !! self = Some d ->
  let period := commsUpDownPeriod d in
  let next := mkEvent (now w + Qmin exponential (period * 100))%Q TickCommsUpDown self in
  let after flag := set_devices (<[self := set_commsOK flag d]> (devices w)) w in
  (forall p,
     tickCommsUpDown interp start_time (Fraction p) uniform exponential self w
     = if Qeq_bool period 0
       then (Failed ZeroDivisionError, after (negb (Qle_bool p uniform)))
       else (Done tt, set_queue (queue w ++ [next]) (after (negb (Qle_bool p uniform))))) /\
  (forall spec,
     properties d !! "rssi" = None ->
     let flag := negb (Qle_bool (interp spec (now w - start_time)%Q) uniform) in
     tickCommsUpDown interp start_time (Trajectory spec) uniform exponential self w
     = if Qeq_bool period 0
       then (Failed ZeroDivisionError, after flag)
       else (Done tt, set_queue (queue w ++ [next]) (after flag))) /\
  (forall spec v r,
     properties d !! "rssi" = Some v -> py_num v = Some r ->
     let flag := negb (Qle_bool (interp spec (now w - start_time) * radioGoodness r)%Q
                         uniform) in
     tickCommsUpDown interp start_time (Trajectory spec) uniform exponential self w
     = (if Qeq_bool period 0
        then (Failed ZeroDivisionError, after flag)
        else (Done tt, set_queue (queue w ++ [next]) (after flag))) /\
     ((r <= BAD_RSSI)%Q -> (0 <= interp spec (now w - start_time))%Q -> (0 <= uniform)%Q ->
      flag = false)) /\
  (forall spec v,
     properties d !! "rssi" = Some v -> py_num v = None ->
     tickCommsUpDown interp start_time (Trajectory spec) uniform exponential self w
     = (Failed (Exn TypeError), w)) /\
  ((0 < period)%Q -> (ev_time next <= now w + 100 * period)%Q).
Proof.
  intros Hd period next after.
  split; [|split; [|split; [|split]]].
  - intros p.
    apply (tickCommsUpDown_flag_run interp start_time (Fraction p) uniform exponential
             self w d _ Hd). reflexivity.
  - intros spec Hrssi flag.
    apply (tickCommsUpDown_flag_run interp start_time (Trajectory spec) uniform exponential
             self w d flag Hd). rewrite Hrssi. reflexivity.
  - intros spec v r Hrssi Hr flag. split.
    + apply (tickCommsUpDown_flag_run interp start_time (Trajectory spec) uniform
               exponential self w d flag Hd). rewrite Hrssi. eauto.
    + intros Hbad Hprob Hu. unfold flag.
      pose proof (radioGoodness_nonpos r Hbad) as Hrg.
      replace (Qle_bool (interp spec (now w - start_time) * radioGoodness r)%Q uniform)
        with true; [reflexivity|].
      symmetry. apply Qle_bool_iff.
      assert (Hle : (interp spec (now w - start_time) * radioGoodness r <= 0)%Q).
      { revert Hprob Hrg.
        generalize (interp spec (now w - start_time)%Q) (radioGoodness r).
        intros x g Hx Hg. nra. }
      eapply Qle_trans; [exact Hle|exact Hu].
  - intros spec v Hrssi Hnum. unfold tickCommsUpDown.
    erewrite bind2_failed; [reflexivity|].
    erewrite bind2_done by reflexivity.
    unfold propertyExists.
    erewrite bind2_done
      by (apply lift_ok; erewrite bind_run by (unfold get_self; rewrite Hd; reflexivity);
          reflexivity).
    rewrite Hrssi.
    erewrite bind2_failed; [reflexivity|].
    erewrite bind2_done
      by (apply lift_ok; rewrite (getProperty_run _ _ _ _ Hd), Hrssi; reflexivity).
    unfold py_number. rewrite Hnum.
    erewrite bind2_failed by reflexivity. reflexivity.
  - intros Hpos. simpl ev_time.
    pose proof (Q.le_min_r exponential (period * 100)%Q) as Hmin. lra.
Qed.

Lemma tickCommsUpDown_step_witness :
  tickCommsUpDown (fun _ _ => 1%Q) 0 (Trajectory "spec") (1 # 2) 10 0
    (example_world (example_device 50 true))
  = (Done tt,
     set_queue [mkEvent (0 + Qmin 10 (inject_Z (1 * 60 * 60 * 24) * 100))%Q TickCommsUpDown 0]
       (set_devices [set_commsOK true (example_device 50 true)]
          (example_world (example_device 50 true)))).
Proof.
  apply (proj1 (proj2 (tickCommsUpDown_step (fun _ _ => 1%Q) 0 (1 # 2) 10
                         (example_world (example_device 50 true)) 0
                         (example_device 50 true) eq_refl)) "spec").
  reflexivity.
Defined.

(** ** Events that reach no device *)

Lemma externalEvent_inert params body w r :
  params !! "body" = Some body ->
  externalEvent_loop body (devices w) 0
    (set_logging (logging w ++ [(INFO, MsgExternalReceived)]) w)
  = (r, set_logging (logging w ++ [(INFO, MsgExternalReceived)]) w) ->
  r <> Ok true ->
  (forall c, r <> Raise (SystemExit c)) ->
  let out := externalEvent params w in
  fst out = Ok tt /\ devices (snd out) = devices w /\
  queue (snd out) = queue w /\ sink (snd out) = sink w /\
  exists lines, logfile (snd out) = logfile w ++ lines /\
                lines <> [] /\ ~ In (Line MsgNoSuchDevice) lines.
Proof.
  intros Hp Hloop Hr Hexit out.
  assert (E : out =
              (logString MsgErrorProcessing ;;
               logging_error (MsgErrorDetail (match r with
                                              | Ok _ => NameError "deviceID"
                                              | Raise e => e
                                              end)) ;;
               logging_error MsgTraceback)
                (set_logging (logging w ++ [(INFO, MsgExternalReceived)]) w)).
  { unfold out, externalEvent. rewrite Hp. unfold try_except.
    erewrite bind_run by reflexivity.
    erewrite bind_run by reflexivity.
    unfold bind at 1. cbn [devices set_logging] in *. rewrite Hloop.
    destruct r as [[|]|e]; [congruence|reflexivity|].
    destruct e; try reflexivity. exfalso. eapply Hexit. reflexivity. }
  rewrite E. simpl. do 4 (split; [reflexivity|]).
  exists [Line MsgErrorProcessing]. split; [reflexivity|].
  split; [discriminate|]. intros [H|[]]. discriminate.
Qed.

Lemma externalEvent_loop_no_name body ds :
  (forall ev, body !! "eventName" <> Some (VStr ev)) ->
  forall i w, exists r, externalEvent_loop body ds i w = (r, w) /\ r <> Ok true /\
                        forall c, r <> Raise (SystemExit c).
Proof.
  intros Hev. induction ds as [|d ds IH]; intros i w; simpl.
  - exists (Ok false). repeat split; discriminate.
  - destruct (properties d !! "$id") as [id|];
      [|exists (Raise (KeyError "$id")); repeat split; discriminate].
    destruct (body !! "deviceId") as [target|];
      [|exists (Raise (KeyError "deviceId")); repeat split; discriminate].
    destruct (py_eq id target); [|apply IH].
    destruct (body !! "eventName") as [[| |ev|]|] eqn:E;
      try (eexists; split; [reflexivity|]; split; discriminate).
    exfalso. exact (Hev ev eq_refl).
Qed.

Lemma externalEvent_loop_no_target body ds :
  body !! "deviceId" = None ->
  forall i w, exists r, externalEvent_loop body ds i w = (r, w) /\ r <> Ok true /\
                        forall c, r <> Raise (SystemExit c).
Proof.
  intros Hb i w. destruct ds as [|d ds]; simpl.
  - exists (Ok false). repeat split; discriminate.
  - destruct (properties d !! "$id") as [id|];
      [|exists (Raise (KeyError "$id")); repeat split; discriminate].
    rewrite Hb. exists (Raise (KeyError "deviceId")). repeat split; discriminate.
Qed.

Lemma externalEvent_loop_blocked body target pre d post :
  body !! "deviceId" = Some target ->
  Forall (fun d0 => exists y, properties d0 !! "$id" = Some y /\ py_eq y target = false) pre ->
  properties d !! "$id" = None ->
  forall i w, externalEvent_loop body (pre ++ d :: post) i w = (Raise (KeyError "$id"), w).
Proof.
  intros Hb Hpre Hd. induction Hpre as [|d0 pre (y & Hy & Hne) _ IH]; intros i w; simpl.
  - rewrite Hd. reflexivity.
  - rewrite Hy, Hb, Hne. apply IH.
Qed.

(** X22. Three kinds of event reach no device at all: the dispatcher returns
    normally, logs "Error processing external event", never the "No such
    device" line, and leaves every device, the schedule and the sink as they
    were.  They are an event whose [eventName] is missing or is not a string,
    an event without a [deviceId], and any event when a device without an
    [$id] property is registered before the first device that matches: the
    devices behind it are then out of reach of every event. *)
Theorem externalEvent_undelivered (params : gmap string (gmap string value))
    (body : gmap string value) (w : world) :
  params !! "body" = Some body ->
  let out := externalEvent params w in
  let inert :=
    fst out = Ok tt /\ devices (snd out) = devices w /\
    queue (snd out) = queue w /\ sink (snd out) = sink w /\
    exists lines, logfile (snd out) = logfile w ++ lines /\
                  lines <> [] /\ ~ In (Line MsgNoSuchDevice) lines in
  ((forall ev, body !! "eventName" <> Some (VStr ev)) -> inert) /\
  (body !! "deviceId" = None -> inert) /\
  (forall target pre d post,
     body !! "deviceId" = Some target ->
     devices w = pre ++ d :: post ->
     Forall (fun d0 => exists y, properties d0 !! "$id" = Some y /\ py_eq y target = false)
            pre ->
     properties d !! "$id" = None ->
     inert).
Proof.
  intros Hp out inert. subst inert out.
  split; [|split].
  - intros Hev.
    destruct (externalEvent_loop_no_name body (devices w) Hev 0
                (set_logging (logging w ++ [(INFO, MsgExternalReceived)]) w))
      as (r & Hloop & Hr & Hexit).
    exact (externalEvent_inert params body w r Hp Hloop Hr Hexit).
  - intros Hb.
    destruct (externalEvent_loop_no_target body (devices w) Hb 0
                (set_logging (logging w ++ [(INFO, MsgExternalReceived)]) w))
      as (r & Hloop & Hr & Hexit).
    exact (externalEvent_inert params body w r Hp Hloop Hr Hexit).
  - intros target pre d post Hb Hdev Hpre Hd.
    apply (externalEvent_inert params body w (Raise (KeyError "$id")) Hp);
      [|discriminate|discriminate].
    rewrite Hdev. apply (externalEvent_loop_blocked body target pre d post Hb Hpre Hd).
Qed.

Lemma externalEvent_undelivered_witness :
  devices (snd (externalEvent nameless_event (example_world (example_device 50 true))))
  = [example_device 50 true].
Proof.
  assert (Hp : nameless_event !! "body" = Some {["deviceId" := VStr "dev1"]})
    by (vm_compute; reflexivity).
  destruct (proj1 (externalEvent_undelivered nameless_event {["deviceId" := VStr "dev1"]}
                     (example_world (example_device 50 true)) Hp))
    as (_ & H & _).
  - intros ev H. vm_compute in H. discriminate.
  - exact H.
Defined.
